(** * SheetCopy.jsx: the interaction engine of the canvas spreadsheet grid

    A shallow embedding of the coordinate mapper, the selection state
    machine, the fill handle and the clipboard bridge of
    [src/app copy/SheetCopy.jsx], followed by the properties of the
    specification that concern them.

    Numbers are JavaScript numbers in the source; every quantity modelled
    here (cell indices, pixel offsets, sizes) is an integer, taken in [Z].
    JavaScript adds and compares whole numbers exactly as long as they stay
    within [2^53] in magnitude ([maxExact] below); the properties that
    depend on a sum being exact say so.  Arrays are lists read with stdpp's
    lookup. *)

From stdpp Require Import base list numbers strings gmap pretty.
From Stdlib Require Import ZArith Lia Ascii QArith.

Local Open Scope Z_scope.

(** ** Size and cell accessors *)

(** The shapes [props.cellWidth] / [props.cellHeight] may take. *)
Inductive SizeProp : Type :=
  | SizeArray (sizes : list Z)
  | SizeFunction (f : Z -> Z)
  | SizeNumber (n : Z)
  | SizeAbsent.

Definition createRowOrColumnPropFunction
    (sizeProp : SizeProp) (defaultValue : Z) : Z -> Z :=
  fun cell =>
    match sizeProp with
    | SizeArray sizes =>
        if (0 <=? cell) && (cell <? Z.of_nat (length sizes))
        then default defaultValue (sizes !! Z.to_nat cell)
        else defaultValue
    | SizeFunction f => f cell
    | SizeNumber n => n
    | SizeAbsent => defaultValue
    end.

(** The shapes of a per-cell property ([readOnly], [sourceData], ...). *)
Inductive CellProp (A : Type) : Type :=
  | CellArray (rows : list (list A))
  | CellFunction (f : Z -> Z -> A)
  | CellConstant (a : A)
  | CellAbsent.
Arguments CellArray {A} rows.
Arguments CellFunction {A} f.
Arguments CellConstant {A} a.
Arguments CellAbsent {A}.

Definition createCellPropFunction {A : Type}
    (cellProp : CellProp A) (defaultValue : A) : Z -> Z -> A :=
  fun x y =>
    match cellProp with
    | CellArray rows =>
        if (0 <=? y) && (y <? Z.of_nat (length rows))
        then
          let row := default [] (rows !! Z.to_nat y) in
          if (0 <=? x) && (x <? Z.of_nat (length row))
          then default defaultValue (row !! Z.to_nat x)
          else defaultValue
        else defaultValue
    | CellFunction f => f x y
    | CellConstant a => a
    | CellAbsent => defaultValue
    end.

(** ** The viewport window of one axis *)

Record Window : Type := mkWindow {
  visible : list Z;
  start : list Z;
  end_ : list Z
}.

(** [visible.push(v); start.push(s); end.push(e)] *)
Definition push (w : Window) (v s e : Z) : Window :=
  {| visible := visible w ++ [v];
     start := start w ++ [s];
     end_ := end_ w ++ [e] |}.

(** The [for (; ind < freezeCount; ind++)] loop; [n] is its trip count.
    It returns the window together with [prev]. *)
Fixpoint frozenLoop (n : nat) (size : Z -> Z) (ind prev : Z) (w : Window)
    : Window * Z :=
  match n with
  | O => (w, prev)
  | S n' =>
      let prev' := prev + size ind in
      frozenLoop n' size (ind + 1) prev' (push w ind prev prev')
  end.

(** The [while (true)] loop.  It ends only through its [break]; the fuel
    bounds the number of iterations and [None] means it was exhausted.
    The sums are those of the source as long as they stay within [2^53],
    where JavaScript adds whole numbers without rounding. *)
Fixpoint whileLoop (fuel : nat) (size : Z -> Z) (visibleArea : Z)
    (ind prev : Z) (w : Window) : option Window :=
  match fuel with
  | O => None
  | S fuel' =>
      let prev' := prev + size ind in
      let w' := push w ind prev prev' in
      if default 0 (last (end_ w')) >=? visibleArea
      then Some w'
      else whileLoop fuel' size visibleArea (ind + 1) prev' w'
  end.

Definition calculateRowsOrColsSizes (fuel : nat)
    (freezeCount : Z) (size : Z -> Z)
    (startingSize startingIndex visibleArea : Z) : option Window :=
  let firstSize := if 0 <? freezeCount then size 0 else size startingIndex in
  let prev := startingSize + firstSize in
  let w0 :=
    {| visible := [if 0 <? freezeCount then 0 else startingIndex];
       start := [startingSize];
       end_ := [prev] |} in
  let ind := if 0 <? freezeCount then 1 else startingIndex + 1 in
  if 0 <? freezeCount then
    let '(w1, prev1) :=
      frozenLoop (Z.to_nat (freezeCount - ind)) size ind prev w0 in
    whileLoop fuel size visibleArea (Z.max startingIndex freezeCount) prev1 w1
  else
    whileLoop fuel size visibleArea ind prev w0.

(** ** Engine data *)

(** JavaScript values carried by cells and change records. *)
Inductive Value : Type :=
  | VNull
  | VUndefined
  | VNumber (n : Z)
  | VString (s : string).

(** [{x, y}] *)
Record Cell : Type := mkCell { c_x : Z; c_y : Z }.

(** [{x1, y1, x2, y2}]; the corners are stored as given, not normalized. *)
Record Rect : Type := mkRect { r_x1 : Z; r_y1 : Z; r_x2 : Z; r_y2 : Z }.

(** [{x, y, value}], one entry of the array handed to [props.onChange]. *)
Record Change : Type := mkChange { ch_x : Z; ch_y : Z; ch_value : Value }.

(** [{cellX, cellY, x, y, w, h, onClick}]; the callback is named by a tag. *)
Record HitTarget : Type := mkHitTarget {
  ht_cellX : Z; ht_cellY : Z;
  ht_x : Z; ht_y : Z; ht_w : Z; ht_h : Z;
  ht_onClick : nat
}.

Record ButtonClick : Type := mkButtonClick {
  bc_x : Z; bc_y : Z; bc_hitTarget : option HitTarget
}.

(** [{startX, oldWidth, colIdx}] and [{startY, oldHeight, rowIdx}] *)
Record Resize : Type := mkResize {
  rs_start : Z; rs_oldSize : Z; rs_idx : Z
}.

(** The [useState] cells of the [Sheet] component. *)
Record State : Type := mkState {
  dataOffset : Cell;
  selection : Rect;
  knobArea : Rect;
  editCell : Cell;
  editValue : Value;
  arrowKeyCommitMode : bool;
  shiftKeyDown : bool;
  knobDragInProgress : bool;
  selectionInProgress : bool;
  columnResize : option Resize;
  rowResize : option Resize;
  rowSelectionInProgress : bool;
  columnSelectionInProgress : bool;
  buttonClickMouseDownCoordinates : ButtonClick
}.

Definition initialState : State :=
  {| dataOffset := mkCell 0 0;
     selection := mkRect (-1) (-1) (-1) (-1);
     knobArea := mkRect (-1) (-1) (-1) (-1);
     editCell := mkCell (-1) (-1);
     editValue := VString "";
     arrowKeyCommitMode := false;
     shiftKeyDown := false;
     knobDragInProgress := false;
     selectionInProgress := false;
     columnResize := None;
     rowResize := None;
     rowSelectionInProgress := false;
     columnSelectionInProgress := false;
     buttonClickMouseDownCoordinates := mkButtonClick (-1) (-1) None |}.

(** The properties of the component the engine reads.  [onChange] and
    [onSelectionChanged] record whether the host supplied the callback. *)
Record Props : Type := mkProps {
  freezeColumns : Z;
  freezeRows : Z;
  p_cellWidth : SizeProp;
  p_cellHeight : SizeProp;
  p_readOnly : CellProp bool;
  p_sourceData : CellProp Value;
  p_editData : CellProp Value;
  onChange : bool;
  onSelectionChanged : bool
}.

(** What a handler does, in order: the state setters it calls and the
    calls it makes to the host.  A handler is a closure over the state of
    the render that created it, so a setter never changes what the rest of
    the same handler reads. *)
Inductive Action : Type :=
  | SetDataOffset (c : Cell)
  | SetSelection (r : Rect)
  | SetKnobArea (r : Rect)
  | SetEditCell (c : Cell)
  | SetEditValue (v : Value)
  | SetArrowKeyCommitMode (b : bool)
  | SetShiftKeyDown (b : bool)
  | SetKnobDragInProgress (b : bool)
  | SetSelectionInProgress (b : bool)
  | SetColumnResize (r : option Resize)
  | SetRowResize (r : option Resize)
  | SetRowSelectionInProgress (b : bool)
  | SetColumnSelectionInProgress (b : bool)
  | SetButtonClickMouseDownCoordinates (b : ButtonClick)
  | CallOnChange (changes : list Change)
  | CallOnSelectionChanged (sx1 sy1 sx2 sy2 : Z)
  | ScheduleScroll (newScrollLeft newScrollTop : Z)
  | CallOnClick (t : HitTarget)
  | PreventDefault.

Definition applyAction (s : State) (a : Action) : State :=
  let '(mkState o sel k ec ev akc sh kd sp cr rr rsp csp bc) := s in
  match a with
  | SetDataOffset v => mkState v sel k ec ev akc sh kd sp cr rr rsp csp bc
  | SetSelection v => mkState o v k ec ev akc sh kd sp cr rr rsp csp bc
  | SetKnobArea v => mkState o sel v ec ev akc sh kd sp cr rr rsp csp bc
  | SetEditCell v => mkState o sel k v ev akc sh kd sp cr rr rsp csp bc
  | SetEditValue v => mkState o sel k ec v akc sh kd sp cr rr rsp csp bc
  | SetArrowKeyCommitMode v => mkState o sel k ec ev v sh kd sp cr rr rsp csp bc
  | SetShiftKeyDown v => mkState o sel k ec ev akc v kd sp cr rr rsp csp bc
  | SetKnobDragInProgress v => mkState o sel k ec ev akc sh v sp cr rr rsp csp bc
  | SetSelectionInProgress v => mkState o sel k ec ev akc sh kd v cr rr rsp csp bc
  | SetColumnResize v => mkState o sel k ec ev akc sh kd sp v rr rsp csp bc
  | SetRowResize v => mkState o sel k ec ev akc sh kd sp cr v rsp csp bc
  | SetRowSelectionInProgress v => mkState o sel k ec ev akc sh kd sp cr rr v csp bc
  | SetColumnSelectionInProgress v => mkState o sel k ec ev akc sh kd sp cr rr rsp v bc
  | SetButtonClickMouseDownCoordinates v =>
      mkState o sel k ec ev akc sh kd sp cr rr rsp csp v
  | CallOnChange _ | CallOnSelectionChanged _ _ _ _ | ScheduleScroll _ _
  | CallOnClick _ | PreventDefault => s
  end.

(** The state of the next render. *)
Definition nextState (s : State) (acts : list Action) : State :=
  foldl applyAction s acts.

(** Every array handed to [props.onChange], in call order. *)
Definition onChangeCalls (acts : list Action) : list (list Change) :=
  omap (fun a => match a with CallOnChange c => Some c | _ => None end) acts.

(** Every rectangle handed to [props.onSelectionChanged]. *)
Definition onSelectionChangedCalls (acts : list Action) : list Rect :=
  omap (fun a => match a with
                 | CallOnSelectionChanged a b c d => Some (mkRect a b c d)
                 | _ => None end) acts.

(** The host scroll position each scheduled callback assigns; the source
    uses [-1] for "leave this axis alone". *)
Definition scrollLeftRequests (acts : list Action) : list Z :=
  omap (fun a => match a with
                 | ScheduleScroll l _ => if l =? -1 then None else Some l
                 | _ => None end) acts.

Definition scrollTopRequests (acts : list Action) : list Z :=
  omap (fun a => match a with
                 | ScheduleScroll _ t => if t =? -1 then None else Some t
                 | _ => None end) acts.

(** Keyboard events, with the fields the handlers read. *)
Record KeyEvent : Type := mkKeyEvent {
  key : string;
  keyCode : Z;
  which : Z;
  metaKey : bool;
  ctrlKey : bool;
  shiftKey : bool
}.

Definition rowHeaderWidth : Z := 50.
Definition columnHeaderHeight : Z := 22.
Definition scrollSpeed : Z := 30.

(** ** Array and string helpers *)

(** [arr.includes(v)] *)
Definition includes (arr : list Z) (v : Z) : bool := existsb (Z.eqb v) arr.

(** [arr[arr.length - 1] === v]; on an empty array the element is
    [undefined] and the test is false. *)
Definition lastIs (arr : list Z) (v : Z) : bool :=
  match last arr with Some l => l =? v | None => false end.

(** [arr[arr.length - 1] <= v] *)
Definition lastLe (arr : list Z) (v : Z) : bool :=
  match last arr with Some l => l <=? v | None => false end.

(** [arr.findIndex((i) => i === v)], [None] for [-1]. *)
Definition findIndex (arr : list Z) (v : Z) : option nat :=
  fst <$> list_find (fun i => i = v) arr.

(** [for (let i = lo; i <= hi; i++)] as the list of values [i] takes. *)
Definition upTo (lo hi : Z) : list Z := seqZ lo (hi - lo + 1).

(** [for (let i = 0; i < n; i++) acc += size(i)], from [acc = 0]. *)
Definition sumSizes (size : Z -> Z) (n : Z) : Z :=
  foldl (fun acc i => acc + size i) 0 (seqZ 0 n).

Definition newline : ascii := ascii_of_nat 10.
Definition carriageReturn : ascii := ascii_of_nat 13.
Definition tab : ascii := ascii_of_nat 9.

(** Puts a character in front of the first piece of a split. *)
Definition consFirst (c : ascii) (pieces : list string) : list string :=
  match pieces with
  | piece :: rest => String c piece :: rest
  | [] => [String c EmptyString]
  end.

(** [str.split(sep)] for a one-character separator. *)
Fixpoint split (sep : ascii) (str : string) : list string :=
  match str with
  | EmptyString => [EmptyString]
  | String c str' =>
      if Ascii.eqb c sep then EmptyString :: split sep str'
      else consFirst c (split sep str')
  end.

(** [text.split(/\r?\n/)] *)
Fixpoint splitLines (text : string) : list string :=
  match text with
  | EmptyString => [EmptyString]
  | String c text' =>
      if Ascii.eqb c newline then EmptyString :: splitLines text'
      else if Ascii.eqb c carriageReturn then
        match text' with
        | String c' text'' =>
            if Ascii.eqb c' newline then EmptyString :: splitLines text''
            else consFirst c (splitLines text')
        | EmptyString => consFirst c (splitLines text')
        end
      else consFirst c (splitLines text')
  end.

(** [String.fromCharCode(which).toLowerCase() === letter], for a lower-case
    ASCII letter given by its code. *)
Definition fromCharCodeLowerIs (which letter : Z) : bool :=
  let unit := which `mod` 65536 in
  (unit =? letter) || (unit =? letter - 32).

(** [['ArrowRight', 'ArrowLeft', 'ArrowUp', 'ArrowDown'].includes(k)] *)
Definition isArrowKey (k : string) : bool :=
  existsb (String.eqb k)
    ["ArrowRight"; "ArrowLeft"; "ArrowUp"; "ArrowDown"]%string.

(** ** The handlers of one render *)

Section Render.

(** The props, the state and the two viewport windows the render
    computed; every handler below closes over them. *)
Variable props : Props.
Variable s : State.
Variable columns rows : Window.

Let visibleColumns := visible columns.
Let columnXStart := start columns.
Let columnXEnd := end_ columns.
Let visibleRows := visible rows.
Let rowYStart := start rows.
Let rowYEnd := end_ rows.

Definition cellWidth : Z -> Z :=
  createRowOrColumnPropFunction (p_cellWidth props) 100.
Definition cellHeight : Z -> Z :=
  createRowOrColumnPropFunction (p_cellHeight props) 22.
Definition cellReadOnly : Z -> Z -> bool :=
  createCellPropFunction (p_readOnly props) false.
Definition sourceData : Z -> Z -> Value :=
  createCellPropFunction (p_sourceData props) VNull.
Definition editData : Z -> Z -> Value :=
  createCellPropFunction (p_editData props) VNull.

Definition editMode : bool :=
  negb (c_x (editCell s) =? -1) && negb (c_y (editCell s) =? -1).

(** The new offset of one axis in [changeSelection], when the axis is
    touched: [Math.max(offset, freeze) + increment]. *)
Definition scrolledOffset (visibleAxis : list Z) (offset freeze p2 : Z)
    : option Z :=
  if negb (includes visibleAxis p2) || lastIs visibleAxis p2 then
    let increment := if lastLe visibleAxis p2 then 1 else -1 in
    Some (Z.max offset freeze + increment)
  else None.

Definition changeSelection (x1 y1 x2 y2 : Z) (scrollToP2 : bool)
    : list Action :=
  [SetSelection (mkRect x1 y1 x2 y2)]
  ++ (if scrollToP2 then
        let newX :=
          scrolledOffset visibleColumns (c_x (dataOffset s))
            (freezeColumns props) x2 in
        let newY :=
          scrolledOffset visibleRows (c_y (dataOffset s))
            (freezeRows props) y2 in
        let newDataOffset :=
          mkCell (default (c_x (dataOffset s)) newX)
                 (default (c_y (dataOffset s)) newY) in
        let newScrollLeft := default (-1) ((fun n => n * scrollSpeed) <$> newX) in
        let newScrollTop := default (-1) ((fun n => n * scrollSpeed) <$> newY) in
        if negb (c_x newDataOffset =? c_x (dataOffset s))
           || negb (c_y (dataOffset s) =? c_y newDataOffset)
        then [SetDataOffset newDataOffset;
              ScheduleScroll newScrollLeft newScrollTop]
        else []
      else [])
  ++ (if onSelectionChanged props then
        let sx1 := if x1 >? x2 then x2 else x1 in
        let sx2 := if x1 >? x2 then x1 else x2 in
        let sy1 := if y1 >? y2 then y2 else y1 in
        let sy2 := if y1 >? y2 then y1 else y2 in
        [CallOnSelectionChanged sx1 sy1 sx2 sy2]
      else []).

(** [absX >= start[i] && absX <= end[i]]; a comparison with a missing
    entry is false. *)
Definition inSpan (w : Window) (i : nat) (abs : Z) : bool :=
  match start w !! i, end_ w !! i with
  | Some st, Some en => (abs >=? st) && (abs <=? en)
  | _, _ => false
  end.

(** One [for (let i = 0; i < visible.length; i++) { if ... break; }] scan
    of [absCoordianteToCell]; [n] counts the indices left and [cell] is
    the value the variable holds when no span matches. *)
Fixpoint scanSpans (n : nat) (w : Window) (i : nat) (abs cell : Z) : Z :=
  match n with
  | O => cell
  | S n' =>
      if inSpan w i abs then default 0 (visible w !! i)
      else scanSpans n' w (S i) abs cell
  end.

Definition absCoordianteToCell (absX absY : Z) : Cell :=
  let cellX := scanSpans (length visibleColumns) columns 0 absX 0 in
  let cellY := scanSpans (length visibleRows) rows 0 absY 0 in
  mkCell cellX cellY.

Definition cellToAbsCoordinate (cellX cellY : Z) : Cell :=
  let absX :=
    match findIndex visibleColumns cellX with
    | Some indX => default 0 (columnXStart !! indX)
    | None =>
        rowHeaderWidth - sumSizes cellWidth (c_x (dataOffset s))
        + sumSizes cellWidth cellX
    end in
  let absY :=
    match findIndex visibleRows cellY with
    | Some indY => default 0 (rowYStart !! indY)
    | None =>
        columnHeaderHeight - sumSizes cellHeight (c_y (dataOffset s))
        + sumSizes cellHeight cellY
    end in
  mkCell absX absY.

(** The paste anchor computed at the top of [parsePastedText]; [-1] on
    an axis means none was found. *)
Definition pasteLoc : Z * Z :=
  let sel := selection s in
  let pasteLocX := -1 in
  let pasteLocY := -1 in
  let pasteLocX :=
    if negb (r_x1 sel =? -1) && (r_x2 sel =? -1) then r_x1 sel
    else pasteLocX in
  let pasteLocY :=
    if negb (r_y1 sel =? -1) && (r_y2 sel =? -1) then r_y1 sel
    else pasteLocY in
  let pasteLocX :=
    if negb (r_x1 sel =? -1) && negb (r_x2 sel =? -1)
    then Z.min (r_x1 sel) (r_x2 sel) else pasteLocX in
  let pasteLocY :=
    if negb (r_y1 sel =? -1) && negb (r_y2 sel =? -1)
    then Z.min (r_y1 sel) (r_y2 sel) else pasteLocY in
  (pasteLocX, pasteLocY).

(** The body of the [for (let y = 0; y < rows.length; y++)] loop of
    [parsePastedText], over the rows still to read; it threads [pasteX2]
    and returns it with the changes pushed. *)
Fixpoint pasteRows (pasteLocX pasteLocY : Z) (textRows : list string)
    (y pasteX2 : Z) : Z * list Change :=
  match textRows with
  | [] => (pasteX2, [])
  | row :: rest =>
      let cols := split tab row in
      let width := Z.of_nat (length cols) in
      let pasteX2 :=
        if pasteLocX + width - 1 >? pasteX2 then pasteLocX + width - 1
        else pasteX2 in
      let pushed :=
        imap (fun x col =>
                mkChange (pasteLocX + Z.of_nat x) (pasteLocY + y)
                         (VString col)) cols in
      let '(pasteX2, more) :=
        pasteRows pasteLocX pasteLocY rest (y + 1) pasteX2 in
      (pasteX2, pushed ++ more)
  end.

Definition parsePastedText (text : string) : list Action :=
  let '(pasteLocX, pasteLocY) := pasteLoc in
  if (pasteLocX =? -1) || (pasteLocY =? -1) then []
  else
    let textRows := splitLines text in
    let pasteY2 := pasteLocY + Z.of_nat (length textRows) - 1 in
    let '(pasteX2, changes) :=
      pasteRows pasteLocX pasteLocY textRows 0 pasteLocX in
    (if onChange props then [CallOnChange changes] else [])
    ++ changeSelection pasteLocX pasteLocY pasteX2 pasteY2 false.

Definition commitEditingCell : list Action :=
  (if onChange props
   then [CallOnChange
           [mkChange (c_x (editCell s)) (c_y (editCell s)) (editValue s)]]
   else [])
  ++ [SetEditCell (mkCell (-1) (-1))].

Definition startEditingCell (cell : Cell) : list Action :=
  if cellReadOnly (c_x cell) (c_y cell) then []
  else
    let editDataValue := editData (c_x cell) (c_y cell) in
    let val :=
      match editDataValue with
      | VNull | VUndefined => VString ""
      | v => v
      end in
    [SetEditCell cell; SetEditValue val].

(** [a] and [b] in increasing order, as the swaps of the source do. *)
Definition ordered (a b : Z) : Z * Z := if a >? b then (b, a) else (a, b).

(** The vertical fill loop of [onMouseUp], over the destination rows
    still to fill; [srcY] is the source row of the next one. *)
Fixpoint fillRows (ys xs : list Z) (sy1 sy2 srcY : Z) : list Change :=
  match ys with
  | [] => []
  | y :: ys' =>
      ((fun x => mkChange x y (sourceData x srcY)) <$> xs)
      ++ (let srcY := srcY + 1 in
          let srcY := if srcY >? sy2 then sy1 else srcY in
          fillRows ys' xs sy1 sy2 srcY)
  end.

(** The horizontal fill loop, symmetric. *)
Fixpoint fillColumns (xs ys : list Z) (sx1 sx2 srcX : Z) : list Change :=
  match xs with
  | [] => []
  | x :: xs' =>
      ((fun y => mkChange x y (sourceData srcX y)) <$> ys)
      ++ (let srcX := srcX + 1 in
          let srcX := if srcX >? sx2 then sx1 else srcX in
          fillColumns xs' ys sx1 sx2 srcX)
  end.

(** The change records of a released fill-handle drag. *)
Definition knobChanges : list Change :=
  let '(sx1, sx2) := ordered (r_x1 (selection s)) (r_x2 (selection s)) in
  let '(sy1, sy2) := ordered (r_y1 (selection s)) (r_y2 (selection s)) in
  let '(kx1, kx2) := ordered (r_x1 (knobArea s)) (r_x2 (knobArea s)) in
  let '(ky1, ky2) := ordered (r_y1 (knobArea s)) (r_y2 (knobArea s)) in
  let '(fx1, fy1, fx2, fy2) := (kx1, ky1, kx2, ky2) in
  if fx2 - fx1 =? sx2 - sx1 then
    let '(fy1, fy2) :=
      if fy1 =? sy1 then (sy2 + 1, fy2) else (fy1, sy1 - 1) in
    fillRows (upTo fy1 fy2) (upTo fx1 fx2) sy1 sy2 sy1
  else
    let '(fx1, fx2) :=
      if fx1 =? sx1 then (sx2 + 1, fx2) else (fx1, sx1 - 1) in
    fillColumns (upTo fx1 fx2) (upTo fy1 fy2) sx1 sx2 sx1.

(** [onMouseUp]; [x] and [y] are the pointer relative to the target. *)
Definition onMouseUp (x y : Z) : list Action :=
  (if knobDragInProgress s then
     (if onChange props then [CallOnChange knobChanges] else [])
     ++ changeSelection (r_x1 (knobArea s)) (r_y1 (knobArea s))
          (r_x2 (knobArea s)) (r_y2 (knobArea s)) true
   else [])
  ++ [SetSelectionInProgress false;
      SetRowSelectionInProgress false;
      SetColumnSelectionInProgress false;
      SetKnobDragInProgress false;
      SetColumnResize None;
      SetRowResize None]
  ++ (let b := buttonClickMouseDownCoordinates s in
      match bc_hitTarget b with
      | Some hitTarget =>
          if negb (bc_x b =? -1) && negb (bc_y b =? -1) then
            (if (ht_x hitTarget <=? x)
                && (x <=? ht_x hitTarget + ht_w hitTarget)
                && (ht_y hitTarget <=? y)
                && (y <=? ht_y hitTarget + ht_h hitTarget)
             then [CallOnClick hitTarget] else [])
            ++ [SetButtonClickMouseDownCoordinates
                  (mkButtonClick (-1) (-1) None)]
          else []
      | None => []
      end).

Definition onDoubleClick (x y : Z) : list Action :=
  let cell := absCoordianteToCell x y in
  [SetArrowKeyCommitMode false] ++ startEditingCell cell.

(** [onKeyDown], the key handler of the edit box. *)
Definition onKeyDown (e : KeyEvent) : list Action :=
  let sel := selection s in
  if String.eqb (key e) "Escape" then [SetEditCell (mkCell (-1) (-1))]
  else
    (if String.eqb (key e) "Enter" then
       commitEditingCell
       ++ changeSelection (r_x1 sel) (r_y1 sel + 1)
            (r_x1 sel) (r_y1 sel + 1) true
     else [])
    ++ (if String.eqb (key e) "Tab" then
          [PreventDefault] ++ commitEditingCell
          ++ changeSelection (r_x1 sel + 1) (r_y1 sel)
               (r_x1 sel + 1) (r_y1 sel) true
        else [])
    ++ (if arrowKeyCommitMode s && isArrowKey (key e) then
          let '(x1, y1, x2, y2) :=
            if String.eqb (key e) "ArrowRight" then
              (r_x1 sel + 1, r_y1 sel, r_x1 sel + 1, r_y1 sel)
            else if String.eqb (key e) "ArrowLeft" then
              (r_x1 sel - 1, r_y1 sel, r_x1 sel - 1, r_y1 sel)
            else if String.eqb (key e) "ArrowUp" then
              (r_x1 sel, r_y1 sel - 1, r_x1 sel, r_y1 sel - 1)
            else if String.eqb (key e) "ArrowDown" then
              (r_x1 sel, r_y1 sel + 1, r_x1 sel, r_y1 sel + 1)
            else (r_x1 sel, r_y1 sel, r_x1 sel, r_y1 sel) in
          [PreventDefault] ++ commitEditingCell
          ++ changeSelection x1 y1 x2 y2 true
        else []).

(** The change records of the Backspace / Delete branch. *)
Definition deleteChanges : list Change :=
  let '(x1, x2) := ordered (r_x1 (selection s)) (r_x2 (selection s)) in
  let '(y1, y2) := ordered (r_y1 (selection s)) (r_y2 (selection s)) in
  flat_map (fun y => (fun x => mkChange x y VNull) <$> upTo x1 x2)
           (upTo y1 y2).

(** The keys that start an edit: digits, keypad digits, letters, Enter
    and three punctuation marks. *)
Definition startsEdit (e : KeyEvent) : bool :=
  ((48 <=? keyCode e) && (keyCode e <=? 57))
  || ((96 <=? keyCode e) && (keyCode e <=? 105))
  || ((65 <=? keyCode e) && (keyCode e <=? 90))
  || String.eqb (key e) "Enter"
  || String.eqb (key e) "-"
  || String.eqb (key e) "."
  || String.eqb (key e) ",".

(** [onGridKeyDown], the key handler of the grid itself. *)
Definition onGridKeyDown (e : KeyEvent) : list Action :=
  let sel := selection s in
  if editMode && arrowKeyCommitMode s && isArrowKey (key e) then
    commitEditingCell
  else if String.eqb (key e) "Shift" then [SetShiftKeyDown true]
  else if (metaKey e || ctrlKey e) && fromCharCodeLowerIs (which e) 118
  then []
  else if (metaKey e || ctrlKey e) && fromCharCodeLowerIs (which e) 99
  then []
  else if String.eqb (key e) "Backspace" || String.eqb (key e) "Delete"
  then (if onChange props then [CallOnChange deleteChanges] else [])
  else if (r_x1 sel =? -1) || (r_x2 sel =? -1)
          || (r_y1 sel =? -1) || (r_y2 sel =? -1)
  then []
  else if startsEdit e then
    if cellReadOnly (r_x1 sel) (r_y1 sel) then [PreventDefault]
    else
      startEditingCell (mkCell (r_x1 sel) (r_y1 sel))
      ++ [SetArrowKeyCommitMode (negb (String.eqb (key e) "Enter"))]
  else if isArrowKey (key e) then
    let sel2x :=
      if String.eqb (key e) "ArrowRight" || String.eqb (key e) "Tab"
      then r_x2 sel + 1
      else if String.eqb (key e) "ArrowLeft" then r_x2 sel - 1
      else r_x2 sel in
    let sel2y :=
      if String.eqb (key e) "ArrowRight" || String.eqb (key e) "Tab"
      then r_y2 sel
      else if String.eqb (key e) "ArrowLeft" then r_y2 sel
      else if String.eqb (key e) "ArrowUp" then r_y2 sel - 1
      else if String.eqb (key e) "ArrowDown" then r_y2 sel + 1
      else r_y2 sel in
    let sel2x := if sel2x <? 0 then 0 else sel2x in
    let sel2y := if sel2y <? 0 then 0 else sel2y in
    let '(sel1x, sel1y) :=
      if negb (shiftKey e) then (sel2x, sel2y)
      else (r_x1 sel, r_y1 sel) in
    changeSelection sel1x sel1y sel2x sel2y true
  else [PreventDefault].

End Render.

(** The two windows a render computes from the props, the scroll offset
    and the canvas extent; [None] when a [while (true)] loop runs out of
    fuel. *)
Definition renderWindows (fuel : nat) (props : Props) (s : State)
    (canvasWidth canvasHeight : Z) : option (Window * Window) :=
  columns ← calculateRowsOrColsSizes fuel (freezeColumns props)
    (cellWidth props) rowHeaderWidth (c_x (dataOffset s)) canvasWidth;
  rows ← calculateRowsOrColsSizes fuel (freezeRows props)
    (cellHeight props) columnHeaderHeight (c_y (dataOffset s)) canvasHeight;
  Some (columns, rows).

(** ** Vocabulary of the properties *)

(** [Tiled size p vs ss es q]: the parallel arrays [vs], [ss], [es] list
    cells laid end to end from pixel [p] to pixel [q], each entry starting
    where the previous one ends and spanning the size of its cell. *)
Inductive Tiled (size : Z -> Z) : Z -> list Z -> list Z -> list Z -> Z -> Prop :=
  | Tiled_nil p : Tiled size p [] [] [] p
  | Tiled_cons p v vs ss es q :
      Tiled size (p + size v) vs ss es q ->
      Tiled size p (v :: vs) (p :: ss) ((p + size v) :: es) q.

(** The pixel [p] lies within the content the window lays out on its axis,
    from the start of its first entry to the end of its last. *)
Definition inExtent (w : Window) (p : Z) : Prop :=
  exists a b, head (start w) = Some a /\ last (end_ w) = Some b /\ a <= p <= b.

(** The pixel [abs] lies in no span of the window. *)
Definition outsideSpans (w : Window) (abs : Z) : Prop :=
  forall i : nat, inSpan w i abs = false.

(** The cells a stored rectangle denotes, whichever corner comes first. *)
Definition covers (r : Rect) (x y : Z) : Prop :=
  Z.min (r_x1 r) (r_x2 r) <= x <= Z.max (r_x1 r) (r_x2 r)
  /\ Z.min (r_y1 r) (r_y2 r) <= y <= Z.max (r_y1 r) (r_y2 r).

(** The test [changeSelection] makes before it scrolls an axis: the target
    is not listed in the window, or it is the window's last entry. *)
Definition notFullyVisible (visibleAxis : list Z) (p2 : Z) : bool :=
  negb (includes visibleAxis p2) || lastIs visibleAxis p2.

(** The direction of the step: forward when the target is at or past the
    last entry of the window, backward otherwise. *)
Definition increment (visibleAxis : list Z) (p2 : Z) : Z :=
  if lastLe visibleAxis p2 then 1 else -1.

Inductive Axis : Type := AxisX | AxisY.

Definition axisOf (a : Axis) (c : Cell) : Z :=
  match a with AxisX => c_x c | AxisY => c_y c end.

Definition axisFreeze (a : Axis) (props : Props) : Z :=
  match a with AxisX => freezeColumns props | AxisY => freezeRows props end.

Definition axisVisible (a : Axis) (columns rows : Window) : list Z :=
  match a with AxisX => visible columns | AxisY => visible rows end.

Definition axisScrollRequests (a : Axis) (acts : list Action) : list Z :=
  match a with
  | AxisX => scrollLeftRequests acts
  | AxisY => scrollTopRequests acts
  end.

(** The text ["a\tb\nc\td"]. *)
Definition pastedSample : string :=
  String "a" (String tab (String "b" (String newline
    (String "c" (String tab (String "d" EmptyString)))))).

Definition backspaceKey : KeyEvent := mkKeyEvent "Backspace" 8 8 false false false.
Definition deleteKey : KeyEvent := mkKeyEvent "Delete" 46 46 false false false.

(** A state that differs from the initial one by its selection only. *)
Definition selecting (sel : Rect) : State :=
  nextState initialState [SetSelection sel].

(** The windows of an unscrolled sheet with default sizes on a canvas of
    300 by 70 pixels. *)
Definition sampleColumns : Window :=
  mkWindow [0; 1; 2] [50; 150; 250] [150; 250; 350].
Definition sampleRows : Window :=
  mkWindow [0; 1; 2] [22; 44; 66] [44; 66; 88].

(** The columns of an unscrolled sheet with three frozen columns, on a
    canvas 500 pixels wide. *)
Definition frozenColumns : Window :=
  mkWindow [0; 1; 2; 3; 4] [50; 150; 250; 350; 450] [150; 250; 350; 450; 550].

(** Props with every optional accessor absent and both callbacks given. *)
Definition plainProps : Props :=
  mkProps 0 0 SizeAbsent SizeAbsent CellAbsent CellAbsent CellAbsent true true.

(** What the two loops of [calculateRowsOrColsSizes] maintain: the arrays
    tile the axis from [p0] to [prev], and the indices listed so far are
    distinct and all below the next index [ind]. *)
Definition LoopInv (size : Z -> Z) (p0 : Z) (w : Window) (prev ind : Z) : Prop :=
  Tiled size p0 (visible w) (start w) (end_ w) prev
  /\ visible w <> []
  /\ NoDup (visible w)
  /\ (forall v, v ∈ visible w -> v < ind).

(** The largest magnitude up to which every whole number is a JavaScript
    number and a sum of two whole numbers is computed without rounding. *)
Definition maxExact : Z := 2 ^ 53.

Definition withinExact (z : Z) : Prop := - maxExact <= z <= maxExact.

(** The position [prev] after [n] more cells, from the cell [ind] on, have
    been added to it. *)
Fixpoint positionAfter (size : Z -> Z) (prev ind : Z) (n : nat) : Z :=
  match n with
  | O => prev
  | S n' => positionAfter size (prev + size ind) (ind + 1) n'
  end.

(** [prev] and [ind] when [calculateRowsOrColsSizes] enters its [while]
    loop: past the frozen block when there is one, past the cell of the
    starting index otherwise. *)
Definition entryPosition (freezeCount : Z) (size : Z -> Z)
    (startingSize startingIndex : Z) : Z :=
  if 0 <? freezeCount
  then positionAfter size startingSize 0 (Z.to_nat freezeCount)
  else startingSize + size startingIndex.

Definition entryIndex (freezeCount startingIndex : Z) : Z :=
  if 0 <? freezeCount then Z.max startingIndex freezeCount
  else startingIndex + 1.

(** Every index of the window lies in [ilo .. ihi] and every pixel offset
    in [plo .. phi]. *)
Definition windowWithin (w : Window) (ilo ihi plo phi : Z) : Prop :=
  Forall (fun v => ilo <= v <= ihi) (visible w)
  /\ Forall (fun p => plo <= p <= phi) (start w)
  /\ Forall (fun p => plo <= p <= phi) (end_ w).

(** Sizes with two leading cells of no width: [[0, 0, 100]], 100 pixels
    past the array. *)
Definition sparseSizes : Z -> Z :=
  createRowOrColumnPropFunction (SizeArray [0; 0; 100]) 100.

(** The rectangle with its corners in order, first the lesser. *)
Definition normalized (r : Rect) : Rect :=
  mkRect (Z.min (r_x1 r) (r_x2 r)) (Z.min (r_y1 r) (r_y2 r))
         (Z.max (r_x1 r) (r_x2 r)) (Z.max (r_y1 r) (r_y2 r)).

(** [plainProps] with three frozen columns. *)
Definition frozenProps : Props :=
  mkProps 3 0 SizeAbsent SizeAbsent CellAbsent CellAbsent CellAbsent true true.

(** [plainProps] with [readOnly = true], every cell read-only. *)
Definition readOnlyProps : Props :=
  mkProps 0 0 SizeAbsent SizeAbsent (CellConstant true) CellAbsent CellAbsent
    true true.

(** [plainProps] with the source values [[1, 2], [3, 4]]. *)
Definition fillProps : Props :=
  mkProps 0 0 SizeAbsent SizeAbsent CellAbsent
    (CellArray [[VNumber 1; VNumber 2]; [VNumber 3; VNumber 4]]) CellAbsent
    true true.

(** A fill-handle drag in progress, from the region [sel] to [knob]. *)
Definition dragging (sel knob : Rect) : State :=
  nextState initialState
    [SetSelection sel; SetKnobArea knob; SetKnobDragInProgress true].

(** ** The rest of the engine *)

Definition knobSize : Z := 6.
Definition xBinSize : Z := 10.
Definition yBinSize : Z := 10.
Definition resizeColumnRowMouseThreshold : Z := 4.
Definition minimumColumnWidth : Z := 50.
Definition minimumRowHeight : Z := 22.

(** Whether the host supplied the optional callbacks the pointer handlers
    call. *)
Record HostProps : Type := mkHostProps {
  onCellWidthChange : bool;
  onCellHeightChange : bool;
  onRightClick : bool
}.

(** What the pointer, scroll and clipboard handlers do: the actions
    above, and besides them the cursor they set on the document body, the
    [maxScroll] they store and the calls to the optional callbacks. *)
Inductive Effect : Type :=
  | Do (a : Action)
  | SetCursor (cursor : string)
  | SetMaxScroll (x y : Q)
  | CallOnCellWidthChange (colIdx newWidth : Z)
  | CallOnCellHeightChange (rowIdx newHeight : Z)
  | CallOnRightClick (cellX cellY : Z).

Definition actionsOf (effects : list Effect) : list Action :=
  omap (fun e => match e with Do a => Some a | _ => None end) effects.

(** Every size handed to [props.onCellWidthChange] or
    [props.onCellHeightChange], with the index it is for. *)
Definition sizeChangeCalls (effects : list Effect) : list (Z * Z) :=
  omap (fun e => match e with
                 | CallOnCellWidthChange i w => Some (i, w)
                 | CallOnCellHeightChange i h => Some (i, h)
                 | _ => None end) effects.

(** Every target whose [onClick] was called. *)
Definition onClickCalls (acts : list Action) : list HitTarget :=
  omap (fun a => match a with CallOnClick t => Some t | _ => None end) acts.

(** *** The hit-test index *)

(** [hitMap[xkey][ykey]] is the array of targets of one bin. *)
Abbreviation HitMap := (gmap Z (gmap Z (list HitTarget))).

(** [t.x <= x && x <= t.x + t.w && t.y <= y && y <= t.y + t.h] *)
Definition contains (t : HitTarget) (x y : Z) : bool :=
  (ht_x t <=? x) && (x <=? ht_x t + ht_w t)
  && (ht_y t <=? y) && (y <=? ht_y t + ht_h t).

(** [if (!xbin[ykey]) xbin[ykey] = []; xbin[ykey].push(hitTarget)] *)
Definition addToBin (t : HitTarget) (xbin : gmap Z (list HitTarget))
    (ykey : Z) : gmap Z (list HitTarget) :=
  <[ykey := default [] (xbin !! ykey) ++ [t]]> xbin.

(** One turn of the [xkey] loop: the column of bins is created when
    missing, then the target is pushed to its bins [y1key .. y2key]. *)
Definition addToColumn (t : HitTarget) (y1key y2key : Z)
    (hitM : HitMap) (xkey : Z) : HitMap :=
  let xbin := default ∅ (hitM !! xkey) in
  <[xkey := foldl (addToBin t) xbin (upTo y1key y2key)]> hitM.

(** The "add to hit map" block of the [hitMap] memo, for one target whose
    rectangle is already placed on the canvas. *)
Definition addHitTarget (hitM : HitMap) (t : HitTarget) : HitMap :=
  let x1key := ht_x t / xBinSize in
  let x2key := (ht_x t + ht_w t) / xBinSize in
  let y1key := ht_y t / yBinSize in
  let y2key := (ht_y t + ht_h t) / yBinSize in
  foldl (addToColumn t y1key y2key) hitM (upTo x1key x2key).

(** The index of the targets the visible cells declare, added in the
    order the memo meets them.  Their rectangles are taken as given, in
    whole pixels: the memo places a target half a cell height below the
    top of its cell, which this development does not compute. *)
Definition hitMapOf (targets : list HitTarget) : HitMap :=
  foldl addHitTarget ∅ targets.

(** [hitMap[kx] && hitMap[kx][ky]], as the list the handlers iterate;
    a missing bin gives no iteration. *)
Definition bucket (hitMap : HitMap) (x y : Z) : list HitTarget :=
  default [] (hitMap !! (x / xBinSize) ≫= (fun xbin => xbin !! (y / yBinSize))).

(** The first target of the pointer's bin that contains the pointer. *)
Definition hitTest (hitMap : HitMap) (x y : Z) : option HitTarget :=
  List.find (fun t => contains t x y) (bucket hitMap x y).

(** *** Text of the clipboard *)

(** [arr.join(sep)] on an array of strings. *)
Fixpoint join (sep : string) (arr : list string) : string :=
  match arr with
  | [] => ""
  | [piece] => piece
  | piece :: rest => piece +:+ sep +:+ join sep rest
  end.

(** The JavaScript number nearest to a whole number [v >= 0]: [v] itself
    below [2^53]; past it the 53 leading bits of [v], rounded to the
    nearest, a tie going to the even one. *)
Definition nearestDouble (v : Z) : Z :=
  if v <? maxExact then v
  else
    let e := Z.log2 v - 52 in
    let q := Z.shiftr v e in
    let r := v - Z.shiftl q e in
    let half := Z.shiftl 1 (e - 1) in
    let q' := if r <? half then q
              else if half <? r then q + 1
              else if Z.even q then q else q + 1 in
    Z.shiftl q' e.

(** The whole number of [k] digits followed by [n - k] zeros that reads
    back as the number [x] of [n] digits, if there is one: the nearer of
    the two such numbers around [x], the one of even digits on a tie. *)
Definition shortestWith (x n k : Z) : option Z :=
  let step := 10 ^ (n - k) in
  let lo := x / step * step in
  let hi := lo + step in
  let okLo := nearestDouble lo =? x in
  let okHi := nearestDouble hi =? x in
  if okLo && okHi then
    if x - lo <? hi - x then Some lo
    else if hi - x <? x - lo then Some hi
    else if Z.even (lo / step) then Some lo else Some hi
  else if okLo then Some lo
  else if okHi then Some hi
  else None.

(** The number of fewest digits that reads back as [x], trying [k],
    [k + 1], ... digits. *)
Fixpoint shortest (fuel : nat) (x n k : Z) : Z :=
  match fuel with
  | O => x
  | S fuel' =>
      match shortestWith x n k with
      | Some v => v
      | None => shortest fuel' x n (k + 1)
      end
  end.

Fixpoint dropTrailingZeros (str : string) : string :=
  match str with
  | EmptyString => EmptyString
  | String c rest =>
      match dropTrailingZeros rest with
      | EmptyString =>
          if Ascii.eqb c "0" then EmptyString else String c EmptyString
      | rest' => String c rest'
      end
  end.

(** The text JavaScript makes of a whole number: the fewest digits that
    read back as the number, followed by zeros up to 21 digits, and in
    exponent notation past that. *)
Definition numberToString (z : Z) : string :=
  let x := nearestDouble (Z.abs z) in
  let sign := if z <? 0 then "-" else "" in
  if x =? 0 then "0"
  else if 2 ^ 1024 <=? x then sign +:+ "Infinity"
  else
    let n := Z.of_nat (String.length (pretty x)) in
    let text := pretty (shortest (Z.to_nat n) x n 1) in
    let exponent := pretty (Z.of_nat (String.length text) - 1) in
    sign +:+
    (if Z.of_nat (String.length text) <=? 21 then text
     else
       match dropTrailingZeros text with
       | EmptyString => text
       | String d EmptyString => String d EmptyString +:+ "e+" +:+ exponent
       | String d more =>
           String d EmptyString +:+ "." +:+ more +:+ "e+" +:+ exponent
       end).

(** The text [join] makes of a cell value: a string as it is, a number as
    JavaScript prints it, nothing for [null] and [undefined]. *)
Definition copiedText (v : Value) : string :=
  match v with
  | VNull | VUndefined => ""
  | VNumber n => numberToString n
  | VString str => str
  end.

(** *** The parsed clipboard markup *)

(** An element of the tree the browser builds from the pasted markup. *)
#[warnings="-register-all"] Inductive Node : Type :=
  mkNode { nodeName : string; innerHTML : string; children : list Node }.

Fixpoint findTable (element : Node) : option Node :=
  (fix scan (nodes : list Node) : option Node :=
     match nodes with
     | [] => None
     | child :: rest =>
         if String.eqb (nodeName child) "TABLE" then Some child
         else match findTable child with
              | Some maybeTable => Some maybeTable
              | None => scan rest
              end
     end) (children element).

(** The three nested loops of [parsePastedHtml] thread the next column
    [x], the next row [y] and the changes pushed so far. *)
Definition pasteCell (acc : Z * Z * list Change) (td : Node)
    : Z * Z * list Change :=
  let '(x, y, changes) := acc in
  if String.eqb (nodeName td) "TD"
  then (x + 1, y, changes ++ [mkChange x y (VString (innerHTML td))])
  else acc.

Definition pasteTableRow (pasteLocX : Z) (acc : Z * Z * list Change)
    (tr : Node) : Z * Z * list Change :=
  let '(_, y, changes) := acc in
  if String.eqb (nodeName tr) "TR" then
    let '(x, y, changes) :=
      foldl pasteCell (pasteLocX, y, changes) (children tr) in
    (x, y + 1, changes)
  else (pasteLocX, y, changes).

Definition pasteTableChild (pasteLocX : Z) (acc : Z * Z * list Change)
    (tableChild : Node) : Z * Z * list Change :=
  if String.eqb (nodeName tableChild) "TBODY"
  then foldl (pasteTableRow pasteLocX) acc (children tableChild)
  else acc.

(** *** The remaining handlers of one render *)

Section MoreHandlers.

Variable props : Props.
Variable host : HostProps.
Variable s : State.
Variable columns rows : Window.
Variable hitMap : HitMap.
Variable canvasWidth canvasHeight : Z.

(** The pixel of the fill handle: the far corner of the selection. *)
Definition knobCoordinates : Cell :=
  let sel := selection s in
  if negb (r_x2 sel =? -1) && negb (r_y2 sel =? -1) then
    let selx2 := if r_x1 sel >? r_x2 sel then r_x1 sel else r_x2 sel in
    let sely2 := if r_y1 sel >? r_y2 sel then r_y1 sel else r_y2 sel in
    let c := cellToAbsCoordinate props s columns rows selx2 sely2 in
    mkCell (c_x c + cellWidth props selx2) (c_y c + cellHeight props sely2)
  else mkCell (-1) (-1).

(** The scan for a boundary within the resize threshold of the pointer:
    [pos] is the boundary before the next listed cell.  It returns the
    boundary found and the cell listed after it. *)
Fixpoint findBoundary (size : Z -> Z) (visibleAxis : list Z) (pos p : Z)
    : option (Z * Z) :=
  match visibleAxis with
  | [] => None
  | cell :: rest =>
      if Z.abs (pos - p) <? resizeColumnRowMouseThreshold
      then Some (pos, cell)
      else findBoundary size rest (pos + size cell) p
  end.

Definition nearKnob (x y : Z) : bool :=
  (Z.abs (x - c_x knobCoordinates) <? knobSize)
  && (Z.abs (y - c_y knobCoordinates) <? knobSize).

(** [onMouseDown]; [button] is [e.button], [x] and [y] the pointer
    relative to the target. *)
Definition onMouseDown (button x y : Z) : list Effect :=
  if negb (button =? 0) then []
  else if (x >? canvasWidth) || (y >? canvasHeight) then []
  else
    match hitTest hitMap x y with
    | Some hitTarget =>
        [Do (SetButtonClickMouseDownCoordinates
               (mkButtonClick x y (Some hitTarget)))]
    | None =>
        match (if y <? columnHeaderHeight
               then findBoundary (cellWidth props) (visible columns)
                      rowHeaderWidth x
               else None) with
        | Some (xx, col) =>
            [SetCursor "col-resize";
             Do (SetColumnResize
                   (Some (mkResize xx (cellWidth props (col - 1)) (col - 1))))]
        | None =>
            match (if x <? rowHeaderWidth
                   then findBoundary (cellHeight props) (visible rows)
                          columnHeaderHeight y
                   else None) with
            | Some (yy, row) =>
                [SetCursor "row-resize";
                 Do (SetRowResize
                       (Some (mkResize yy (cellHeight props (row - 1))
                                (row - 1))))]
            | None =>
                if nearKnob x y then
                  [Do (SetKnobDragInProgress true);
                   Do (SetKnobArea (mkRect (r_x1 (selection s))
                                      (r_y1 (selection s))
                                      (r_x2 (selection s))
                                      (r_y2 (selection s))))]
                else
                  let sel2 := absCoordianteToCell columns rows x y in
                  let sel1 :=
                    if shiftKeyDown s
                    then mkCell (r_x1 (selection s)) (r_y1 (selection s))
                    else sel2 in
                  let sel2x := if x <? rowHeaderWidth then 100 else c_x sel2 in
                  let sel2y :=
                    if y <? columnHeaderHeight then 100 else c_y sel2 in
                  let scrollToP2 :=
                    negb (x <? rowHeaderWidth)
                    && negb (y <? columnHeaderHeight) in
                  (Do <$> (if editMode s then commitEditingCell props s
                           else []))
                  ++ [Do (SetRowSelectionInProgress (x <? rowHeaderWidth));
                      Do (SetColumnSelectionInProgress
                            (y <? columnHeaderHeight));
                      Do (SetSelectionInProgress true)]
                  ++ (Do <$> changeSelection props s columns rows
                               (c_x sel1) (c_y sel1) sel2x sel2y scrollToP2)
                  ++ [Do (SetEditCell (mkCell (-1) (-1)))]
            end
        end
    end.

(** The area a fill-handle drag covers with the pointer over [cell].  The
    source compares the distances of the cell to the centre of the
    selection on the two axes, [(x1 + x2) * 0.5] and [(y1 + y2) * 0.5];
    both sides are doubled here, which keeps them whole numbers and the
    comparison the same. *)
Definition draggedKnobArea (cell : Cell) : Rect :=
  let '(x1, x2) := ordered (r_x1 (selection s)) (r_x2 (selection s)) in
  let '(y1, y2) := ordered (r_y1 (selection s)) (r_y2 (selection s)) in
  if Z.abs (2 * c_x cell - (x1 + x2)) <? Z.abs (2 * c_y cell - (y1 + y2))
  then
    if c_y cell <? y1 then mkRect x1 (c_y cell) x2 y2
    else mkRect x1 y1 x2 (c_y cell)
  else
    if c_x cell <? x1 then mkRect (c_x cell) y1 x2 y2
    else mkRect x1 y1 (c_x cell) y2.

(** [onMouseMove] *)
Definition onMouseMove (x y : Z) : list Effect :=
  [SetCursor "auto"]
  ++ ((fun _ => SetCursor "pointer")
        <$> filter (fun t => contains t x y = true) (bucket hitMap x y))
  ++ (if onCellWidthChange host && (y <? columnHeaderHeight) then
        match findBoundary (cellWidth props) (visible columns)
                rowHeaderWidth x with
        | Some _ => [SetCursor "col-resize"]
        | None => []
        end
      else [])
  ++ (if onCellHeightChange host && (x <? rowHeaderWidth) then
        match findBoundary (cellHeight props) (visible rows)
                columnHeaderHeight y with
        | Some _ => [SetCursor "row-resize"]
        | None => []
        end
      else [])
  ++ (if nearKnob x y then [SetCursor "crosshair"] else [])
  ++ match columnResize s with
     | Some resize =>
         if onCellWidthChange host then
           [CallOnCellWidthChange (rs_idx resize)
              (Z.max (rs_oldSize resize + x - rs_start resize)
                 minimumColumnWidth)]
         else []
     | None =>
         match rowResize s with
         | Some resize =>
             if onCellHeightChange host then
               [CallOnCellHeightChange (rs_idx resize)
                  (Z.max (rs_oldSize resize + y - rs_start resize)
                     minimumRowHeight)]
             else []
         | None =>
             (if selectionInProgress s then
                let sel := selection s in
                let sel2 := absCoordianteToCell columns rows x y in
                Do <$>
                  (if rowSelectionInProgress s then
                     changeSelection props s columns rows
                       (r_x1 sel) (r_y1 sel) (r_x2 sel) (c_y sel2) false
                   else if columnSelectionInProgress s then
                     changeSelection props s columns rows
                       (r_x1 sel) (r_y1 sel) (c_x sel2) (r_y2 sel) false
                   else
                     changeSelection props s columns rows
                       (r_x1 sel) (r_y1 sel) (c_x sel2) (c_y sel2) true)
              else [])
             ++ (if knobDragInProgress s then
                   [SetCursor "crosshair";
                    Do (SetKnobArea
                          (draggedKnobArea
                             (absCoordianteToCell columns rows x y)))]
                 else [])
         end
     end.

Definition onMouseLeave : list Effect := [SetCursor "auto"].

Definition onGridKeyUp (e : KeyEvent) : list Action :=
  [SetShiftKeyDown (shiftKey e)].

(** [onContextMenu] *)
Definition onContextMenu (x y : Z) : list Effect :=
  if negb (onRightClick host) then []
  else
    let cell := absCoordianteToCell columns rows x y in
    if (y >? columnHeaderHeight) && (x >? rowHeaderWidth)
    then onMouseMove x y ++ [CallOnRightClick (c_x cell) (c_y cell)]
    else [].

(** [onScroll]; [absX] and [absY] are the scroll position of the overlay
    and [maxScroll] the state cell of that name, a rational since the
    handler grows it by the factor 1.5. *)
Definition onScroll (maxScroll : Q * Q) (absX absY : Z) : list Effect :=
  let cellX := absX / scrollSpeed in
  let cellY := absY / scrollSpeed in
  let half := (1 # 2)%Q in
  let newMaxScrollX :=
    if negb (Qle_bool 1 (fst maxScroll / (inject_Z absX + half)))
    then (fst maxScroll * (3 # 2))%Q else fst maxScroll in
  let newMaxScrollY :=
    if negb (Qle_bool 1 (snd maxScroll / (inject_Z absY + half)))
    then (snd maxScroll * (3 # 2))%Q else snd maxScroll in
  (if negb (cellX =? c_x (dataOffset s)) || negb (cellY =? c_y (dataOffset s))
   then [Do (SetDataOffset (mkCell cellX cellY))] else [])
  ++ (if negb (Qeq_bool newMaxScrollX (fst maxScroll))
         || negb (Qeq_bool (snd maxScroll) newMaxScrollY)
      then [SetMaxScroll newMaxScrollX newMaxScrollY] else []).

(** [setCopyPasteText]: the text it stores in the hidden text area, if
    any. *)
Definition setCopyPasteText : option string :=
  let sel := selection s in
  if (r_x1 sel =? -1) || (r_y1 sel =? -1)
     || (r_x2 sel =? -1) || (r_y2 sel =? -1)
  then None
  else
    let '(dy1, dy2) := ordered (r_y1 sel) (r_y2 sel) in
    let '(dx1, dx2) := ordered (r_x1 sel) (r_x2 sel) in
    let textRows :=
      (fun y =>
         join (String tab EmptyString)
           ((fun x => copiedText (editData props x y)) <$> upTo dx1 dx2))
      <$> upTo dy1 dy2 in
    Some (join (String newline EmptyString) textRows).

(** [parsePastedHtml], from the element the pasted markup was parsed
    into. *)
Definition parsePastedHtml (div : Node) : list Action :=
  let '(pasteLocX, pasteLocY) := pasteLoc s in
  if (pasteLocX =? -1) || (pasteLocY =? -1) then []
  else
    match findTable div with
    | None => []
    | Some tableNode =>
        let '(x, y, changes) :=
          foldl (pasteTableChild pasteLocX) (pasteLocX, pasteLocY, [])
            (children tableNode) in
        (if onChange props then [CallOnChange changes] else [])
        ++ changeSelection props s columns rows
             pasteLocX pasteLocY (x - 1) (y - 1) false
    end.

(** [onPaste]: [targetIsTextArea] tells whether the event is aimed at the
    hidden text area, [types] are the clipboard types, [div] and [text]
    what the clipboard holds as markup, parsed, and as plain text. *)
Definition onPaste (targetIsTextArea : bool) (types : list string)
    (div : Node) (text : string) : list Action :=
  if negb targetIsTextArea then []
  else
    [PreventDefault]
    ++ (if existsb (String.eqb "text/html") types then parsePastedHtml div
        else if existsb (String.eqb "text/plain") types
        then parsePastedText props s columns rows text
        else []).

End MoreHandlers.

(** ** The first draft of the sheet *)

Module Draft.

(** [getSize(value)], a closure returning [value]. *)
Definition getSize (value : Z) : unit -> Z := fun _ => value.

Fixpoint whileLoop (fuel : nat) (size : unit -> Z) (visibleArea : Z)
    (idx prev : Z) (w : Window) : option Window :=
  match fuel with
  | O => None
  | S fuel' =>
      let prev' := prev + size tt in
      let w' := push w idx prev prev' in
      if default 0 (last (end_ w')) >=? visibleArea
      then Some w'
      else whileLoop fuel' size visibleArea (idx + 1) prev' w'
  end.

Definition calculateRowsOrColsSizes (fuel : nat) (size : unit -> Z)
    (startingIndex startingSize visibleArea : Z) : option Window :=
  let prev := startingSize + size tt in
  let w0 :=
    {| visible := [startingIndex];
       start := [startingSize];
       end_ := [prev] |} in
  whileLoop fuel size visibleArea (startingIndex + 1) prev w0.

End Draft.

(** ** Vocabulary of the further properties *)

(** The string holds the character. *)
Fixpoint hasChar (c : ascii) (str : string) : bool :=
  match str with
  | EmptyString => false
  | String c' str' => Ascii.eqb c' c || hasChar c str'
  end.

(** A cell text that survives a copy: no tab, no line break. *)
Definition plainCell (str : string) : Prop :=
  hasChar tab str = false /\ hasChar newline str = false
  /\ hasChar carriageReturn str = false.

(** A data cell, a row of data cells, and a table of one body. *)
Definition td (html : string) : Node := mkNode "TD" html [].
Definition tr (cells : list string) : Node := mkNode "TR" "" (td <$> cells).
Definition tableOf (cellRows : list (list string)) : Node :=
  mkNode "TABLE" "" [mkNode "TBODY" "" (tr <$> cellRows)].

(** The separators of the clipboard text, as strings. *)
Definition tabString : string := String tab EmptyString.
Definition newlineString : string := String newline EmptyString.

(** The text of a grid of cells: cells joined by tabs, rows by line
    feeds. *)
Definition gridText (grid : list (list string)) : string :=
  join newlineString (join tabString <$> grid).

(** The change records that write a grid of texts with its first cell at
    [(px, py)], row by row. *)
Definition gridChanges (px py : Z) (grid : list (list string)) : list Change :=
  concat (imap (fun i row =>
                  imap (fun j cell =>
                          mkChange (px + Z.of_nat j) (py + Z.of_nat i)
                            (VString cell)) row) grid).

(** The length of the longest row of a grid. *)
Definition widest (grid : list (list string)) : Z :=
  foldr Z.max 0 ((fun row => Z.of_nat (length row)) <$> grid).

(** Every row of the grid has a cell, and no cell holds a separator. *)
Definition plainGrid (grid : list (list string)) : Prop :=
  Forall (fun row => row <> [] /\ Forall plainCell row) grid.

(** [plainProps] with the edited values [[10^21, "a"], [null, 12]]. *)
Definition ledgerProps : Props :=
  mkProps 0 0 SizeAbsent SizeAbsent CellAbsent CellAbsent
    (CellArray [[VNumber (10 ^ 21); VString "a"]; [VNull; VNumber 12]])
    true true.

(** The targets of one bin of a column of bins, none when it is
    missing. *)
Definition binAt (xbin : gmap Z (list HitTarget)) (ky : Z) : list HitTarget :=
  default [] (xbin !! ky).

(** The targets of the bin [(kx, ky)] of the index. *)
Definition cellAt (hitMap : HitMap) (kx ky : Z) : list HitTarget :=
  default [] (hitMap !! kx ≫= (fun xbin => xbin !! ky)).

(** The bin [(kx, ky)] is one of those the rectangle of [t] reaches. *)
Definition inBins (t : HitTarget) (kx ky : Z) : bool :=
  (ht_x t / xBinSize <=? kx) && (kx <=? (ht_x t + ht_w t) / xBinSize)
  && (ht_y t / yBinSize <=? ky) && (ky <=? (ht_y t + ht_h t) / yBinSize).

(** ** Facts about the viewport window *)

(** Case analysis on a [>=?] test, leaving the order as a hypothesis. *)
Ltac case_geb a b :=
  let H := fresh "Hge" in
  destruct (a >=? b) eqn:H;
  [rewrite Z.geb_leb in H; apply Z.leb_le in H
  |rewrite Z.geb_leb in H; apply Z.leb_gt in H].

Section WindowFacts.

Variable size : Z -> Z.

Lemma Tiled_snoc p vs ss es q v :
  Tiled size p vs ss es q ->
  Tiled size p (vs ++ [v]) (ss ++ [q]) (es ++ [q + size v]) (q + size v).
Proof.
  induction 1 as [p | p v' vs ss es q _ IH]; simpl.
  - repeat constructor.
  - constructor. exact IH.
Qed.

Lemma Tiled_length p vs ss es q :
  Tiled size p vs ss es q ->
  length ss = length vs /\ length es = length vs.
Proof. induction 1; simpl; intuition congruence. Qed.

Lemma Tiled_head p vs ss es q :
  Tiled size p vs ss es q -> vs <> [] -> head ss = Some p.
Proof. destruct 1; [congruence | reflexivity]. Qed.

Lemma Tiled_last p vs ss es q :
  Tiled size p vs ss es q -> vs <> [] -> last es = Some q.
Proof.
  induction 1 as [p | p v vs ss es q H IH]; [congruence |].
  intros _. destruct H as [p' | p' v' vs' ss' es' q' H'].
  - reflexivity.
  - simpl in *. apply IH. discriminate.
Qed.

(** Every entry spans exactly the size of its cell. *)
Lemma Tiled_lookup p vs ss es q i v :
  Tiled size p vs ss es q -> vs !! i = Some v ->
  exists st, ss !! i = Some st /\ es !! i = Some (st + size v).
Proof.
  intros H. revert i. induction H as [p | p v' vs ss es q _ IH]; intros i Hi.
  - rewrite lookup_nil in Hi. discriminate.
  - destruct i as [| i]; simpl in *.
    + injection Hi as ->. eauto.
    + apply IH. exact Hi.
Qed.

(** A pixel between the two ends of a tiling falls in one of its spans. *)
Lemma Tiled_covers p vs ss es q abs :
  Tiled size p vs ss es q -> vs <> [] -> p <= abs <= q ->
  exists i st en,
    ss !! i = Some st /\ es !! i = Some en /\ st <= abs <= en.
Proof.
  induction 1 as [p | p v vs ss es q H IH]; [congruence |].
  intros _ Habs.
  destruct (Z_le_gt_dec abs (p + size v)) as [Hle | Hgt].
  - exists 0%nat, p, (p + size v). simpl. repeat split; lia.
  - destruct vs as [| v' vs'].
    + inversion H; subst. lia.
    + destruct IH as (i & st & en & Hs & He & Hin); [discriminate | lia |].
      exists (S i), st, en. simpl. auto.
Qed.

End WindowFacts.

Section LoopFacts.

Variable size : Z -> Z.
Variable p0 : Z.

Lemma LoopInv_push w prev ind :
  LoopInv size p0 w prev ind ->
  LoopInv size p0 (push w ind prev (prev + size ind)) (prev + size ind) (ind + 1).
Proof.
  intros (Ht & Hne & Hnd & Hlt). unfold LoopInv, push; simpl.
  split; [apply Tiled_snoc; exact Ht |].
  split; [intros Heq; apply app_eq_nil in Heq as [_ Heq]; discriminate |].
  split.
  - apply NoDup_app. split; [exact Hnd |]. split.
    + intros v Hv Hin. apply list_elem_of_singleton in Hin. subst.
      specialize (Hlt _ Hv). lia.
    + apply NoDup_singleton.
  - intros v Hv. apply elem_of_app in Hv as [Hv | Hv].
    + specialize (Hlt _ Hv). lia.
    + apply list_elem_of_singleton in Hv. lia.
Qed.

Lemma LoopInv_skip w prev ind ind' :
  ind <= ind' -> LoopInv size p0 w prev ind -> LoopInv size p0 w prev ind'.
Proof.
  intros Hle (Ht & Hne & Hnd & Hlt). repeat split; auto.
  intros v Hv. specialize (Hlt _ Hv). lia.
Qed.

Lemma frozenLoop_spec n ind prev w :
  LoopInv size p0 w prev ind ->
  let '(w', prev') := frozenLoop n size ind prev w in
  LoopInv size p0 w' prev' (ind + Z.of_nat n)
  /\ visible w' = visible w ++ seqZ ind (Z.of_nat n).
Proof.
  revert ind prev w. induction n as [| n IH]; intros ind prev w Hinv.
  - simpl. rewrite Z.add_0_r, app_nil_r. auto.
  - cbn [frozenLoop].
    specialize (IH (ind + 1) (prev + size ind)
                   (push w ind prev (prev + size ind))
                   (LoopInv_push _ _ _ Hinv)).
    destruct (frozenLoop n size (ind + 1) (prev + size ind)
                (push w ind prev (prev + size ind))) as [w' prev'].
    destruct IH as [IH1 IH2]. split.
    + replace (ind + Z.of_nat (S n)) with (ind + 1 + Z.of_nat n) by lia.
      exact IH1.
    + rewrite IH2. cbn [push visible].
      rewrite Nat2Z.inj_succ, (seqZ_cons ind) by lia.
      rewrite Z.pred_succ, <- app_assoc. reflexivity.
Qed.

(** When the [while] loop ends, it has only appended entries, the arrays
    still tile the axis, and the last end has reached the extent. *)
Lemma whileLoop_spec fuel visibleArea ind prev w w' :
  LoopInv size p0 w prev ind ->
  whileLoop fuel size visibleArea ind prev w = Some w' ->
  exists prev' ind',
    LoopInv size p0 w' prev' ind'
    /\ prev' >= visibleArea
    /\ exists vs, visible w' = visible w ++ vs.
Proof.
  revert ind prev w. induction fuel as [| fuel IH]; intros ind prev w Hinv Hrun.
  - discriminate.
  - cbn [whileLoop] in Hrun.
    assert (Hlast : default 0 (last (end_ (push w ind prev (prev + size ind))))
                    = prev + size ind).
    { unfold push; simpl. rewrite last_snoc. reflexivity. }
    rewrite Hlast in Hrun.
    case_geb (prev + size ind) visibleArea.
    + injection Hrun as <-. exists (prev + size ind), (ind + 1).
      split; [apply LoopInv_push; exact Hinv |].
      split; [lia |]. exists [ind]. reflexivity.
    + apply IH in Hrun; [| apply LoopInv_push; exact Hinv].
      destruct Hrun as (prev' & ind' & Hinv' & Hge' & vs & Hvs).
      exists prev', ind'. repeat split; try apply Hinv'; auto.
      exists (ind :: vs). rewrite Hvs. unfold push; simpl.
      rewrite <- app_assoc. reflexivity.
Qed.

(** With sizes of at least one pixel the [while] loop reaches its
    [break] within as many iterations as pixels remain. *)
Lemma whileLoop_terminates fuel visibleArea ind prev w :
  (forall i, 0 < size i) ->
  (1 <= fuel)%nat -> visibleArea - prev <= Z.of_nat fuel ->
  exists w', whileLoop fuel size visibleArea ind prev w = Some w'.
Proof.
  intros Hpos. revert ind prev w.
  induction fuel as [| fuel IH]; intros ind prev w Hone Hfuel; [lia |].
  cbn [whileLoop].
  assert (Hlast : default 0 (last (end_ (push w ind prev (prev + size ind))))
                  = prev + size ind).
  { unfold push; simpl. rewrite last_snoc. reflexivity. }
  rewrite Hlast. specialize (Hpos ind) as Hsz.
  case_geb (prev + size ind) visibleArea; [eauto |].
  apply IH; lia.
Qed.

(** With every size zero the loop never reaches an extent that is still
    ahead of it. *)
Lemma whileLoop_stuck fuel visibleArea ind prev w :
  (forall i, size i = 0) -> prev < visibleArea ->
  whileLoop fuel size visibleArea ind prev w = None.
Proof.
  intros Hzero. revert ind prev w.
  induction fuel as [| fuel IH]; intros ind prev w Hlt; [reflexivity |].
  cbn [whileLoop].
  assert (Hlast : default 0 (last (end_ (push w ind prev (prev + size ind))))
                  = prev + size ind).
  { unfold push; simpl. rewrite last_snoc. reflexivity. }
  rewrite Hlast, Hzero.
  case_geb (prev + 0) visibleArea; [lia |].
  apply IH. lia.
Qed.

(** More iterations than the loop needs change nothing. *)
Lemma whileLoop_fuel_mono fuel fuel' visibleArea ind prev w w' :
  whileLoop fuel size visibleArea ind prev w = Some w' ->
  (fuel <= fuel')%nat ->
  whileLoop fuel' size visibleArea ind prev w = Some w'.
Proof.
  revert fuel' ind prev w.
  induction fuel as [| fuel IH]; intros fuel' ind prev w Hrun Hle;
    [discriminate |].
  destruct fuel' as [| fuel']; [lia |].
  cbn [whileLoop] in *.
  destruct (default 0 (last (end_ (push w ind prev (prev + size ind))))
            >=? visibleArea); [exact Hrun |].
  apply IH; [exact Hrun | lia].
Qed.

End LoopFacts.

(** The window [calculateRowsOrColsSizes] returns, whenever it returns one:
    it tiles the axis from [startingSize] to a pixel at or past the extent,
    lists no index twice, and begins with the whole frozen block. *)
Lemma calculateRowsOrColsSizes_spec fuel freezeCount size
    startingSize startingIndex visibleArea w :
  calculateRowsOrColsSizes fuel freezeCount size
    startingSize startingIndex visibleArea = Some w ->
  exists q,
    Tiled size startingSize (visible w) (start w) (end_ w) q
    /\ visible w <> []
    /\ NoDup (visible w)
    /\ q >= visibleArea
    /\ (0 < freezeCount -> exists vs, visible w = seqZ 0 freezeCount ++ vs).
Proof.
  unfold calculateRowsOrColsSizes. intros Hrun.
  destruct (0 <? freezeCount) eqn:Hf.
  - apply Z.ltb_lt in Hf.
    set (w0 := {| visible := [0]; start := [startingSize];
                  end_ := [startingSize + size 0] |}) in *.
    assert (Hinv0 : LoopInv size startingSize w0 (startingSize + size 0) 1).
    { repeat split; simpl.
      - repeat constructor.
      - discriminate.
      - apply NoDup_singleton.
      - intros v Hv. apply list_elem_of_singleton in Hv. lia. }
    pose proof (frozenLoop_spec size startingSize
                  (Z.to_nat (freezeCount - 1)) 1 _ w0 Hinv0) as Hfrozen.
    destruct (frozenLoop (Z.to_nat (freezeCount - 1)) size 1
                (startingSize + size 0) w0) as [w1 prev1].
    destruct Hfrozen as [Hinv1 Hvis1].
    rewrite Z2Nat.id in Hinv1, Hvis1 by lia.
    apply (LoopInv_skip _ _ _ _ _ (Z.max startingIndex freezeCount)) in Hinv1;
      [| lia].
    destruct (whileLoop_spec _ _ _ _ _ _ _ _ Hinv1 Hrun)
      as (q & ind' & (Ht & Hne & Hnd & _) & Hq & vs & Hvs).
    exists q. repeat split; auto.
    intros _. exists vs. rewrite Hvs, Hvis1. simpl.
    rewrite (seqZ_cons 0) by lia. simpl.
    replace (Z.pred freezeCount) with (freezeCount - 1) by lia. reflexivity.
  - apply Z.ltb_ge in Hf.
    set (w0 := {| visible := [startingIndex]; start := [startingSize];
                  end_ := [startingSize + size startingIndex] |}) in *.
    assert (Hinv0 : LoopInv size startingSize w0
                      (startingSize + size startingIndex) (startingIndex + 1)).
    { repeat split; simpl.
      - repeat constructor.
      - discriminate.
      - apply NoDup_singleton.
      - intros v Hv. apply list_elem_of_singleton in Hv. lia. }
    destruct (whileLoop_spec _ _ _ _ _ _ _ _ Hinv0 Hrun)
      as (q & ind' & (Ht & Hne & Hnd & _) & Hq & vs & Hvs).
    exists q. repeat split; auto. lia.
Qed.

(** With sizes of at least one pixel, some number of iterations is enough
    for [calculateRowsOrColsSizes] to return. *)
Lemma calculateRowsOrColsSizes_terminates freezeCount size
    startingSize startingIndex visibleArea :
  (forall i, 0 < size i) ->
  exists fuel w,
    calculateRowsOrColsSizes fuel freezeCount size
      startingSize startingIndex visibleArea = Some w.
Proof.
  intros Hpos. unfold calculateRowsOrColsSizes.
  destruct (0 <? freezeCount).
  - destruct (frozenLoop (Z.to_nat (freezeCount - 1)) size 1
                (startingSize + size 0) _) as [w1 prev1].
    exists (Z.to_nat (Z.max 1 (visibleArea - prev1))).
    apply whileLoop_terminates; [exact Hpos | lia | lia].
  - exists (Z.to_nat (Z.max 1 (visibleArea - (startingSize + size startingIndex)))).
    apply whileLoop_terminates; [exact Hpos | lia | lia].
Qed.

Lemma calculateRowsOrColsSizes_fuel_mono fuel fuel' freezeCount size
    startingSize startingIndex visibleArea w :
  calculateRowsOrColsSizes fuel freezeCount size
    startingSize startingIndex visibleArea = Some w ->
  (fuel <= fuel')%nat ->
  calculateRowsOrColsSizes fuel' freezeCount size
    startingSize startingIndex visibleArea = Some w.
Proof.
  unfold calculateRowsOrColsSizes. intros Hrun Hle.
  destruct (0 <? freezeCount).
  - destruct (frozenLoop _ size 1 _ _) as [w1 prev1].
    eapply whileLoop_fuel_mono; eauto.
  - eapply whileLoop_fuel_mono; eauto.
Qed.

(** C7. For a frozen count [f > 0], whatever the scroll offset and the
    visible extent, every index [0 .. f-1] is listed in the window
    [calculateRowsOrColsSizes] returns; and it does return one, given
    enough iterations, when every size is positive. *)
Theorem frozen_block_in_window freezeCount size
    startingSize startingIndex visibleArea :
  0 < freezeCount ->
  (forall fuel w,
     calculateRowsOrColsSizes fuel freezeCount size
       startingSize startingIndex visibleArea = Some w ->
     forall i, 0 <= i < freezeCount -> i ∈ visible w)
  /\ ((forall i, 0 < size i) ->
      exists fuel w,
        calculateRowsOrColsSizes fuel freezeCount size
          startingSize startingIndex visibleArea = Some w).
Proof.
  intros Hf. split.
  - intros fuel w Hrun i Hi.
    apply calculateRowsOrColsSizes_spec in Hrun
      as (q & _ & _ & _ & _ & Hfrozen).
    destruct (Hfrozen Hf) as [vs ->].
    apply elem_of_app. left. apply elem_of_seqZ. lia.
  - apply calculateRowsOrColsSizes_terminates.
Qed.

Lemma frozen_block_in_window_witness :
  0 < 2 /\
  forall i, 0 <= i < 2 ->
    i ∈ visible (mkWindow [0; 1; 7; 8] [50; 150; 250; 350] [150; 250; 350; 450]).
Proof.
  split; [reflexivity |].
  apply (proj1 (frozen_block_in_window 2 (fun _ => 100) 50 7 400 eq_refl)
           10%nat).
  reflexivity.
Defined.

(** *** Reaching the extent *)

Section Reach.

Variable size : Z -> Z.

Lemma windowWithin_push w ilo ihi plo phi v st en :
  windowWithin w ilo ihi plo phi ->
  ilo <= v <= ihi -> plo <= st <= phi -> plo <= en <= phi ->
  windowWithin (push w v st en) ilo ihi plo phi.
Proof.
  intros (Hv & Hs & He) Hv' Hs' He'. unfold windowWithin, push; cbn.
  repeat split; apply Forall_app; split; auto; apply Forall_singleton; lia.
Qed.

(** The frozen loop leaves [prev] at the position past its cells; what it
    appends are the positions on the way there. *)
Lemma frozenLoop_within n ind prev w ilo ihi plo phi :
  windowWithin w ilo ihi plo phi ->
  ilo <= ind -> ind + Z.of_nat n <= ihi + 1 ->
  (forall k, (k <= n)%nat -> plo <= positionAfter size prev ind k <= phi) ->
  let '(w', prev') := frozenLoop n size ind prev w in
  windowWithin w' ilo ihi plo phi /\ prev' = positionAfter size prev ind n.
Proof.
  revert ind prev w. induction n as [| n IH]; intros ind prev w Hw Hi Hn Hq.
  - cbn. auto.
  - cbn [frozenLoop positionAfter].
    pose proof (Hq 0%nat ltac:(lia)) as H0.
    pose proof (Hq 1%nat ltac:(lia)) as H1.
    cbn [positionAfter] in H0, H1.
    apply IH; try lia.
    + apply windowWithin_push; auto; lia.
    + intros k Hk. apply (Hq (S k)). lia.
Qed.

(** When [n] more cells bring the position to the extent, the [while]
    loop reaches its [break] within [n] iterations; what it appends are
    positions on the way there. *)
Lemma whileLoop_within n visibleArea ind prev w ilo ihi plo phi :
  windowWithin w ilo ihi plo phi ->
  (1 <= n)%nat ->
  ilo <= ind -> ind + Z.of_nat n <= ihi + 1 ->
  visibleArea <= positionAfter size prev ind n ->
  (forall k, (k <= n)%nat -> plo <= positionAfter size prev ind k <= phi) ->
  exists w' e,
    whileLoop n size visibleArea ind prev w = Some w'
    /\ windowWithin w' ilo ihi plo phi
    /\ last (end_ w') = Some e /\ e >= visibleArea.
Proof.
  revert ind prev w.
  induction n as [| n IH]; intros ind prev w Hw Hone Hi Hn Hreach Hq; [lia |].
  cbn [whileLoop].
  assert (Hlast : last (end_ (push w ind prev (prev + size ind)))
                  = Some (prev + size ind)).
  { unfold push; cbn. apply last_snoc. }
  assert (Hd : default 0 (last (end_ (push w ind prev (prev + size ind))))
               = prev + size ind) by (rewrite Hlast; reflexivity).
  rewrite Hd.
  pose proof (Hq 0%nat ltac:(lia)) as H0.
  pose proof (Hq 1%nat ltac:(lia)) as H1.
  cbn [positionAfter] in H0, H1, Hreach.
  assert (Hw' : windowWithin (push w ind prev (prev + size ind))
                  ilo ihi plo phi)
    by (apply windowWithin_push; auto; lia).
  case_geb (prev + size ind) visibleArea.
  - exists (push w ind prev (prev + size ind)), (prev + size ind).
    split; [reflexivity |]. split; [exact Hw' |].
    split; [exact Hlast | lia].
  - destruct n as [| n]; [cbn [positionAfter] in Hreach; lia |].
    apply IH; auto; try lia.
    intros k Hk. apply (Hq (S k)). lia.
Qed.

End Reach.

(** Cells of at least one pixel advance the position by at least one
    pixel each, so they bring it to any extent. *)
Lemma positionAfter_advances size prev ind n :
  (forall i, 1 <= size i) ->
  prev + Z.of_nat n <= positionAfter size prev ind n.
Proof.
  intros Hsize. revert prev ind.
  induction n as [| n IH]; intros prev ind; cbn [positionAfter]; [lia |].
  specialize (IH (prev + size ind) (ind + 1)). specialize (Hsize ind). lia.
Qed.

(** C8, as amended. For every size accessor that gives whole numbers of
    pixels, every frozen count, starting offset, starting index and
    visible extent: when, counted from the cell the [while] loop starts
    with, [n >= 1] cells bring the position to the visible extent (as
    cells of at least one pixel always do), and the indices and positions
    the function forms up to there are within [2^53], then
    [calculateRowsOrColsSizes] reaches its [break] within [n] iterations
    of the loop, whatever larger bound is put on them the window
    returned is the same, the last entry of its [end] array is at or past
    the visible extent, and every index and pixel offset of the window is
    within [2^53], so that no sum in it was rounded. *)
Theorem window_reaches_extent freezeCount size
    startingSize startingIndex visibleArea (n : nat) :
  (1 <= n)%nat ->
  visibleArea
  <= positionAfter size
       (entryPosition freezeCount size startingSize startingIndex)
       (entryIndex freezeCount startingIndex) n ->
  - maxExact <= startingIndex ->
  entryIndex freezeCount startingIndex + Z.of_nat n <= maxExact ->
  (forall k, (k <= Z.to_nat freezeCount)%nat ->
     withinExact (positionAfter size startingSize 0 k)) ->
  (forall k, (k <= n)%nat ->
     withinExact
       (positionAfter size
          (entryPosition freezeCount size startingSize startingIndex)
          (entryIndex freezeCount startingIndex) k)) ->
  exists w e,
    (forall fuel, (n <= fuel)%nat ->
       calculateRowsOrColsSizes fuel freezeCount size
         startingSize startingIndex visibleArea = Some w)
    /\ last (end_ w) = Some e
    /\ e >= visibleArea
    /\ Forall withinExact (visible w)
    /\ Forall withinExact (start w)
    /\ Forall withinExact (end_ w).
Proof.
  intros Hn Hreach Hindex Hind Hfrozen Hloop.
  unfold entryPosition, entryIndex in *.
  assert (Hrun : exists w e,
            calculateRowsOrColsSizes n freezeCount size
              startingSize startingIndex visibleArea = Some w
            /\ windowWithin w (- maxExact) maxExact (- maxExact) maxExact
            /\ last (end_ w) = Some e /\ e >= visibleArea).
  { unfold calculateRowsOrColsSizes.
    destruct (0 <? freezeCount) eqn:Hf.
    - apply Z.ltb_lt in Hf.
      set (w0 := {| visible := [0]; start := [startingSize];
                    end_ := [startingSize + size 0] |}).
      assert (Hsucc : Z.to_nat freezeCount = S (Z.to_nat (freezeCount - 1)))
        by lia.
      pose proof (Hfrozen 0%nat ltac:(lia)) as H0.
      pose proof (Hfrozen 1%nat ltac:(lia)) as H1.
      cbn [positionAfter] in H0, H1. unfold withinExact in H0, H1.
      assert (Hw0 : windowWithin w0 (- maxExact) maxExact (- maxExact) maxExact).
      { unfold windowWithin, w0; cbn.
        repeat split; apply Forall_singleton; unfold maxExact in *; lia. }
      pose proof (frozenLoop_within size (Z.to_nat (freezeCount - 1)) 1
                    (startingSize + size 0) w0
                    (- maxExact) maxExact (- maxExact) maxExact Hw0) as Hfl.
      destruct (frozenLoop (Z.to_nat (freezeCount - 1)) size 1
                  (startingSize + size 0) w0) as [w1 prev1].
      destruct Hfl as [Hw1 Hprev1]; try (unfold maxExact in *; lia).
      { intros k Hk. apply (Hfrozen (S k)). lia. }
      assert (Hprev : prev1
                      = positionAfter size startingSize 0 (Z.to_nat freezeCount))
        by (rewrite Hprev1, Hsucc; reflexivity).
      rewrite Hprev.
      apply whileLoop_within; auto; try lia.
    - apply Z.ltb_ge in Hf.
      pose proof (Hfrozen 0%nat ltac:(lia)) as H0.
      pose proof (Hloop 0%nat ltac:(lia)) as H1.
      cbn [positionAfter] in H0, H1. unfold withinExact in H0, H1.
      apply whileLoop_within; auto; try lia.
      unfold windowWithin; cbn.
      repeat split; apply Forall_singleton; unfold maxExact in *; lia. }
  destruct Hrun as (w & e & Hrun & (Hv & Hs & He) & Hlast & Hge).
  exists w, e. split; [| split; [exact Hlast | split; [exact Hge |]]].
  - intros fuel Hfuel.
    eapply calculateRowsOrColsSizes_fuel_mono; eauto.
  - repeat split; assumption.
Qed.

Lemma window_reaches_extent_witness :
  exists w e,
    (forall fuel, (4 <= fuel)%nat ->
       calculateRowsOrColsSizes fuel 0 sparseSizes 50 0 300 = Some w)
    /\ last (end_ w) = Some e
    /\ e >= 300
    /\ Forall withinExact (visible w)
    /\ Forall withinExact (start w)
    /\ Forall withinExact (end_ w).
Proof.
  apply (window_reaches_extent 0 sparseSizes 50 0 300 4).
  - lia.
  - vm_compute. discriminate.
  - vm_compute. discriminate.
  - vm_compute. discriminate.
  - intros k Hk. assert (k = 0%nat) as -> by (cbn in Hk; lia).
    split; vm_compute; discriminate.
  - intros k Hk.
    do 5 (destruct k as [| k]; [split; vm_compute; discriminate |]). lia.
Defined.

(** C8 as stated fails: with [cellWidth = 0], a legal numeric prop, the
    [while (true)] loop of [calculateRowsOrColsSizes] never reaches an
    extent of 3000 pixels, however many iterations it is given. *)
Lemma window_never_returned_for_zero_sizes :
  ~ exists fuel w,
      calculateRowsOrColsSizes fuel 0
        (createRowOrColumnPropFunction (SizeNumber 0) 100) 50 0 3000 = Some w.
Proof.
  intros (fuel & w & Hrun). unfold calculateRowsOrColsSizes in Hrun.
  simpl in Hrun. rewrite whileLoop_stuck in Hrun; [discriminate | | lia].
  intros i. reflexivity.
Qed.

(** ** Facts about the two conversions *)

Lemma scanSpans_none n w i abs cell :
  outsideSpans w abs -> scanSpans n w i abs cell = cell.
Proof.
  intros Hout. revert i. induction n as [| n IH]; intros i; simpl.
  - reflexivity.
  - rewrite Hout. apply IH.
Qed.

(** When some span at or after [i] holds the pixel, the scan stops at the
    first one that does and returns its index. *)
Lemma scanSpans_found n w i abs cell j :
  (i <= j < i + n)%nat -> inSpan w j abs = true ->
  exists k, (i <= k <= j)%nat /\ inSpan w k abs = true
            /\ scanSpans n w i abs cell = default 0 (visible w !! k).
Proof.
  revert i. induction n as [| n IH]; intros i Hj Hin; [lia |].
  simpl. destruct (inSpan w i abs) eqn:Hi.
  - exists i. repeat split; auto; lia.
  - assert (i <> j) by congruence.
    destruct (IH (S i)) as (k & Hk & Hink & Hscan); [lia | exact Hin |].
    exists k. repeat split; auto; lia.
Qed.

Lemma findIndex_NoDup (arr : list Z) i v :
  NoDup arr -> arr !! i = Some v -> findIndex arr v = Some i.
Proof.
  intros Hnd Hi. unfold findIndex.
  assert (Hfind : list_find (fun x => x = v) arr = Some (i, v)).
  { apply list_find_Some. repeat split; auto.
    intros j y Hj Hlt ->.
    pose proof (NoDup_lookup _ _ _ _ Hnd Hi Hj). lia. }
  rewrite Hfind. reflexivity.
Qed.

(** One axis of the round trip: a pixel inside a tiling is converted to a
    cell whose cached start and size enclose it. *)
Lemma axis_round_trip size p q (w : Window) abs :
  Tiled size p (visible w) (start w) (end_ w) q ->
  visible w <> [] -> NoDup (visible w) -> p <= abs <= q ->
  let v := scanSpans (length (visible w)) w 0 abs 0 in
  exists i st,
    findIndex (visible w) v = Some i /\ start w !! i = Some st
    /\ st <= abs <= st + size v.
Proof.
  intros Ht Hne Hnd Habs v.
  destruct (Tiled_covers _ _ _ _ _ _ abs Ht Hne Habs)
    as (j & st & en & Hs & He & Hin).
  destruct (Tiled_length _ _ _ _ _ _ Ht) as [Hls Hle].
  assert (Hj : (j < length (visible w))%nat).
  { rewrite <- Hls. eapply lookup_lt_Some; eauto. }
  assert (Hspan : inSpan w j abs = true).
  { unfold inSpan. rewrite Hs, He. rewrite Z.geb_leb.
    apply andb_true_intro. split; apply Z.leb_le; lia. }
  destruct (scanSpans_found (length (visible w)) w 0 abs 0 j)
    as (k & Hk & Hink & Hscan); [lia | exact Hspan |].
  destruct (lookup_lt_is_Some_2 (visible w) k) as [vk Hvk]; [lia |].
  destruct (Tiled_lookup _ _ _ _ _ _ _ _ Ht Hvk) as (stk & Hsk & Hek).
  assert (Hv : v = vk) by (unfold v; rewrite Hscan, Hvk; reflexivity).
  exists k, stk. rewrite Hv. split; [apply findIndex_NoDup; auto |].
  split; [exact Hsk |].
  unfold inSpan in Hink. rewrite Hsk, Hek in Hink.
  apply andb_prop in Hink as [H1 H2].
  rewrite Z.geb_leb in H1. apply Z.leb_le in H1. apply Z.leb_le in H2. lia.
Qed.

(** C3, as amended. For the windows a render computes, every pixel point
    inside the content they lay out (between the start of the first entry
    and the end of the last, on each axis) is converted by
    [absCoordianteToCell] to a cell whose rectangle, the point
    [cellToAbsCoordinate] returns extended by that cell's width and
    height, contains the point when its far edges are counted in: the
    point may lie on the right or the bottom edge, where the next cell
    starts. *)
Theorem pixel_cell_round_trip fuel props s canvasWidth canvasHeight
    columns rows absX absY :
  renderWindows fuel props s canvasWidth canvasHeight = Some (columns, rows) ->
  inExtent columns absX -> inExtent rows absY ->
  let cell := absCoordianteToCell columns rows absX absY in
  let origin := cellToAbsCoordinate props s columns rows (c_x cell) (c_y cell) in
  c_x origin <= absX <= c_x origin + cellWidth props (c_x cell)
  /\ c_y origin <= absY <= c_y origin + cellHeight props (c_y cell).
Proof.
  unfold renderWindows. intros Hrender HinX HinY.
  destruct (calculateRowsOrColsSizes fuel (freezeColumns props) _ _ _ _)
    as [columns' |] eqn:Hcols; [| discriminate].
  destruct (calculateRowsOrColsSizes fuel (freezeRows props) _ _ _ _)
    as [rows' |] eqn:Hrows; [| discriminate].
  simpl in Hrender. injection Hrender as -> ->.
  apply calculateRowsOrColsSizes_spec in Hcols
    as (qx & Htx & Hnex & Hndx & _ & _).
  apply calculateRowsOrColsSizes_spec in Hrows
    as (qy & Hty & Hney & Hndy & _ & _).
  destruct HinX as (ax & bx & Hax & Hbx & HabsX).
  destruct HinY as (ay & b_y & Hay & Hby & HabsY).
  rewrite (Tiled_head _ _ _ _ _ _ Htx Hnex) in Hax.
  rewrite (Tiled_last _ _ _ _ _ _ Htx Hnex) in Hbx.
  rewrite (Tiled_head _ _ _ _ _ _ Hty Hney) in Hay.
  rewrite (Tiled_last _ _ _ _ _ _ Hty Hney) in Hby.
  injection Hax as <-. injection Hbx as <-.
  injection Hay as <-. injection Hby as <-.
  destruct (axis_round_trip _ _ _ _ absX Htx Hnex Hndx HabsX)
    as (i & stx & Hfx & Hsx & Hboundx).
  destruct (axis_round_trip _ _ _ _ absY Hty Hney Hndy HabsY)
    as (j & sty & Hfy & Hsy & Hboundy).
  unfold cellToAbsCoordinate, absCoordianteToCell. simpl.
  rewrite Hfx, Hfy, Hsx, Hsy. simpl. split; assumption.
Qed.

Lemma pixel_cell_round_trip_witness :
  c_x (cellToAbsCoordinate plainProps initialState sampleColumns sampleRows
         (c_x (absCoordianteToCell sampleColumns sampleRows 150 60))
         (c_y (absCoordianteToCell sampleColumns sampleRows 150 60)))
  <= 150
  <= c_x (cellToAbsCoordinate plainProps initialState sampleColumns sampleRows
            (c_x (absCoordianteToCell sampleColumns sampleRows 150 60))
            (c_y (absCoordianteToCell sampleColumns sampleRows 150 60)))
     + cellWidth plainProps
         (c_x (absCoordianteToCell sampleColumns sampleRows 150 60))
  /\ c_y (cellToAbsCoordinate plainProps initialState sampleColumns sampleRows
            (c_x (absCoordianteToCell sampleColumns sampleRows 150 60))
            (c_y (absCoordianteToCell sampleColumns sampleRows 150 60)))
     <= 60
     <= c_y (cellToAbsCoordinate plainProps initialState sampleColumns
               sampleRows
               (c_x (absCoordianteToCell sampleColumns sampleRows 150 60))
               (c_y (absCoordianteToCell sampleColumns sampleRows 150 60)))
        + cellHeight plainProps
            (c_y (absCoordianteToCell sampleColumns sampleRows 150 60)).
Proof.
  apply (pixel_cell_round_trip 5 plainProps initialState 300 70
           sampleColumns sampleRows 150 60).
  - reflexivity.
  - exists 50, 350. repeat split; discriminate.
  - exists 22, 88. repeat split; discriminate.
Defined.

(** C3 as stated fails for the spans [[start, end)] of the
    specification: on an unscrolled sheet of default sizes the pixel
    [(150, 60)], where column 0 ends and column 1 starts, is converted to
    column 0, whose rectangle starts at 50 and is 100 wide: the pixel is on
    its far edge, not before it. *)
Lemma boundary_pixel_not_in_half_open_rectangle :
  renderWindows 5 plainProps initialState 300 70
  = Some (sampleColumns, sampleRows)
  /\ inExtent sampleColumns 150 /\ inExtent sampleRows 60
  /\ ~ (c_x (cellToAbsCoordinate plainProps initialState
               sampleColumns sampleRows
               (c_x (absCoordianteToCell sampleColumns sampleRows 150 60))
               (c_y (absCoordianteToCell sampleColumns sampleRows 150 60)))
        <= 150
        < c_x (cellToAbsCoordinate plainProps initialState
                 sampleColumns sampleRows
                 (c_x (absCoordianteToCell sampleColumns sampleRows 150 60))
                 (c_y (absCoordianteToCell sampleColumns sampleRows 150 60)))
          + cellWidth plainProps
              (c_x (absCoordianteToCell sampleColumns sampleRows 150 60))).
Proof.
  split; [reflexivity |].
  split; [exists 50, 350; repeat split; discriminate |].
  split; [exists 22, 88; repeat split; discriminate |].
  vm_compute. intros [_ H]. discriminate H.
Qed.

(** C1, as amended. For a pixel outside every visible column span
    [absCoordianteToCell] returns column 0, and for a pixel outside every
    visible row span it returns row 0: the result is an ordinary cell
    record, the one of index 0 on that axis, not a value set apart from
    the real cells. *)
Theorem outside_point_maps_to_index_zero columns rows absX absY :
  (outsideSpans columns absX ->
   c_x (absCoordianteToCell columns rows absX absY) = 0)
  /\ (outsideSpans rows absY ->
      c_y (absCoordianteToCell columns rows absX absY) = 0).
Proof.
  unfold absCoordianteToCell; simpl.
  split; intros Hout; apply scanSpans_none; exact Hout.
Qed.

Lemma inSpan_outside (w : Window) abs :
  forallb (fun i => negb (inSpan w i abs)) (seq 0 (length (start w))) = true ->
  outsideSpans w abs.
Proof.
  intros Hall i. destruct (decide (i < length (start w))%nat) as [Hlt | Hge].
  - rewrite forallb_forall in Hall.
    specialize (Hall i). rewrite negb_true_iff in Hall.
    apply Hall. apply in_seq. lia.
  - unfold inSpan. rewrite (lookup_ge_None_2 (start w) i) by lia. reflexivity.
Qed.

Lemma outside_point_maps_to_index_zero_witness :
  outsideSpans sampleColumns 10 /\ outsideSpans sampleRows 5
  /\ c_x (absCoordianteToCell sampleColumns sampleRows 10 5) = 0
  /\ c_y (absCoordianteToCell sampleColumns sampleRows 10 5) = 0.
Proof.
  assert (Hox : outsideSpans sampleColumns 10)
    by (apply inSpan_outside; reflexivity).
  assert (Hoy : outsideSpans sampleRows 5)
    by (apply inSpan_outside; reflexivity).
  destruct (outside_point_maps_to_index_zero sampleColumns sampleRows 10 5)
    as [Hx Hy].
  repeat split; auto.
Defined.

(** C1 as stated fails: in the window of an unscrolled sheet, a pixel in
    the header band, outside every span on both axes, is converted to the
    very cell (0, 0) a pixel inside the first cell is converted to, so no
    result of the conversion tells "no cell" from a real cell. *)
Lemma outside_point_is_not_told_apart :
  renderWindows 5 plainProps initialState 300 70
  = Some (sampleColumns, sampleRows)
  /\ outsideSpans sampleColumns 10 /\ outsideSpans sampleRows 5
  /\ inSpan sampleColumns 0 60 = true /\ inSpan sampleRows 0 30 = true
  /\ absCoordianteToCell sampleColumns sampleRows 10 5
     = absCoordianteToCell sampleColumns sampleRows 60 30.
Proof.
  split; [reflexivity |].
  split; [apply inSpan_outside; reflexivity |].
  split; [apply inSpan_outside; reflexivity |].
  repeat split.
Qed.

(** ** Facts about [changeSelection] *)

(** A scroll position in whole steps of [scrollSpeed] is never the [-1]
    the source keeps for "no request". *)
Lemma scroll_position_not_sentinel n : (n * scrollSpeed =? -1) = false.
Proof. apply Z.eqb_neq. unfold scrollSpeed. lia. Qed.

(** C9. Whatever rectangle [changeSelection] is given, inverted or not on
    either axis, when the host supplied [onSelectionChanged] it is called
    exactly once, with a rectangle whose first corner is componentwise at
    most its second and which denotes the same cells as the one given. *)
Theorem selection_emitted_normalized props s columns rows
    x1 y1 x2 y2 scrollToP2 :
  onSelectionChanged props = true ->
  exists r,
    onSelectionChangedCalls
      (changeSelection props s columns rows x1 y1 x2 y2 scrollToP2) = [r]
    /\ r_x1 r <= r_x2 r /\ r_y1 r <= r_y2 r
    /\ (forall x y, covers r x y <-> covers (mkRect x1 y1 x2 y2) x y).
Proof.
  intros Hcb.
  exists (mkRect (Z.min x1 x2) (Z.min y1 y2) (Z.max x1 x2) (Z.max y1 y2)).
  split.
  - unfold changeSelection, onSelectionChangedCalls. rewrite Hcb.
    assert (Horder :
      [mkRect (if x1 >? x2 then x2 else x1) (if y1 >? y2 then y2 else y1)
              (if x1 >? x2 then x1 else x2) (if y1 >? y2 then y1 else y2)]
      = [mkRect (Z.min x1 x2) (Z.min y1 y2) (Z.max x1 x2) (Z.max y1 y2)]).
    { destruct (Z.gtb_spec x1 x2), (Z.gtb_spec y1 y2); repeat f_equal; lia. }
    destruct scrollToP2; [destruct (_ || _) |]; simpl; exact Horder.
  - unfold covers; simpl. repeat split; try lia.
Qed.

Lemma selection_emitted_normalized_witness :
  exists r,
    onSelectionChangedCalls
      (changeSelection plainProps initialState sampleColumns sampleRows
         2 1 0 0 false) = [r]
    /\ r_x1 r <= r_x2 r /\ r_y1 r <= r_y2 r
    /\ (forall x y, covers r x y <-> covers (mkRect 2 1 0 0) x y).
Proof.
  exact (selection_emitted_normalized plainProps initialState
           sampleColumns sampleRows 2 1 0 0 false eq_refl).
Defined.

(** C4, as amended. When [changeSelection] scrolls towards a second corner
    that is not fully visible on an axis, the offset of that axis in the
    next render is [max(current offset, frozen count)] plus or minus one,
    in the direction of the corner; whenever the offset so computed
    differs from the current one, the host scroll position of the axis is
    requested to be that offset times [scrollSpeed]; and when the frozen
    count does not exceed the current offset the step is exactly one cell
    from the current offset. *)
Theorem scroll_follows_selection props s columns rows x1 y1 x2 y2 axis :
  notFullyVisible (axisVisible axis columns rows)
    (axisOf axis (mkCell x2 y2)) = true ->
  let acts := changeSelection props s columns rows x1 y1 x2 y2 true in
  let step := increment (axisVisible axis columns rows)
                (axisOf axis (mkCell x2 y2)) in
  let newOffset :=
    Z.max (axisOf axis (dataOffset s)) (axisFreeze axis props) + step in
  (step = 1 \/ step = -1)
  /\ axisOf axis (dataOffset (nextState s acts)) = newOffset
  /\ (dataOffset (nextState s acts) <> dataOffset s ->
      axisScrollRequests axis acts = [newOffset * scrollSpeed])
  /\ (axisFreeze axis props <= axisOf axis (dataOffset s) ->
      newOffset = axisOf axis (dataOffset s) + step).
Proof.
  intros Hnv acts step newOffset.
  split; [unfold step, increment; destruct (lastLe _ _); auto |].
  assert (Hlast : axisFreeze axis props <= axisOf axis (dataOffset s) ->
                  newOffset = axisOf axis (dataOffset s) + step)
    by (unfold newOffset; lia).
  destruct s as [[ox oy] sel k ec ev akc sh kd sp cr rr rsp csp bc].
  unfold acts, changeSelection, scrolledOffset.
  unfold notFullyVisible in Hnv.
  unfold newOffset, step, increment in *. clear acts step newOffset.
  pose proof scroll_position_not_sentinel as Hsent.
  destruct axis; simpl in *; rewrite Hnv; simpl.
  - destruct (negb (includes (visible rows) y2) || lastIs (visible rows) y2);
      simpl;
      repeat match goal with
             | |- context [?a =? ?b] =>
                 lazymatch b with
                 | -1 => rewrite Hsent
                 | _ => destruct (Z.eqb_spec a b)
                 end; simpl
             end;
      destruct (onSelectionChanged props); simpl;
      repeat split; try rewrite Hsent; auto; try congruence;
      intros; try congruence; lia.
  - destruct (negb (includes (visible columns) x2)
              || lastIs (visible columns) x2);
      simpl;
      repeat match goal with
             | |- context [?a =? ?b] =>
                 lazymatch b with
                 | -1 => rewrite Hsent
                 | _ => destruct (Z.eqb_spec a b)
                 end; simpl
             end;
      destruct (onSelectionChanged props); simpl;
      repeat split; try rewrite Hsent; auto; try congruence;
      intros; try congruence; lia.
Qed.

Lemma scroll_follows_selection_witness :
  notFullyVisible (visible sampleColumns) 2 = true
  /\ c_x (dataOffset (nextState initialState
            (changeSelection plainProps initialState sampleColumns sampleRows
               2 0 2 0 true))) = 1
  /\ scrollLeftRequests
       (changeSelection plainProps initialState sampleColumns sampleRows
          2 0 2 0 true) = [30].
Proof.
  split; [reflexivity |].
  destruct (scroll_follows_selection plainProps initialState
              sampleColumns sampleRows 2 0 2 0 AxisX eq_refl)
    as (_ & Hoffset & Hrequest & _).
  split; [exact Hoffset |].
  apply Hrequest. discriminate.
Defined.

(** C4 as stated fails: with three frozen columns and the sheet not yet
    scrolled, moving the selection to the last listed column, which the
    engine takes as not fully visible, sets the column offset to 4; the
    current offset is 0, so the step is four cells, not one. *)
Lemma scroll_step_exceeds_one_cell_when_frozen :
  renderWindows 6 frozenProps initialState 500 70
  = Some (frozenColumns, sampleRows)
  /\ notFullyVisible (visible frozenColumns) 4 = true
  /\ c_x (dataOffset initialState) = 0
  /\ c_x (dataOffset (nextState initialState
            (changeSelection frozenProps initialState frozenColumns sampleRows
               4 0 4 0 true))) = 4
  /\ c_x (dataOffset (nextState initialState
            (changeSelection frozenProps initialState frozenColumns sampleRows
               4 0 4 0 true))) <> c_x (dataOffset initialState) + 1
  /\ scrollLeftRequests
       (changeSelection frozenProps initialState frozenColumns sampleRows
          4 0 4 0 true) = [120].
Proof. repeat split. discriminate. Qed.

(** [changeSelection] writes no cell. *)
Lemma changeSelection_no_change props s columns rows x1 y1 x2 y2 scrollToP2 :
  onChangeCalls (changeSelection props s columns rows x1 y1 x2 y2 scrollToP2)
  = [].
Proof.
  unfold changeSelection, onChangeCalls.
  destruct scrollToP2; [destruct (_ || _) |];
    destruct (onSelectionChanged props); reflexivity.
Qed.

(** The selection of the next render is the rectangle [changeSelection]
    was given, as given. *)
Lemma changeSelection_selection props s columns rows x1 y1 x2 y2 scrollToP2 :
  selection (nextState s
    (changeSelection props s columns rows x1 y1 x2 y2 scrollToP2))
  = mkRect x1 y1 x2 y2.
Proof.
  unfold changeSelection.
  destruct s as [o sel k ec ev akc sh kd sp cr rr rsp csp bc].
  destruct scrollToP2; [destruct (_ || _) |];
    destruct (onSelectionChanged props); reflexivity.
Qed.

(** ** Facts about the clipboard bridge *)

(** [parsePastedText] once an anchor is found on both axes. *)
Lemma parsePastedText_anchored props s columns rows text pasteLocX pasteLocY :
  pasteLoc s = (pasteLocX, pasteLocY) ->
  pasteLocX <> -1 -> pasteLocY <> -1 ->
  parsePastedText props s columns rows text
  = (if onChange props
     then [CallOnChange
             (snd (pasteRows pasteLocX pasteLocY (splitLines text) 0 pasteLocX))]
     else [])
    ++ changeSelection props s columns rows pasteLocX pasteLocY
         (fst (pasteRows pasteLocX pasteLocY (splitLines text) 0 pasteLocX))
         (pasteLocY + Z.of_nat (length (splitLines text)) - 1) false.
Proof.
  intros Hloc Hx Hy. unfold parsePastedText. rewrite Hloc.
  apply Z.eqb_neq in Hx. apply Z.eqb_neq in Hy. rewrite Hx, Hy. simpl.
  destruct (pasteRows pasteLocX pasteLocY (splitLines text) 0 pasteLocX).
  reflexivity.
Qed.

Lemma splitLines_sample :
  splitLines pastedSample
  = [String "a" (String tab "b"); String "c" (String tab "d")].
Proof. vm_compute. reflexivity. Qed.

Lemma pasteRows_sample :
  pasteRows 2 3 (splitLines pastedSample) 0 2
  = (3, [mkChange 2 3 (VString "a"); mkChange 3 3 (VString "b");
         mkChange 2 4 (VString "c"); mkChange 3 4 (VString "d")]).
Proof. vm_compute. reflexivity. Qed.

(** C6. Pasting the text ["a\tb\nc\td"] with the paste anchor at cell
    (2, 3) hands [onChange] exactly one batch of exactly four change
    records, (2,3,a), (3,3,b), (2,4,c), (3,4,d) in this order, and leaves
    the selection as the rectangle (2,3)-(3,4). *)
Theorem paste_two_by_two props s columns rows :
  pasteLoc s = (2, 3) ->
  onChange props = true ->
  let acts := parsePastedText props s columns rows pastedSample in
  onChangeCalls acts
  = [[mkChange 2 3 (VString "a"); mkChange 3 3 (VString "b");
      mkChange 2 4 (VString "c"); mkChange 3 4 (VString "d")]]
  /\ selection (nextState s acts) = mkRect 2 3 3 4.
Proof.
  intros Hloc Hcb acts. unfold acts.
  rewrite (parsePastedText_anchored _ _ _ _ _ 2 3 Hloc) by discriminate.
  rewrite Hcb, pasteRows_sample, splitLines_sample.
  cbn [fst snd length Z.of_nat]. split.
  - unfold onChangeCalls. rewrite omap_app.
    fold (onChangeCalls
            (changeSelection props s columns rows 2 3 3 (3 + 2 - 1) false)).
    rewrite changeSelection_no_change. reflexivity.
  - unfold nextState. rewrite foldl_app. cbn [foldl].
    unfold changeSelection.
    destruct s as [o sel k ec ev akc sh kd sp cr rr rsp csp bc].
    destruct (onSelectionChanged props); reflexivity.
Qed.

Lemma paste_two_by_two_witness :
  pasteLoc (selecting (mkRect 2 3 2 3)) = (2, 3)
  /\ onChangeCalls
       (parsePastedText plainProps (selecting (mkRect 2 3 2 3))
          sampleColumns sampleRows pastedSample)
     = [[mkChange 2 3 (VString "a"); mkChange 3 3 (VString "b");
         mkChange 2 4 (VString "c"); mkChange 3 4 (VString "d")]]
  /\ selection (nextState (selecting (mkRect 2 3 2 3))
       (parsePastedText plainProps (selecting (mkRect 2 3 2 3))
          sampleColumns sampleRows pastedSample))
     = mkRect 2 3 3 4.
Proof.
  split; [reflexivity |].
  exact (paste_two_by_two plainProps (selecting (mkRect 2 3 2 3))
           sampleColumns sampleRows eq_refl eq_refl).
Defined.

(** ** Facts about the grid key handler *)

(** C10. Backspace or Delete pressed while nothing is selected, all four
    components of the selection being -1, still hands [onChange] exactly
    one batch holding exactly one change record, [{x: -1, y: -1, value:
    null}]: the delete branch of [onGridKeyDown] comes before its
    "nothing selected" guard. *)
Theorem delete_without_selection props s columns rows e :
  selection s = mkRect (-1) (-1) (-1) (-1) ->
  onChange props = true ->
  (key e = "Backspace"%string /\ which e = 8)
  \/ (key e = "Delete"%string /\ which e = 46) ->
  onChangeCalls (onGridKeyDown props s columns rows e)
  = [[mkChange (-1) (-1) VNull]].
Proof.
  intros Hsel Hcb Hkey. unfold onGridKeyDown, deleteChanges.
  rewrite Hsel, Hcb.
  destruct Hkey as [[-> ->] | [-> ->]]; cbn;
    rewrite !andb_false_r; reflexivity.
Qed.

Lemma delete_without_selection_witness :
  onChangeCalls
    (onGridKeyDown plainProps initialState sampleColumns sampleRows
       backspaceKey)
  = [[mkChange (-1) (-1) VNull]].
Proof.
  apply delete_without_selection.
  - reflexivity.
  - reflexivity.
  - left. split; reflexivity.
Defined.

(** ** Facts about the fill handle *)

Lemma ordered_le a b : a <= b -> ordered a b = (a, b).
Proof. intros H. unfold ordered. destruct (Z.gtb_spec a b); [lia | reflexivity]. Qed.

Lemma upTo_cons lo hi : lo <= hi -> upTo lo hi = lo :: upTo (lo + 1) hi.
Proof.
  intros H. unfold upTo. rewrite seqZ_cons by lia.
  f_equal. f_equal; lia.
Qed.

Lemma upTo_nil lo hi : hi < lo -> upTo lo hi = [].
Proof. intros H. unfold upTo. apply seqZ_nil. lia. Qed.

(** The source row of the [k]-th destination row of a vertical fill is the
    [k]-th row after the starting one, counted cyclically within the rows
    [sy1 .. sy2] of the fixed region. *)
Lemma fillRows_cycle props ys xs sy1 sy2 srcY :
  sy1 <= srcY <= sy2 ->
  fillRows props ys xs sy1 sy2 srcY
  = concat (imap (fun k y =>
                    (fun x => mkChange x y
                       (sourceData props x
                          (sy1 + (srcY - sy1 + Z.of_nat k) `mod` (sy2 - sy1 + 1))))
                    <$> xs) ys).
Proof.
  revert srcY. induction ys as [| y ys IH]; intros srcY Hsrc; [reflexivity |].
  cbn [fillRows]. rewrite imap_cons. cbn [concat]. f_equal.
  - rewrite Z.add_0_r, Z.mod_small by lia.
    replace (sy1 + (srcY - sy1)) with srcY by lia. reflexivity.
  - rewrite IH by (destruct (Z.gtb_spec (srcY + 1) sy2); lia).
    f_equal. apply imap_ext. intros k y' _. cbn [compose].
    apply list_fmap_ext. intros _ x _. do 3 f_equal.
    destruct (Z.gtb_spec (srcY + 1) sy2) as [Hwrap | Hnext].
    + replace (srcY - sy1 + Z.of_nat (S k))
        with (sy1 - sy1 + Z.of_nat k + 1 * (sy2 - sy1 + 1)) by lia.
      rewrite Z.mod_add by lia. reflexivity.
    + f_equal. lia.
Qed.

Lemma ordered_min_max a b : ordered a b = (Z.min a b, Z.max a b).
Proof. unfold ordered. destruct (Z.gtb_spec a b); f_equal; lia. Qed.

(** A released drag reads the fixed region and the dragged area through
    their corners in order, however they are stored. *)
Lemma knobChanges_corners props s sx1 sy1 sx2 sy2 kx1 ky1 kx2 ky2 :
  normalized (selection s) = mkRect sx1 sy1 sx2 sy2 ->
  normalized (knobArea s) = mkRect kx1 ky1 kx2 ky2 ->
  (sx1 <= sx2 /\ sy1 <= sy2 /\ kx1 <= kx2 /\ ky1 <= ky2)
  /\ knobChanges props s
     = if kx2 - kx1 =? sx2 - sx1 then
         if ky1 =? sy1
         then fillRows props (upTo (sy2 + 1) ky2) (upTo kx1 kx2) sy1 sy2 sy1
         else fillRows props (upTo ky1 (sy1 - 1)) (upTo kx1 kx2) sy1 sy2 sy1
       else
         if kx1 =? sx1
         then fillColumns props (upTo (sx2 + 1) kx2) (upTo ky1 ky2) sx1 sx2 sx1
         else fillColumns props (upTo kx1 (sx1 - 1)) (upTo ky1 ky2) sx1 sx2 sx1.
Proof.
  unfold normalized. intros Hsel Hknob.
  injection Hsel as Hsx1 Hsy1 Hsx2 Hsy2.
  injection Hknob as Hkx1 Hky1 Hkx2 Hky2.
  split; [lia |].
  unfold knobChanges. rewrite !ordered_min_max.
  rewrite Hsx1, Hsy1, Hsx2, Hsy2, Hkx1, Hky1, Hkx2, Hky2.
  destruct (kx2 - kx1 =? sx2 - sx1).
  - destruct (ky1 =? sy1); reflexivity.
  - destruct (kx1 =? sx1); reflexivity.
Qed.

(** A drag that extends the fixed region downwards, keeping its columns:
    the destination rows, top to bottom, take the rows of the fixed region
    in order, starting over from its top row after its bottom row,
    whichever corners of the region and of the dragged area are stored
    first. *)
Lemma knobChanges_below props s sx1 sy1 sx2 sy2 fy2 :
  normalized (selection s) = mkRect sx1 sy1 sx2 sy2 ->
  normalized (knobArea s) = mkRect sx1 sy1 sx2 fy2 ->
  knobChanges props s
  = concat (imap (fun k y =>
                    (fun x => mkChange x y
                       (sourceData props x
                          (sy1 + Z.of_nat k `mod` (sy2 - sy1 + 1))))
                    <$> upTo sx1 sx2) (upTo (sy2 + 1) fy2)).
Proof.
  intros Hsel Hknob.
  destruct (knobChanges_corners props s _ _ _ _ _ _ _ _ Hsel Hknob)
    as [(Hx & Hy & _ & _) ->].
  rewrite !Z.eqb_refl. rewrite fillRows_cycle by lia.
  f_equal. apply imap_ext. intros k y _. apply list_fmap_ext. intros _ x _.
  do 4 f_equal. lia.
Qed.

(** [onMouseUp] hands [onChange] the changes of the drag, once, when a
    fill-handle drag was in progress. *)
Lemma onMouseUp_changes props s columns rows x y :
  knobDragInProgress s = true -> onChange props = true ->
  onChangeCalls (onMouseUp props s columns rows x y) = [knobChanges props s].
Proof.
  intros Hdrag Hcb. unfold onMouseUp. rewrite Hdrag, Hcb.
  unfold onChangeCalls. rewrite !omap_app.
  fold (onChangeCalls (changeSelection props s columns rows
          (r_x1 (knobArea s)) (r_y1 (knobArea s))
          (r_x2 (knobArea s)) (r_y2 (knobArea s)) true)).
  rewrite changeSelection_no_change. simpl.
  destruct (bc_hitTarget (buttonClickMouseDownCoordinates s)) as [t |];
    [| reflexivity].
  destruct (negb _ && negb _); [| reflexivity].
  destruct (_ && _); reflexivity.
Qed.

(** C5. Releasing a fill-handle drag that extends a fixed region of two
    columns by two rows, holding the source values [[1, 2], [3, 4]], by
    three rows below it hands [onChange], row by row, the values [1, 2]
    for the first destination row, [3, 4] for the second and [1, 2] again
    for the third: the source row advances by one per destination row and
    starts over from the top of the region after its last row.  The
    region and the dragged area are the cells the stored rectangles
    denote, whichever of their corners the selection was started from. *)
Theorem fill_handle_cycles_rows props s columns rows x y a b :
  knobDragInProgress s = true ->
  onChange props = true ->
  normalized (selection s) = mkRect a b (a + 1) (b + 1) ->
  normalized (knobArea s) = mkRect a b (a + 1) (b + 4) ->
  sourceData props a b = VNumber 1 ->
  sourceData props (a + 1) b = VNumber 2 ->
  sourceData props a (b + 1) = VNumber 3 ->
  sourceData props (a + 1) (b + 1) = VNumber 4 ->
  onChangeCalls (onMouseUp props s columns rows x y)
  = [[mkChange a (b + 2) (VNumber 1); mkChange (a + 1) (b + 2) (VNumber 2);
      mkChange a (b + 3) (VNumber 3); mkChange (a + 1) (b + 3) (VNumber 4);
      mkChange a (b + 4) (VNumber 1); mkChange (a + 1) (b + 4) (VNumber 2)]].
Proof.
  intros Hdrag Hcb Hsel Hknob H1 H2 H3 H4.
  rewrite onMouseUp_changes by assumption. f_equal.
  rewrite (knobChanges_below props s a b (a + 1) (b + 1) (b + 4))
    by assumption.
  replace (b + 1 - b + 1) with 2 by lia.
  replace (b + 1 + 1) with (b + 2) by lia.
  rewrite (upTo_cons a), (upTo_cons (a + 1)), (upTo_nil (a + 1 + 1)) by lia.
  rewrite (upTo_cons (b + 2)), (upTo_cons (b + 2 + 1)),
    (upTo_cons (b + 2 + 1 + 1)), (upTo_nil (b + 2 + 1 + 1 + 1)) by lia.
  cbn [imap concat fmap list_fmap app compose Z.of_nat Pos.of_succ_nat Pos.succ].
  change (Z.of_nat 0 `mod` 2) with 0. change (Z.of_nat 1 `mod` 2) with 1.
  change (Z.of_nat 2 `mod` 2) with 0.
  rewrite Z.add_0_r, H1, H2, H3, H4.
  replace (b + 2 + 1) with (b + 3) by lia.
  replace (b + 3 + 1) with (b + 4) by lia.
  reflexivity.
Qed.

Lemma fill_handle_cycles_rows_witness :
  onChangeCalls
    (onMouseUp fillProps (dragging (mkRect 1 1 0 0) (mkRect 0 0 1 4))
       sampleColumns sampleRows 0 0)
  = [[mkChange 0 2 (VNumber 1); mkChange 1 2 (VNumber 2);
      mkChange 0 3 (VNumber 3); mkChange 1 3 (VNumber 4);
      mkChange 0 4 (VNumber 1); mkChange 1 4 (VNumber 2)]].
Proof.
  exact (fill_handle_cycles_rows fillProps
           (dragging (mkRect 1 1 0 0) (mkRect 0 0 1 4))
           sampleColumns sampleRows 0 0 0 0
           eq_refl eq_refl eq_refl eq_refl eq_refl eq_refl eq_refl eq_refl).
Defined.

(** ** Facts about read-only cells *)

(** Starting an edit on a read-only cell does nothing. *)
Lemma startEditingCell_read_only props cell :
  cellReadOnly props (c_x cell) (c_y cell) = true ->
  startEditingCell props cell = [].
Proof. intros Hro. unfold startEditingCell. rewrite Hro. reflexivity. Qed.

(** A double click on a read-only cell opens no editor and writes
    nothing. *)
Lemma onDoubleClick_read_only props s columns rows x y :
  (let cell := absCoordianteToCell columns rows x y in
   cellReadOnly props (c_x cell) (c_y cell) = true) ->
  editCell (nextState s (onDoubleClick props columns rows x y)) = editCell s
  /\ onChangeCalls (onDoubleClick props columns rows x y) = [].
Proof.
  intros Hro. unfold onDoubleClick.
  rewrite startEditingCell_read_only by exact Hro.
  destruct s; split; reflexivity.
Qed.

(** Moving with the arrow keys does not look at [readOnly]: from a
    selected cell, the right arrow selects the next cell to the right,
    read-only or not, and writes nothing. *)
Lemma arrow_right_moves props s columns rows x y :
  selection s = mkRect x y x y -> 0 <= x -> 0 <= y ->
  editMode s = false ->
  let acts :=
    onGridKeyDown props s columns rows
      (mkKeyEvent "ArrowRight" 39 39 false false false) in
  selection (nextState s acts) = mkRect (x + 1) y (x + 1) y
  /\ onChangeCalls acts = [].
Proof.
  intros Hsel Hx Hy Hedit acts. unfold acts, onGridKeyDown.
  rewrite Hsel, Hedit. cbn -[changeSelection nextState onChangeCalls Z.add].
  assert (Hnone : (x =? -1) || (x =? -1) || (y =? -1) || (y =? -1) = false).
  { destruct (Z.eqb_spec x (-1)), (Z.eqb_spec y (-1)); simpl; lia. }
  rewrite Hnone.
  destruct (Z.ltb_spec (x + 1) 0); [lia |].
  destruct (Z.ltb_spec y 0); [lia |].
  split; [apply changeSelection_selection | apply changeSelection_no_change].
Qed.

(** C2 fails on the code. With every cell read-only and the cell (1, 1)
    selected, Delete hands [onChange] a change record for that cell, and
    so does pasting the one-cell text "a"; only the paths that start an
    edit consult [readOnly]. *)
Theorem read_only_cell_written_by_delete_and_paste :
  cellReadOnly readOnlyProps 1 1 = true
  /\ onChangeCalls
       (onGridKeyDown readOnlyProps (selecting (mkRect 1 1 1 1))
          sampleColumns sampleRows deleteKey)
     = [[mkChange 1 1 VNull]]
  /\ onChangeCalls
       (parsePastedText readOnlyProps (selecting (mkRect 1 1 1 1))
          sampleColumns sampleRows "a")
     = [[mkChange 1 1 (VString "a")]].
Proof. repeat split. Qed.

(** ** Worked examples *)

Example calculateRowsOrColsSizes_uniform :
  calculateRowsOrColsSizes 10 0 (fun _ => 100) 50 3 300
  = Some (mkWindow [3; 4; 5] [50; 150; 250] [150; 250; 350]).
Proof. reflexivity. Qed.

Example calculateRowsOrColsSizes_frozen :
  calculateRowsOrColsSizes 10 2 (fun _ => 100) 50 7 400
  = Some (mkWindow [0; 1; 7; 8] [50; 150; 250; 350] [150; 250; 350; 450]).
Proof. reflexivity. Qed.

Example calculateRowsOrColsSizes_out_of_fuel :
  calculateRowsOrColsSizes 2 0 (fun _ => 100) 50 0 1000 = None.
Proof. reflexivity. Qed.

Example splitLines_carriage_return :
  splitLines (String "a" (String carriageReturn (String newline "b")))
  = ["a"; "b"]%string.
Proof. vm_compute. reflexivity. Qed.

Example delete_selection_two_by_two :
  onChangeCalls
    (onGridKeyDown plainProps (selecting (mkRect 1 1 2 2))
       sampleColumns sampleRows deleteKey)
  = [[mkChange 1 1 VNull; mkChange 2 1 VNull;
      mkChange 1 2 VNull; mkChange 2 2 VNull]].
Proof. reflexivity. Qed.

(** ** More on the viewport window *)

Lemma Tiled_next size p vs ss es q i en :
  Tiled size p vs ss es q ->
  es !! i = Some en -> (S i < length vs)%nat -> ss !! S i = Some en.
Proof.
  intros H. revert i. induction H as [p | p v vs ss es q H IH]; intros i Hi Hlt.
  - simpl in Hlt. lia.
  - destruct i as [| i]; simpl in *.
    + injection Hi as <-. destruct H; simpl in *; [lia | reflexivity].
    + apply IH; [exact Hi | lia].
Qed.

(** What the [while] loop appends: a run of consecutive indices from
    [ind], at least one, whose ends all stay short of the extent except
    the last. *)
Lemma whileLoop_shape size fuel visibleArea ind prev w w' :
  whileLoop fuel size visibleArea ind prev w = Some w' ->
  exists (n : nat) (es : list Z),
    (1 <= n)%nat
    /\ visible w' = visible w ++ seqZ ind (Z.of_nat n)
    /\ end_ w' = end_ w ++ es
    /\ length es = n
    /\ (forall i en, es !! i = Some en -> (S i < n)%nat -> en < visibleArea).
Proof.
  revert ind prev w. induction fuel as [| fuel IH]; intros ind prev w Hrun;
    [discriminate |].
  cbn [whileLoop] in Hrun.
  assert (Hlast : default 0 (last (end_ (push w ind prev (prev + size ind))))
                  = prev + size ind).
  { unfold push; simpl. rewrite last_snoc. reflexivity. }
  rewrite Hlast in Hrun.
  case_geb (prev + size ind) visibleArea.
  - injection Hrun as <-. exists 1%nat, [prev + size ind].
    repeat split; auto. intros i en _ Hi. lia.
  - apply IH in Hrun as (n & es & Hn & Hvis & Hend & Hlen & Hshort).
    exists (S n), ((prev + size ind) :: es). split; [lia |].
    split; [| split; [| split]].
    + rewrite Hvis. cbn [push visible].
      rewrite Nat2Z.inj_succ, (seqZ_cons ind) by lia.
      rewrite Z.pred_succ, <- app_assoc. reflexivity.
    + rewrite Hend. cbn [push end_]. rewrite <- app_assoc. reflexivity.
    + simpl. lia.
    + intros [| i] en Hi Hlt; simpl in Hi.
      * injection Hi as <-. lia.
      * apply (Hshort i en Hi). lia.
Qed.

Lemma frozenLoop_length size n ind prev w :
  length (end_ (fst (frozenLoop n size ind prev w))) = (length (end_ w) + n)%nat.
Proof.
  revert ind prev w. induction n as [| n IH]; intros ind prev w; simpl.
  - lia.
  - rewrite IH. unfold push; simpl. rewrite length_app. simpl. lia.
Qed.

(** X1. The window [calculateRowsOrColsSizes] returns tiles its axis: the
    three arrays have one length, the first entry starts at
    [startingSize], every entry ends its cell's size after its start, and
    every entry but the last is followed by one that starts where it
    ends. *)
Theorem window_tiles_axis fuel freezeCount size
    startingSize startingIndex visibleArea w :
  calculateRowsOrColsSizes fuel freezeCount size
    startingSize startingIndex visibleArea = Some w ->
  length (start w) = length (visible w)
  /\ length (end_ w) = length (visible w)
  /\ head (start w) = Some startingSize
  /\ (forall i v, visible w !! i = Some v ->
        exists st, start w !! i = Some st /\ end_ w !! i = Some (st + size v))
  /\ (forall i en, end_ w !! i = Some en -> (S i < length (visible w))%nat ->
        start w !! S i = Some en).
Proof.
  intros Hrun.
  apply calculateRowsOrColsSizes_spec in Hrun as (q & Ht & Hne & _).
  destruct (Tiled_length _ _ _ _ _ _ Ht) as [Hls Hle].
  repeat split; auto.
  - eapply Tiled_head; eauto.
  - intros i v Hv. eapply Tiled_lookup; eauto.
  - intros i en He Hlt. eapply Tiled_next; eauto.
Qed.

Lemma window_tiles_axis_witness :
  length (start frozenColumns) = length (visible frozenColumns)
  /\ length (end_ frozenColumns) = length (visible frozenColumns)
  /\ head (start frozenColumns) = Some 50
  /\ (forall i v, visible frozenColumns !! i = Some v ->
        exists st, start frozenColumns !! i = Some st
                   /\ end_ frozenColumns !! i
                      = Some (st + cellWidth frozenProps v))
  /\ (forall i en, end_ frozenColumns !! i = Some en ->
        (S i < length (visible frozenColumns))%nat ->
        start frozenColumns !! S i = Some en).
Proof.
  exact (window_tiles_axis 6 3 (cellWidth frozenProps) 50 0 500
           frozenColumns eq_refl).
Defined.

(** The indices the window lists, by what the two loops append. *)
Lemma calculateRowsOrColsSizes_visible fuel freezeCount size
    startingSize startingIndex visibleArea w :
  calculateRowsOrColsSizes fuel freezeCount size
    startingSize startingIndex visibleArea = Some w ->
  exists n : nat,
    (1 <= n)%nat
    /\ visible w
       = if 0 <? freezeCount
         then seqZ 0 freezeCount
              ++ seqZ (Z.max startingIndex freezeCount) (Z.of_nat n)
         else startingIndex :: seqZ (startingIndex + 1) (Z.of_nat n).
Proof.
  unfold calculateRowsOrColsSizes. intros Hrun.
  destruct (0 <? freezeCount) eqn:Hf.
  - apply Z.ltb_lt in Hf.
    set (w0 := {| visible := [0]; start := [startingSize];
                  end_ := [startingSize + size 0] |}) in *.
    assert (Hinv0 : LoopInv size startingSize w0 (startingSize + size 0) 1).
    { repeat split; simpl.
      - repeat constructor.
      - discriminate.
      - apply NoDup_singleton.
      - intros v Hv. apply list_elem_of_singleton in Hv. lia. }
    pose proof (frozenLoop_spec size startingSize
                  (Z.to_nat (freezeCount - 1)) 1 _ w0 Hinv0) as Hfrozen.
    destruct (frozenLoop (Z.to_nat (freezeCount - 1)) size 1
                (startingSize + size 0) w0) as [w1 prev1].
    destruct Hfrozen as [_ Hvis1]. rewrite Z2Nat.id in Hvis1 by lia.
    apply whileLoop_shape in Hrun as (n & es & Hn & Hvis & _).
    exists n. split; [exact Hn |]. rewrite Hvis, Hvis1. f_equal.
    simpl. rewrite (seqZ_cons 0) by lia. simpl.
    replace (Z.pred freezeCount) with (freezeCount - 1) by lia. reflexivity.
  - apply whileLoop_shape in Hrun as (n & es & Hn & Hvis & _).
    exists n. split; [exact Hn |]. rewrite Hvis. reflexivity.
Qed.


(** X2. The indices of the window, exactly: without frozen cells, the
    starting index followed by a run of consecutive indices; with [f > 0]
    frozen cells, the block [0 .. f-1] followed by a run of consecutive
    indices from [max(startingIndex, f)].  The run is never empty, so the
    window has at least two entries, even when its first cell alone
    reaches the extent. *)
Theorem window_visible_indices fuel freezeCount size
    startingSize startingIndex visibleArea w :
  calculateRowsOrColsSizes fuel freezeCount size
    startingSize startingIndex visibleArea = Some w ->
  (2 <= length (visible w))%nat
  /\ exists n : nat,
       (1 <= n)%nat
       /\ visible w
          = if 0 <? freezeCount
            then seqZ 0 freezeCount
                 ++ seqZ (Z.max startingIndex freezeCount) (Z.of_nat n)
            else startingIndex :: seqZ (startingIndex + 1) (Z.of_nat n).
Proof.
  intros Hrun.
  destruct (calculateRowsOrColsSizes_visible _ _ _ _ _ _ _ Hrun)
    as (n & Hn & Hvis).
  split; [| exists n; split; [exact Hn | exact Hvis]].
  rewrite Hvis. destruct (0 <? freezeCount) eqn:Hf.
  - apply Z.ltb_lt in Hf. rewrite length_app, !length_seqZ. lia.
  - cbn [length]. rewrite length_seqZ. lia.
Qed.

Lemma window_visible_indices_witness :
  (2 <= length (visible frozenColumns))%nat
  /\ exists n : nat,
       (1 <= n)%nat
       /\ visible frozenColumns = seqZ 0 3 ++ seqZ (Z.max 0 3) (Z.of_nat n).
Proof.
  exact (window_visible_indices 6 3 (cellWidth frozenProps) 50 0 500
           frozenColumns eq_refl).
Defined.

(** X3. The indices of the window are strictly increasing from one entry
    to the next. *)
Theorem window_visible_increasing fuel freezeCount size
    startingSize startingIndex visibleArea w i vi vj :
  calculateRowsOrColsSizes fuel freezeCount size
    startingSize startingIndex visibleArea = Some w ->
  visible w !! i = Some vi -> visible w !! S i = Some vj -> vi < vj.
Proof.
  intros Hrun Hi Hj.
  apply calculateRowsOrColsSizes_visible in Hrun as (n & Hn & Hvis).
  rewrite Hvis in Hi, Hj. clear Hvis.
  destruct (0 <? freezeCount) eqn:Hf.
  - apply Z.ltb_lt in Hf.
    assert (Hlen : length (seqZ 0 freezeCount) = Z.to_nat freezeCount)
      by apply length_seqZ.
    destruct (decide (S i < Z.to_nat freezeCount)%nat) as [Hin | Hout].
    + rewrite lookup_app_l in Hi, Hj by lia.
      apply lookup_seqZ in Hi, Hj. lia.
    + destruct (decide (i < Z.to_nat freezeCount)%nat) as [Hlast | Hpast].
      * rewrite lookup_app_l in Hi by lia.
        rewrite lookup_app_r in Hj by lia.
        apply lookup_seqZ in Hi, Hj. lia.
      * rewrite lookup_app_r in Hi, Hj by lia.
        apply lookup_seqZ in Hi, Hj. lia.
  - destruct i as [| i]; simpl in Hi, Hj.
    + injection Hi as <-. apply lookup_seqZ in Hj. lia.
    + apply lookup_seqZ in Hi, Hj. lia.
Qed.

Lemma window_visible_increasing_witness :
  calculateRowsOrColsSizes 6 3 (cellWidth frozenProps) 50 0 500
  = Some frozenColumns
  /\ visible frozenColumns !! 2%nat = Some 2
  /\ visible frozenColumns !! 3%nat = Some 3
  /\ 2 < 3.
Proof.
  refine (conj eq_refl (conj eq_refl (conj eq_refl _))).
  exact (window_visible_increasing 6 3 (cellWidth frozenProps) 50 0 500
           frozenColumns 2 2 3 eq_refl eq_refl eq_refl).
Defined.

(** X4. The window stops at the first cell that reaches the extent: past
    the entries listed unconditionally (the frozen block, or the first
    entry when nothing is frozen), every entry but the last ends short of
    the visible extent. *)
Theorem window_is_shortest fuel freezeCount size
    startingSize startingIndex visibleArea w i en :
  calculateRowsOrColsSizes fuel freezeCount size
    startingSize startingIndex visibleArea = Some w ->
  (Z.to_nat (Z.max 1 freezeCount) <= i)%nat ->
  (S i < length (end_ w))%nat ->
  end_ w !! i = Some en ->
  en < visibleArea.
Proof.
  unfold calculateRowsOrColsSizes. intros Hrun Hlo Hhi Hen.
  destruct (0 <? freezeCount) eqn:Hf.
  - apply Z.ltb_lt in Hf.
    pose proof (frozenLoop_length size (Z.to_nat (freezeCount - 1)) 1
                  (startingSize + size 0)
                  {| visible := [0]; start := [startingSize];
                     end_ := [startingSize + size 0] |}) as Hlen.
    destruct (frozenLoop (Z.to_nat (freezeCount - 1)) size 1
                (startingSize + size 0) _) as [w1 prev1].
    simpl in Hlen.
    apply whileLoop_shape in Hrun as (n & es & Hn & _ & Hend & Hes & Hshort).
    rewrite Hend in Hen, Hhi. rewrite length_app in Hhi.
    rewrite lookup_app_r in Hen by lia.
    apply (Hshort _ _ Hen). lia.
  - apply Z.ltb_ge in Hf.
    apply whileLoop_shape in Hrun as (n & es & Hn & _ & Hend & Hes & Hshort).
    rewrite Hend in Hen, Hhi. rewrite length_app in Hhi.
    cbn [end_ length] in Hen, Hhi.
    assert (Hone : Z.to_nat (Z.max 1 freezeCount) = 1%nat) by lia.
    rewrite lookup_app_r in Hen by (simpl; lia).
    apply (Hshort _ _ Hen). simpl. lia.
Qed.

Lemma window_is_shortest_witness :
  calculateRowsOrColsSizes 6 3 (cellWidth frozenProps) 50 0 500
  = Some frozenColumns
  /\ end_ frozenColumns !! 3%nat = Some 450
  /\ 450 < 500.
Proof.
  refine (conj eq_refl (conj eq_refl _)).
  exact (window_is_shortest 6 3 (cellWidth frozenProps) 50 0 500
           frozenColumns 3 450 eq_refl ltac:(simpl; lia) ltac:(simpl; lia)
           eq_refl).
Defined.

(** ** More on the two conversions *)

Section TilingOrder.

Variable size : Z -> Z.
Hypothesis size_nonneg : forall v, 0 <= size v.

Lemma Tiled_start_ge p vs ss es q i st :
  Tiled size p vs ss es q -> ss !! i = Some st -> p <= st.
Proof.
  intros H. revert i. induction H as [p | p v vs ss es q _ IH]; intros i Hi.
  - rewrite lookup_nil in Hi. discriminate.
  - destruct i as [| i]; simpl in Hi.
    + injection Hi as <-. lia.
    + specialize (IH _ Hi). specialize (size_nonneg v). lia.
Qed.

(** With no negative size, a span ends at or before the start of every
    later one. *)
Lemma Tiled_end_le_start p vs ss es q k i en st :
  Tiled size p vs ss es q -> (k < i)%nat ->
  es !! k = Some en -> ss !! i = Some st -> en <= st.
Proof.
  intros H. revert k i.
  induction H as [p | p v vs ss es q H IH]; intros k i Hlt Hk Hi.
  - rewrite lookup_nil in Hk. discriminate.
  - destruct i as [| i]; [lia |]. simpl in Hi.
    destruct k as [| k]; simpl in Hk.
    + injection Hk as <-. eapply Tiled_start_ge; eauto.
    + apply (IH k i); auto. lia.
Qed.

End TilingOrder.

(** X5. With no negative size, [absCoordianteToCell] gives a listed cell
    every pixel after its start up to and including its end, so a pixel
    on the boundary of two cells belongs to the one before it; the very
    first pixel of the window belongs to its first cell.  Stated for the
    columns; the rows are scanned by the same loop. *)
Theorem pixel_belongs_to_span_ending_at_it fuel freezeCount size
    startingSize startingIndex visibleArea columns rows i v st en absX absY :
  calculateRowsOrColsSizes fuel freezeCount size
    startingSize startingIndex visibleArea = Some columns ->
  (forall c, 0 <= size c) ->
  visible columns !! i = Some v ->
  start columns !! i = Some st ->
  end_ columns !! i = Some en ->
  st < absX <= en \/ (i = 0%nat /\ absX = st) ->
  c_x (absCoordianteToCell columns rows absX absY) = v.
Proof.
  intros Hrun Hsize Hv Hst Hen Hin.
  apply calculateRowsOrColsSizes_spec in Hrun as (q & Ht & Hne & _).
  destruct (Tiled_lookup _ _ _ _ _ _ _ _ Ht Hv) as (st' & Hst' & Hen').
  assert (st' = st) by congruence. subst st'.
  assert (en = st + size v) by congruence. subst en.
  assert (Hspan : inSpan columns i absX = true).
  { unfold inSpan. rewrite Hst, Hen. rewrite Z.geb_leb.
    specialize (Hsize v).
    apply andb_true_intro. split; apply Z.leb_le; lia. }
  assert (Hi : (i < length (visible columns))%nat)
    by (eapply lookup_lt_Some; eauto).
  unfold absCoordianteToCell; simpl.
  destruct (scanSpans_found (length (visible columns)) columns 0 absX 0 i)
    as (k & Hk & Hink & ->); [lia | exact Hspan |].
  destruct (decide (k = i)) as [-> | Hne'].
  - rewrite Hv. reflexivity.
  - exfalso. unfold inSpan in Hink.
    destruct (start columns !! k) as [stk |] eqn:Hsk; [| discriminate].
    destruct (end_ columns !! k) as [enk |] eqn:Hek; [| discriminate].
    apply andb_prop in Hink as [_ Hle]. apply Z.leb_le in Hle.
    pose proof (Tiled_end_le_start size Hsize _ _ _ _ _ k i enk st Ht
                  ltac:(lia) Hek Hst).
    lia.
Qed.

Lemma pixel_belongs_to_span_ending_at_it_witness :
  calculateRowsOrColsSizes 5 0 (cellWidth plainProps) 50 0 300
  = Some sampleColumns
  /\ end_ sampleColumns !! 0%nat = Some 150
  /\ start sampleColumns !! 1%nat = Some 150
  /\ c_x (absCoordianteToCell sampleColumns sampleRows 150 30) = 0.
Proof.
  refine (conj eq_refl (conj eq_refl (conj eq_refl _))).
  apply (pixel_belongs_to_span_ending_at_it 5 0 (cellWidth plainProps)
           50 0 300 sampleColumns sampleRows 0 0 50 150 150 30).
  - reflexivity.
  - intros c. discriminate.
  - reflexivity.
  - reflexivity.
  - reflexivity.
  - left. lia.
Defined.

Lemma sumSizes_succ size n :
  0 <= n -> sumSizes size (n + 1) = sumSizes size n + size n.
Proof.
  intros Hn. unfold sumSizes.
  rewrite seqZ_app by lia. rewrite foldl_app.
  rewrite (seqZ_cons (0 + n)) by lia.
  rewrite (seqZ_nil (Z.succ (0 + n))) by lia.
  simpl. reflexivity.
Qed.

(** The starts of a tiling of consecutive cells are sums of sizes. *)
Lemma Tiled_start_sum size p vs ss es q a n i st :
  Tiled size p vs ss es q -> vs = seqZ a n -> 0 <= a ->
  ss !! i = Some st ->
  st = p - sumSizes size a + sumSizes size (a + Z.of_nat i).
Proof.
  intros H. revert a n i.
  induction H as [p | p v vs ss es q _ IH]; intros a n i Hvs Ha Hi.
  - rewrite lookup_nil in Hi. discriminate.
  - destruct (Z_le_gt_dec n 0) as [Hn | Hn];
      [rewrite seqZ_nil in Hvs by lia; discriminate |].
    rewrite seqZ_cons in Hvs by lia. injection Hvs as -> Hvs.
    destruct i as [| i]; simpl in Hi.
    + injection Hi as <-. rewrite Z.add_0_r. lia.
    + rewrite (IH (Z.succ a) (Z.pred n) i Hvs ltac:(lia) Hi).
      replace (Z.succ a) with (a + 1) by lia.
      rewrite (sumSizes_succ size a) by lia.
      replace (a + 1 + Z.of_nat i) with (a + Z.of_nat (S i)) by lia. lia.
Qed.

Lemma findIndex_Some (arr : list Z) v i :
  findIndex arr v = Some i -> arr !! i = Some v.
Proof.
  unfold findIndex. intros H.
  destruct (list_find (fun x => x = v) arr) as [[j y] |] eqn:Hfind;
    [| discriminate].
  simpl in H. injection H as ->.
  apply list_find_Some in Hfind as (Hy & -> & _). exact Hy.
Qed.

(** One axis of [cellToAbsCoordinate] on an unfrozen window. *)
Lemma axis_start_agrees fuel size header offset extent w cell i :
  calculateRowsOrColsSizes fuel 0 size header offset extent = Some w ->
  0 <= offset ->
  findIndex (visible w) cell = Some i ->
  default 0 (start w !! i)
  = header - sumSizes size offset + sumSizes size cell.
Proof.
  intros Hrun Hoff Hfind.
  pose proof (calculateRowsOrColsSizes_visible _ _ _ _ _ _ _ Hrun)
    as (n & Hn & Hvis).
  simpl in Hvis.
  assert (Hseq : visible w = seqZ offset (Z.succ (Z.of_nat n))).
  { rewrite Hvis, (seqZ_cons offset) by lia. rewrite Z.pred_succ.
    reflexivity. }
  apply calculateRowsOrColsSizes_spec in Hrun as (q & Ht & _).
  apply findIndex_Some in Hfind.
  destruct (Tiled_lookup _ _ _ _ _ _ _ _ Ht Hfind) as (st & Hst & _).
  rewrite Hst. simpl.
  rewrite (Tiled_start_sum _ _ _ _ _ _ _ _ _ _ Ht Hseq Hoff Hst).
  rewrite Hseq in Hfind. apply lookup_seqZ in Hfind as [-> _].
  reflexivity.
Qed.

(** X6. On a sheet without frozen rows or columns and scrolled to a
    non-negative offset, the two paths of [cellToAbsCoordinate] agree:
    whether or not the cell is in the window, the pixel returned is the
    header size plus the sizes of the cells from the scroll offset up to
    the cell (minus them, for a cell before the offset), on each axis. *)
Theorem cellToAbsCoordinate_unfrozen fuel props s canvasWidth canvasHeight
    columns rows cellX cellY :
  renderWindows fuel props s canvasWidth canvasHeight = Some (columns, rows) ->
  freezeColumns props = 0 -> freezeRows props = 0 ->
  0 <= c_x (dataOffset s) -> 0 <= c_y (dataOffset s) ->
  cellToAbsCoordinate props s columns rows cellX cellY
  = mkCell
      (rowHeaderWidth - sumSizes (cellWidth props) (c_x (dataOffset s))
       + sumSizes (cellWidth props) cellX)
      (columnHeaderHeight - sumSizes (cellHeight props) (c_y (dataOffset s))
       + sumSizes (cellHeight props) cellY).
Proof.
  unfold renderWindows. intros Hrender Hfc Hfr Hox Hoy.
  rewrite Hfc, Hfr in Hrender.
  destruct (calculateRowsOrColsSizes fuel 0 (cellWidth props) _ _ _)
    as [columns' |] eqn:Hcols; [| discriminate].
  destruct (calculateRowsOrColsSizes fuel 0 (cellHeight props) _ _ _)
    as [rows' |] eqn:Hrows; [| discriminate].
  simpl in Hrender. injection Hrender as -> ->.
  unfold cellToAbsCoordinate. f_equal.
  - destruct (findIndex (visible columns) cellX) as [i |] eqn:Hfind;
      [| reflexivity].
    eapply axis_start_agrees; eauto.
  - destruct (findIndex (visible rows) cellY) as [j |] eqn:Hfind;
      [| reflexivity].
    eapply axis_start_agrees; eauto.
Qed.

Lemma cellToAbsCoordinate_unfrozen_witness :
  cellToAbsCoordinate plainProps initialState sampleColumns sampleRows 2 7
  = mkCell
      (rowHeaderWidth - sumSizes (cellWidth plainProps) 0
       + sumSizes (cellWidth plainProps) 2)
      (columnHeaderHeight - sumSizes (cellHeight plainProps) 0
       + sumSizes (cellHeight plainProps) 7).
Proof.
  apply (cellToAbsCoordinate_unfrozen 5 plainProps initialState 300 70);
    reflexivity || discriminate.
Defined.

(** X7. When the far corner of the selection is a listed cell, the fill
    handle sits where that cell's spans end, on both axes. *)
Theorem knob_sits_on_far_corner fuel props s canvasWidth canvasHeight
    columns rows i j enx eny :
  renderWindows fuel props s canvasWidth canvasHeight = Some (columns, rows) ->
  r_x2 (selection s) <> -1 -> r_y2 (selection s) <> -1 ->
  visible columns !! i
  = Some (Z.max (r_x1 (selection s)) (r_x2 (selection s))) ->
  visible rows !! j
  = Some (Z.max (r_y1 (selection s)) (r_y2 (selection s))) ->
  end_ columns !! i = Some enx -> end_ rows !! j = Some eny ->
  knobCoordinates props s columns rows = mkCell enx eny.
Proof.
  unfold renderWindows. intros Hrender Hx2 Hy2 Hi Hj Henx Heny.
  destruct (calculateRowsOrColsSizes fuel (freezeColumns props) _ _ _ _)
    as [columns' |] eqn:Hcols; [| discriminate].
  destruct (calculateRowsOrColsSizes fuel (freezeRows props) _ _ _ _)
    as [rows' |] eqn:Hrows; [| discriminate].
  simpl in Hrender. injection Hrender as -> ->.
  apply calculateRowsOrColsSizes_spec in Hcols as (qx & Htx & _ & Hndx & _).
  apply calculateRowsOrColsSizes_spec in Hrows as (qy & Hty & _ & Hndy & _).
  unfold knobCoordinates.
  apply Z.eqb_neq in Hx2. apply Z.eqb_neq in Hy2. rewrite Hx2, Hy2. simpl.
  assert (Hmx : (if r_x1 (selection s) >? r_x2 (selection s)
                 then r_x1 (selection s) else r_x2 (selection s))
                = Z.max (r_x1 (selection s)) (r_x2 (selection s)))
    by (destruct (Z.gtb_spec (r_x1 (selection s)) (r_x2 (selection s))); lia).
  assert (Hmy : (if r_y1 (selection s) >? r_y2 (selection s)
                 then r_y1 (selection s) else r_y2 (selection s))
                = Z.max (r_y1 (selection s)) (r_y2 (selection s)))
    by (destruct (Z.gtb_spec (r_y1 (selection s)) (r_y2 (selection s))); lia).
  rewrite Hmx, Hmy. unfold cellToAbsCoordinate.
  rewrite (findIndex_NoDup _ _ _ Hndx Hi), (findIndex_NoDup _ _ _ Hndy Hj).
  destruct (Tiled_lookup _ _ _ _ _ _ _ _ Htx Hi) as (stx & Hsx & Hex).
  destruct (Tiled_lookup _ _ _ _ _ _ _ _ Hty Hj) as (sty & Hsy & Hey).
  rewrite Hsx, Hsy. simpl. f_equal; congruence.
Qed.

Lemma knob_sits_on_far_corner_witness :
  knobCoordinates plainProps (selecting (mkRect 1 1 0 0))
    sampleColumns sampleRows
  = mkCell 250 66.
Proof.
  apply (knob_sits_on_far_corner 5 plainProps (selecting (mkRect 1 1 0 0))
           300 70 sampleColumns sampleRows 1 1);
    reflexivity || discriminate.
Defined.

(** ** More on the key handlers *)

Lemma elem_of_upTo x lo hi : x ∈ upTo lo hi <-> lo <= x <= hi.
Proof. unfold upTo. rewrite elem_of_seqZ. lia. Qed.

Lemma NoDup_upTo lo hi : NoDup (upTo lo hi).
Proof. apply NoDup_seqZ. Qed.

(** The cells of a rectangle of rows and columns, row by row, each
    once. *)
Lemma grid_cells (f : Z -> Z -> Change) xs ys c :
  c ∈ flat_map (fun y => (fun x => f x y) <$> xs) ys
  <-> exists x y, x ∈ xs /\ y ∈ ys /\ c = f x y.
Proof.
  rewrite list_elem_of_In, in_flat_map. split.
  - intros (y & Hy & Hc). apply list_elem_of_In in Hy, Hc.
    apply list_elem_of_fmap in Hc as (x & -> & Hx). eauto.
  - intros (x & y & Hx & Hy & ->). exists y.
    rewrite <- !list_elem_of_In. split; [exact Hy |].
    apply list_elem_of_fmap. eauto.
Qed.

Lemma grid_NoDup (f : Z -> Z -> Change) xs ys :
  (forall x y x' y', f x y = f x' y' -> x = x' /\ y = y') ->
  NoDup xs -> NoDup ys ->
  NoDup (flat_map (fun y => (fun x => f x y) <$> xs) ys).
Proof.
  intros Hinj Hxs Hys. induction Hys as [| y ys Hy Hys IH]; simpl.
  - constructor.
  - apply NoDup_app. split; [| split; [| exact IH]].
    + apply NoDup_fmap_2; [| exact Hxs].
      intros x x' Heq. apply (Hinj _ _ _ _ Heq).
    + intros c Hc Hc'. apply list_elem_of_fmap in Hc as (x & -> & _).
      apply grid_cells in Hc' as (x' & y' & _ & Hy' & Heq).
      apply Hinj in Heq as [_ ->]. contradiction.
Qed.

(** X8. Backspace or Delete on the grid hands [onChange] one batch that
    holds, once each, exactly the cells of the selection, whichever corner
    it was dragged from, every one with the value [null]. *)
Theorem delete_clears_exactly_the_selection props s columns rows e :
  onChange props = true ->
  (key e = "Backspace"%string /\ which e = 8)
  \/ (key e = "Delete"%string /\ which e = 46) ->
  exists changes,
    onChangeCalls (onGridKeyDown props s columns rows e) = [changes]
    /\ NoDup changes
    /\ (forall c, c ∈ changes <->
          ch_value c = VNull /\ covers (selection s) (ch_x c) (ch_y c)).
Proof.
  intros Hcb Hkey. exists (deleteChanges s). split; [| split].
  - unfold onGridKeyDown. rewrite Hcb.
    destruct Hkey as [[-> ->] | [-> ->]]; cbn -[deleteChanges];
      rewrite !andb_false_r; reflexivity.
  - unfold deleteChanges. rewrite !ordered_min_max.
    apply (grid_NoDup (fun x y => mkChange x y VNull));
      [| apply NoDup_upTo | apply NoDup_upTo].
    intros x y x' y' Heq. injection Heq as -> ->. auto.
  - intros c. unfold deleteChanges, covers. rewrite !ordered_min_max.
    rewrite (grid_cells (fun x y => mkChange x y VNull)). split.
    + intros (x & y & Hx & Hy & ->). apply elem_of_upTo in Hx, Hy.
      simpl. auto.
    + intros (Hv & Hx & Hy). exists (ch_x c), (ch_y c).
      rewrite !elem_of_upTo. repeat split; try lia.
      destruct c; simpl in *; congruence.
Qed.

Lemma delete_clears_exactly_the_selection_witness :
  exists changes,
    onChangeCalls
      (onGridKeyDown plainProps (selecting (mkRect 2 2 1 1))
         sampleColumns sampleRows deleteKey) = [changes]
    /\ NoDup changes
    /\ (forall c, c ∈ changes <->
          ch_value c = VNull
          /\ covers (selection (selecting (mkRect 2 2 1 1)))
               (ch_x c) (ch_y c)).
Proof.
  apply delete_clears_exactly_the_selection.
  - reflexivity.
  - right. split; reflexivity.
Defined.

(** [changeSelection] stores the rectangle it is given, whatever was
    set before it in the same handler, and leaves the edit cell alone. *)
Lemma changeSelection_selection_after props s s0 columns rows
    x1 y1 x2 y2 scrollToP2 :
  selection (nextState s0
    (changeSelection props s columns rows x1 y1 x2 y2 scrollToP2))
  = mkRect x1 y1 x2 y2.
Proof.
  unfold changeSelection.
  destruct s0 as [o sel k ec ev akc sh kd sp cr rr rsp csp bc].
  destruct scrollToP2; [destruct (_ || _) |];
    destruct (onSelectionChanged props); reflexivity.
Qed.

Lemma changeSelection_editCell_after props s s0 columns rows
    x1 y1 x2 y2 scrollToP2 :
  editCell (nextState s0
    (changeSelection props s columns rows x1 y1 x2 y2 scrollToP2))
  = editCell s0.
Proof.
  unfold changeSelection.
  destruct s0 as [o sel k ec ev akc sh kd sp cr rr rsp csp bc].
  destruct scrollToP2; [destruct (_ || _) |];
    destruct (onSelectionChanged props); reflexivity.
Qed.

Lemma arrow_is_no_clipboard_chord w :
  37 <= w <= 40 ->
  fromCharCodeLowerIs w 118 = false /\ fromCharCodeLowerIs w 99 = false.
Proof.
  intros Hw. unfold fromCharCodeLowerIs.
  rewrite Z.mod_small by lia.
  split; apply orb_false_intro; apply Z.eqb_neq; lia.
Qed.

Lemma onChangeCalls_app a b :
  onChangeCalls (a ++ b) = onChangeCalls a ++ onChangeCalls b.
Proof. apply omap_app. Qed.

Lemma nextState_app s a b :
  nextState s (a ++ b) = nextState (nextState s a) b.
Proof. apply foldl_app. Qed.

(** X9. An arrow key on the grid, outside an arrow-committed edit and
    with a selection, moves the second corner one cell in its direction,
    both its coordinates being clamped at 0; without Shift the first
    corner follows it, with Shift the first corner stays.  No change
    record is emitted. *)
Theorem arrow_moves_and_clamps props s columns rows e dx dy :
  (key e, (dx, dy)) ∈
    [("ArrowRight"%string, (1, 0)); ("ArrowLeft"%string, (-1, 0));
     ("ArrowUp"%string, (0, -1)); ("ArrowDown"%string, (0, 1))] ->
  37 <= which e <= 40 -> keyCode e = which e ->
  editMode s && arrowKeyCommitMode s = false ->
  r_x1 (selection s) <> -1 -> r_x2 (selection s) <> -1 ->
  r_y1 (selection s) <> -1 -> r_y2 (selection s) <> -1 ->
  let acts := onGridKeyDown props s columns rows e in
  let sel' := selection (nextState s acts) in
  r_x2 sel' = Z.max 0 (r_x2 (selection s) + dx)
  /\ r_y2 sel' = Z.max 0 (r_y2 (selection s) + dy)
  /\ (if shiftKey e
      then r_x1 sel' = r_x1 (selection s) /\ r_y1 sel' = r_y1 (selection s)
      else r_x1 sel' = r_x2 sel' /\ r_y1 sel' = r_y2 sel')
  /\ onChangeCalls acts = [].
Proof.
  intros Hkey Hw Hcode Hmode Hx1 Hx2 Hy1 Hy2 acts sel'.
  destruct (arrow_is_no_clipboard_chord _ Hw) as [Hv Hc].
  assert (Hsel : (r_x1 (selection s) =? -1) || (r_x2 (selection s) =? -1)
                 || (r_y1 (selection s) =? -1) || (r_y2 (selection s) =? -1)
                 = false).
  { apply Z.eqb_neq in Hx1, Hx2, Hy1, Hy2.
    rewrite Hx1, Hx2, Hy1, Hy2. reflexivity. }
  unfold sel', acts, onGridKeyDown, startsEdit.
  rewrite Hmode, Hv, Hc, Hsel, Hcode.
  rewrite (proj2 (Z.leb_gt 48 (which e))) by lia.
  rewrite (proj2 (Z.leb_gt 96 (which e))) by lia.
  rewrite (proj2 (Z.leb_gt 65 (which e))) by lia.
  rewrite !andb_false_r.
  repeat (apply elem_of_cons in Hkey as [Hkey | Hkey]);
    [| | | | apply elem_of_nil in Hkey; contradiction];
    injection Hkey as -> -> ->;
    destruct (shiftKey e);
    cbn -[changeSelection nextState onChangeCalls Z.add Z.sub Z.max];
    rewrite changeSelection_selection, changeSelection_no_change;
    cbn -[Z.add Z.sub Z.max];
    repeat match goal with
           | |- context [?a <? 0] => destruct (Z.ltb_spec a 0)
           end;
    repeat split; lia.
Qed.

Lemma arrow_moves_and_clamps_witness :
  r_x2 (selection (nextState (selecting (mkRect 0 2 0 2))
          (onGridKeyDown plainProps (selecting (mkRect 0 2 0 2))
             sampleColumns sampleRows
             (mkKeyEvent "ArrowLeft" 37 37 false false false))))
  = Z.max 0 (0 + -1).
Proof.
  apply (arrow_moves_and_clamps plainProps (selecting (mkRect 0 2 0 2))
           sampleColumns sampleRows
           (mkKeyEvent "ArrowLeft" 37 37 false false false) (-1) 0).
  - right. left.
  - simpl. lia.
  - reflexivity.
  - reflexivity.
  - discriminate.
  - discriminate.
  - discriminate.
  - discriminate.
Defined.

(** X10. In the edit box, Enter, Tab and, when the edit was started by
    typing, the arrow keys commit: [onChange] receives one batch with the
    single record of the edit cell and the edit buffer, the edit cell is
    reset, and the selection collapses onto the cell next to its first
    corner in the key's direction, with no clamping at 0. *)
Theorem edit_commit_moves_selection props s columns rows e dx dy :
  onChange props = true ->
  (key e, (dx, dy)) ∈ [("Enter"%string, (0, 1)); ("Tab"%string, (1, 0))]
  \/ (arrowKeyCommitMode s = true
      /\ (key e, (dx, dy)) ∈
           [("ArrowRight"%string, (1, 0)); ("ArrowLeft"%string, (-1, 0));
            ("ArrowUp"%string, (0, -1)); ("ArrowDown"%string, (0, 1))]) ->
  let acts := onKeyDown props s columns rows e in
  onChangeCalls acts
  = [[mkChange (c_x (editCell s)) (c_y (editCell s)) (editValue s)]]
  /\ editCell (nextState s acts) = mkCell (-1) (-1)
  /\ selection (nextState s acts)
     = mkRect (r_x1 (selection s) + dx) (r_y1 (selection s) + dy)
              (r_x1 (selection s) + dx) (r_y1 (selection s) + dy).
Proof.
  intros Hcb Hkey acts. unfold acts, onKeyDown.
  destruct Hkey as [Hkey | [Hmode Hkey]]; [| rewrite Hmode];
    repeat (apply elem_of_cons in Hkey as [Hkey | Hkey]);
    try (apply elem_of_nil in Hkey; contradiction);
    injection Hkey as -> -> ->;
    cbn -[changeSelection nextState onChangeCalls Z.add Z.sub app
          commitEditingCell];
    rewrite ?andb_false_r;
    cbn -[changeSelection nextState onChangeCalls Z.add Z.sub app
          commitEditingCell];
    rewrite ?app_nil_r;
    rewrite !onChangeCalls_app, !nextState_app, changeSelection_no_change,
      changeSelection_selection_after, changeSelection_editCell_after;
    unfold commitEditingCell; rewrite Hcb;
    destruct s as [o sel k ec ev akc sh kd sp cr rr rsp csp bc];
    cbn -[Z.add Z.sub];
    repeat split; f_equal; lia.
Qed.

Lemma edit_commit_moves_selection_witness :
  onChangeCalls
    (onKeyDown plainProps
       (nextState initialState
          [SetSelection (mkRect 0 0 0 0); SetEditCell (mkCell 0 0);
           SetEditValue (VString "x"); SetArrowKeyCommitMode true])
       sampleColumns sampleRows
       (mkKeyEvent "ArrowLeft" 37 37 false false false))
  = [[mkChange 0 0 (VString "x")]]
  /\ selection
       (nextState
          (nextState initialState
             [SetSelection (mkRect 0 0 0 0); SetEditCell (mkCell 0 0);
              SetEditValue (VString "x"); SetArrowKeyCommitMode true])
          (onKeyDown plainProps
             (nextState initialState
                [SetSelection (mkRect 0 0 0 0); SetEditCell (mkCell 0 0);
                 SetEditValue (VString "x"); SetArrowKeyCommitMode true])
             sampleColumns sampleRows
             (mkKeyEvent "ArrowLeft" 37 37 false false false)))
     = mkRect (-1) 0 (-1) 0.
Proof.
  destruct (edit_commit_moves_selection plainProps
              (nextState initialState
                 [SetSelection (mkRect 0 0 0 0); SetEditCell (mkCell 0 0);
                  SetEditValue (VString "x"); SetArrowKeyCommitMode true])
              sampleColumns sampleRows
              (mkKeyEvent "ArrowLeft" 37 37 false false false) (-1) 0
              eq_refl ltac:(right; split; [reflexivity | right; left]))
    as (Hcalls & _ & Hsel).
  split; [exact Hcalls | exact Hsel].
Defined.

(** X11. Opening the editor with Enter on a cell that is not read-only
    and committing with Enter, nothing typed in between, writes the cell
    back: the edit cell of the next render is the first corner of the
    selection, and the commit hands [onChange] the single record of that
    cell with the value of [editData], the empty string standing for an
    absent one. *)
Theorem open_then_commit_writes_seed props s columns rows columns' rows' e :
  key e = "Enter"%string -> which e = 13 ->
  onChange props = true ->
  r_x1 (selection s) <> -1 -> r_x2 (selection s) <> -1 ->
  r_y1 (selection s) <> -1 -> r_y2 (selection s) <> -1 ->
  cellReadOnly props (r_x1 (selection s)) (r_y1 (selection s)) = false ->
  let opened := nextState s (onGridKeyDown props s columns rows e) in
  editCell opened = mkCell (r_x1 (selection s)) (r_y1 (selection s))
  /\ arrowKeyCommitMode opened = false
  /\ onChangeCalls (onKeyDown props opened columns' rows' e)
     = [[mkChange (r_x1 (selection s)) (r_y1 (selection s))
           match editData props (r_x1 (selection s)) (r_y1 (selection s)) with
           | VNull | VUndefined => VString ""
           | v => v
           end]].
Proof.
  intros Hkey Hw Hcb Hx1 Hx2 Hy1 Hy2 Hro opened.
  assert (Hsel : (r_x1 (selection s) =? -1) || (r_x2 (selection s) =? -1)
                 || (r_y1 (selection s) =? -1) || (r_y2 (selection s) =? -1)
                 = false).
  { apply Z.eqb_neq in Hx1, Hx2, Hy1, Hy2.
    rewrite Hx1, Hx2, Hy1, Hy2. reflexivity. }
  assert (Hopen : onGridKeyDown props s columns rows e
                  = startEditingCell props
                      (mkCell (r_x1 (selection s)) (r_y1 (selection s)))
                    ++ [SetArrowKeyCommitMode false]).
  { unfold onGridKeyDown, startsEdit. rewrite Hkey, Hw, Hsel, Hro.
    cbn -[startEditingCell]. rewrite !andb_false_r, !orb_true_r.
    reflexivity. }
  assert (Hopened :
    editCell opened = mkCell (r_x1 (selection s)) (r_y1 (selection s))
    /\ arrowKeyCommitMode opened = false
    /\ editValue opened
       = match editData props (r_x1 (selection s)) (r_y1 (selection s)) with
         | VNull | VUndefined => VString ""
         | v => v
         end).
  { unfold opened. rewrite Hopen. unfold startEditingCell. simpl.
    rewrite Hro. destruct s; simpl.
    repeat split; destruct (editData props _ _); reflexivity. }
  destruct Hopened as (Hcell & Hmode & Hvalue).
  split; [exact Hcell |]. split; [exact Hmode |].
  unfold onKeyDown, commitEditingCell. rewrite Hkey, Hcb, Hcell, Hvalue.
  cbn -[changeSelection onChangeCalls app].
  rewrite ?andb_false_r.
  cbn -[changeSelection onChangeCalls app].
  rewrite !onChangeCalls_app, changeSelection_no_change. reflexivity.
Qed.

Lemma open_then_commit_writes_seed_witness :
  onChangeCalls
    (onKeyDown plainProps
       (nextState (selecting (mkRect 1 2 1 2))
          (onGridKeyDown plainProps (selecting (mkRect 1 2 1 2))
             sampleColumns sampleRows
             (mkKeyEvent "Enter" 13 13 false false false)))
       sampleColumns sampleRows
       (mkKeyEvent "Enter" 13 13 false false false))
  = [[mkChange 1 2 (VString "")]].
Proof.
  apply (open_then_commit_writes_seed plainProps (selecting (mkRect 1 2 1 2))
           sampleColumns sampleRows sampleColumns sampleRows
           (mkKeyEvent "Enter" 13 13 false false false));
    reflexivity || discriminate.
Defined.

(** ** More on the clipboard bridge *)

Lemma split_no_sep sep str :
  hasChar sep str = false -> split sep str = [str].
Proof.
  induction str as [| c str IH]; simpl; [reflexivity |].
  intros H. apply orb_false_elim in H as [Hc Hrest].
  rewrite Hc, (IH Hrest). reflexivity.
Qed.

Lemma split_app sep a b :
  hasChar sep a = false ->
  split sep (a +:+ String sep b) = a :: split sep b.
Proof.
  induction a as [| c a IH]; simpl.
  - intros _. rewrite Ascii.eqb_refl. reflexivity.
  - intros H. apply orb_false_elim in H as [Hc Hrest].
    rewrite Hc, (IH Hrest). reflexivity.
Qed.

Lemma splitLines_no_break str :
  hasChar newline str = false -> hasChar carriageReturn str = false ->
  splitLines str = [str].
Proof.
  induction str as [| c str IH]; simpl; [reflexivity |].
  intros Hn Hr. apply orb_false_elim in Hn as [Hcn Hn].
  apply orb_false_elim in Hr as [Hcr Hr].
  rewrite Hcn, Hcr, (IH Hn Hr). reflexivity.
Qed.

Lemma splitLines_app a b :
  hasChar newline a = false -> hasChar carriageReturn a = false ->
  splitLines (a +:+ String newline b) = a :: splitLines b.
Proof.
  induction a as [| c a IH]; simpl.
  - intros _ _. reflexivity.
  - intros Hn Hr. apply orb_false_elim in Hn as [Hcn Hn].
    apply orb_false_elim in Hr as [Hcr Hr].
    rewrite Hcn, Hcr, (IH Hn Hr). reflexivity.
Qed.

Lemma hasChar_app c a b :
  hasChar c (a +:+ b) = hasChar c a || hasChar c b.
Proof.
  induction a as [| c' a IH]; simpl; [reflexivity |].
  rewrite IH, orb_assoc. reflexivity.
Qed.

Lemma hasChar_join c sep arr :
  hasChar c sep = false -> Forall (fun str => hasChar c str = false) arr ->
  hasChar c (join sep arr) = false.
Proof.
  intros Hsep Harr. induction Harr as [| str arr Hstr Harr IH];
    [reflexivity |].
  destruct arr as [| str' arr]; [exact Hstr |].
  change (join sep (str :: str' :: arr))
    with (str +:+ sep +:+ join sep (str' :: arr)).
  rewrite !hasChar_app, Hstr, Hsep, IH. reflexivity.
Qed.

(** Splitting undoes joining, when no cell holds a tab. *)
Lemma split_join row :
  row <> [] -> Forall (fun cell => hasChar tab cell = false) row ->
  split tab (join tabString row) = row.
Proof.
  intros Hne Hrow. induction Hrow as [| cell row Hcell Hrow IH];
    [congruence |].
  destruct row as [| cell' row]; [apply split_no_sep; exact Hcell |].
  change (join tabString (cell :: cell' :: row))
    with (cell +:+ String tab (join tabString (cell' :: row))).
  rewrite split_app by exact Hcell. f_equal. apply IH. discriminate.
Qed.

Lemma splitLines_join textRows :
  textRows <> [] ->
  Forall (fun row => hasChar newline row = false
                     /\ hasChar carriageReturn row = false) textRows ->
  splitLines (join newlineString textRows) = textRows.
Proof.
  intros Hne Hrows. induction Hrows as [| row rows [Hn Hr] Hrows IH];
    [congruence |].
  destruct rows as [| row' rows]; [apply splitLines_no_break; assumption |].
  change (join newlineString (row :: row' :: rows))
    with (row +:+ String newline (join newlineString (row' :: rows))).
  rewrite splitLines_app by assumption. f_equal. apply IH. discriminate.
Qed.

Lemma plainGrid_lines grid :
  plainGrid grid ->
  Forall (fun row => hasChar newline row = false
                     /\ hasChar carriageReturn row = false)
    (join tabString <$> grid).
Proof.
  intros Hgrid. apply Forall_fmap. eapply Forall_impl; [exact Hgrid |].
  intros row [_ Hrow]. simpl. split; apply hasChar_join;
    try reflexivity;
    (eapply Forall_impl; [exact Hrow |]); intros cell (_ & Hn & Hr);
    assumption.
Qed.

(** The loop of [parsePastedText] over the lines of a grid. *)
Lemma pasteRows_grid px py grid y0 x2 :
  plainGrid grid ->
  pasteRows px py (join tabString <$> grid) y0 x2
  = (foldl (fun acc row => Z.max acc (px + Z.of_nat (length row) - 1)) x2 grid,
     concat (imap (fun i row =>
                     imap (fun j cell =>
                             mkChange (px + Z.of_nat j)
                               (py + (y0 + Z.of_nat i)) (VString cell)) row)
               grid)).
Proof.
  intros Hgrid. revert y0 x2.
  induction Hgrid as [| row grid [Hne Hrow] Hgrid IH]; intros y0 x2;
    [reflexivity |].
  rewrite fmap_cons. cbn [pasteRows].
  rewrite split_join;
    [| exact Hne
     | eapply Forall_impl; [exact Hrow |]; intros cell (Ht & _); exact Ht].
  rewrite IH. cbn [foldl]. rewrite imap_cons. cbn [concat].
  f_equal.
  - f_equal. destruct (Z.gtb_spec (px + Z.of_nat (length row) - 1) x2); lia.
  - f_equal.
    + apply imap_ext. intros j cell _. do 2 f_equal. lia.
    + f_equal. apply imap_ext. intros i row' _. cbn [compose].
      apply imap_ext. intros j cell _. do 2 f_equal. lia.
Qed.

Lemma widest_nonneg grid : 0 <= widest grid.
Proof.
  unfold widest. induction grid as [| row grid IH];
    cbn [fmap list_fmap foldr]; lia.
Qed.

Lemma foldl_max_widest px grid x2 :
  px - 1 <= x2 ->
  foldl (fun acc row => Z.max acc (px + Z.of_nat (length row) - 1)) x2 grid
  = Z.max x2 (px + widest grid - 1).
Proof.
  revert x2. induction grid as [| row grid IH]; intros x2 Hx2.
  - unfold widest; simpl. lia.
  - cbn [foldl]. rewrite IH by lia.
    pose proof (widest_nonneg grid).
    unfold widest in *. cbn [fmap list_fmap foldr]. lia.
Qed.

Lemma widest_positive grid :
  grid <> [] -> plainGrid grid -> 1 <= widest grid.
Proof.
  intros Hne Hgrid. destruct Hgrid as [| row grid [Hrow _] _]; [congruence |].
  pose proof (widest_nonneg grid). unfold widest in *.
  cbn [fmap list_fmap foldr].
  destruct row as [| cell row]; [congruence |].
  cbn [length]. lia.
Qed.

(** [parsePastedText] on the text of a grid. *)
Lemma parsePastedText_grid props s columns rows px py grid :
  pasteLoc s = (px, py) -> px <> -1 -> py <> -1 ->
  grid <> [] -> plainGrid grid ->
  parsePastedText props s columns rows (gridText grid)
  = (if onChange props then [CallOnChange (gridChanges px py grid)] else [])
    ++ changeSelection props s columns rows px py
         (px + widest grid - 1) (py + Z.of_nat (length grid) - 1) false.
Proof.
  intros Hloc Hpx Hpy Hne Hgrid.
  rewrite (parsePastedText_anchored _ _ _ _ _ px py Hloc Hpx Hpy).
  unfold gridText.
  rewrite splitLines_join;
    [| destruct grid; [congruence | discriminate]
     | apply plainGrid_lines; exact Hgrid].
  rewrite pasteRows_grid by exact Hgrid. cbn [fst snd].
  rewrite foldl_max_widest by lia.
  pose proof (widest_positive grid Hne Hgrid).
  rewrite Z.max_r by lia. rewrite length_fmap.
  unfold gridChanges. do 3 f_equal.
Qed.

(** X12. Pasting the text of a grid of cells, rows joined by line feeds
    and cells by tabs, rows of any lengths, with the anchor at
    [(px, py)]: [onChange] receives one batch with one record per cell,
    row by row, the cell [j] of row [i] going to [(px + j, py + i)]; the
    selection becomes the rectangle from the anchor that is as wide as
    the longest row and as high as the number of rows. *)
Theorem paste_writes_grid props s columns rows px py grid :
  pasteLoc s = (px, py) -> px <> -1 -> py <> -1 ->
  onChange props = true ->
  grid <> [] -> plainGrid grid ->
  let acts := parsePastedText props s columns rows (gridText grid) in
  onChangeCalls acts = [gridChanges px py grid]
  /\ selection (nextState s acts)
     = mkRect px py (px + widest grid - 1) (py + Z.of_nat (length grid) - 1).
Proof.
  intros Hloc Hpx Hpy Hcb Hne Hgrid acts. unfold acts.
  rewrite (parsePastedText_grid _ _ _ _ px py grid) by assumption.
  rewrite Hcb, onChangeCalls_app, nextState_app, changeSelection_no_change,
    changeSelection_selection_after.
  split; reflexivity.
Qed.

Lemma paste_writes_grid_witness :
  onChangeCalls
    (parsePastedText plainProps (selecting (mkRect 2 3 2 3))
       sampleColumns sampleRows (gridText [["a"; "b"; "c"]; ["d"]]%string))
  = [gridChanges 2 3 [["a"; "b"; "c"]; ["d"]]%string]
  /\ selection
       (nextState (selecting (mkRect 2 3 2 3))
          (parsePastedText plainProps (selecting (mkRect 2 3 2 3))
             sampleColumns sampleRows
             (gridText [["a"; "b"; "c"]; ["d"]]%string)))
     = mkRect 2 3 (2 + widest [["a"; "b"; "c"]; ["d"]]%string - 1)
         (3 + Z.of_nat (length [["a"; "b"; "c"]; ["d"]]%string) - 1).
Proof.
  apply (paste_writes_grid plainProps (selecting (mkRect 2 3 2 3))
           sampleColumns sampleRows 2 3 [["a"; "b"; "c"]; ["d"]]%string).
  - reflexivity.
  - discriminate.
  - discriminate.
  - reflexivity.
  - discriminate.
  - repeat constructor; discriminate.
Defined.

Lemma string_append_assoc (a b c : string) :
  (a +:+ b) +:+ c = a +:+ b +:+ c.
Proof.
  induction a as [| ch a IH]; [reflexivity |].
  change (String ch ((a +:+ b) +:+ c) = String ch (a +:+ b +:+ c)).
  f_equal. exact IH.
Qed.

Lemma join_newline_snoc textRows :
  textRows <> [] ->
  join newlineString (textRows ++ [EmptyString])
  = join newlineString textRows +:+ newlineString.
Proof.
  induction textRows as [| row rows IH]; [congruence |]. intros _.
  destruct rows as [| row' rows].
  - simpl. reflexivity.
  - change (join newlineString ((row :: row' :: rows) ++ [EmptyString]))
      with (row +:+ newlineString
            +:+ join newlineString ((row' :: rows) ++ [EmptyString])).
    rewrite IH by discriminate.
    change (join newlineString (row :: row' :: rows))
      with (row +:+ newlineString +:+ join newlineString (row' :: rows)).
    rewrite !string_append_assoc. reflexivity.
Qed.

Lemma widest_app grid grid' :
  widest (grid ++ grid') = Z.max (widest grid) (widest grid').
Proof.
  pose proof (widest_nonneg grid').
  unfold widest in *. induction grid as [| row grid IH].
  - simpl. lia.
  - rewrite <- app_comm_cons. cbn [fmap list_fmap foldr] in *. lia.
Qed.

(** X13. A text that ends with a line feed is pasted as its grid and one
    more row holding one empty cell: besides the records of the grid,
    the batch ends with a record that writes the empty string in the
    first column of the row below, and the selection is one row
    higher. *)
Theorem paste_trailing_line_feed props s columns rows px py grid :
  pasteLoc s = (px, py) -> px <> -1 -> py <> -1 ->
  onChange props = true ->
  grid <> [] -> plainGrid grid ->
  let acts :=
    parsePastedText props s columns rows (gridText grid +:+ newlineString) in
  onChangeCalls acts
  = [gridChanges px py grid
     ++ [mkChange px (py + Z.of_nat (length grid)) (VString "")]]
  /\ selection (nextState s acts)
     = mkRect px py (px + widest grid - 1) (py + Z.of_nat (length grid)).
Proof.
  intros Hloc Hpx Hpy Hcb Hne Hgrid acts.
  assert (Hplain : plainGrid (grid ++ [[EmptyString]])).
  { apply Forall_app. split; [exact Hgrid |].
    repeat constructor; discriminate. }
  assert (Htext : gridText grid +:+ newlineString
                  = gridText (grid ++ [[EmptyString]])).
  { unfold gridText. rewrite fmap_app. cbn [fmap list_fmap join].
    rewrite join_newline_snoc; [reflexivity |].
    destruct grid; [congruence | discriminate]. }
  unfold acts. rewrite Htext.
  rewrite (parsePastedText_grid _ _ _ _ px py (grid ++ [[EmptyString]]));
    [| assumption | assumption | assumption
     | destruct grid; discriminate | exact Hplain].
  rewrite Hcb, onChangeCalls_app, nextState_app, changeSelection_no_change,
    changeSelection_selection_after.
  cbn [onChangeCalls omap app]. split.
  - unfold gridChanges. rewrite imap_app, concat_app.
    cbn [imap concat app]. rewrite !Z.add_0_r, Nat.add_0_r. reflexivity.
  - pose proof (widest_positive grid Hne Hgrid).
    rewrite widest_app, length_app. f_equal.
    + unfold widest at 2. cbn [fmap list_fmap foldr length]. lia.
    + cbn [length]. lia.
Qed.

Lemma paste_trailing_line_feed_witness :
  onChangeCalls
    (parsePastedText plainProps (selecting (mkRect 2 3 2 3))
       sampleColumns sampleRows
       (gridText [["a"; "b"]]%string +:+ newlineString))
  = [gridChanges 2 3 [["a"; "b"]]%string
     ++ [mkChange 2 (3 + Z.of_nat (length [["a"; "b"]]%string)) (VString "")]]
  /\ selection
       (nextState (selecting (mkRect 2 3 2 3))
          (parsePastedText plainProps (selecting (mkRect 2 3 2 3))
             sampleColumns sampleRows
             (gridText [["a"; "b"]]%string +:+ newlineString)))
     = mkRect 2 3 (2 + widest [["a"; "b"]]%string - 1)
         (3 + Z.of_nat (length [["a"; "b"]]%string)).
Proof.
  apply (paste_trailing_line_feed plainProps (selecting (mkRect 2 3 2 3))
           sampleColumns sampleRows 2 3 [["a"; "b"]]%string).
  - reflexivity.
  - discriminate.
  - discriminate.
  - reflexivity.
  - discriminate.
  - repeat constructor; discriminate.
Defined.

Lemma pasteLoc_unset s :
  (fst (pasteLoc s) = -1 <-> r_x1 (selection s) = -1)
  /\ (snd (pasteLoc s) = -1 <-> r_y1 (selection s) = -1).
Proof.
  unfold pasteLoc. simpl.
  destruct (Z.eqb_spec (r_x1 (selection s)) (-1)),
           (Z.eqb_spec (r_x2 (selection s)) (-1)),
           (Z.eqb_spec (r_y1 (selection s)) (-1)),
           (Z.eqb_spec (r_y2 (selection s)) (-1)); simpl; lia.
Qed.

(** X14. A paste is dropped, changing nothing and calling nothing,
    exactly when the first corner of the selection is unset on an axis:
    then neither the text path nor the markup path does anything; with
    the first corner set, a text paste always acts. *)
Theorem paste_dropped_without_anchor props s columns rows text div :
  (parsePastedText props s columns rows text = []
   <-> r_x1 (selection s) = -1 \/ r_y1 (selection s) = -1)
  /\ (r_x1 (selection s) = -1 \/ r_y1 (selection s) = -1 ->
      parsePastedHtml props s columns rows div = []).
Proof.
  destruct (pasteLoc_unset s) as [Hx Hy].
  unfold parsePastedText, parsePastedHtml.
  destruct (pasteLoc s) as [px py]. simpl in Hx, Hy.
  destruct (Z.eqb_spec px (-1)) as [Hpx | Hpx];
    destruct (Z.eqb_spec py (-1)) as [Hpy | Hpy]; simpl;
    try (split; [split; [tauto | reflexivity] | reflexivity]).
  split.
  - destruct (pasteRows px py (splitLines text) 0 px) as [x2 changes].
    split.
    + intros Hnil. exfalso. unfold changeSelection in Hnil.
      destruct (onChange props); discriminate.
    + tauto.
  - tauto.
Qed.

Lemma imap_fmap_seqZ {A B} (F : Z -> A -> B) (G : Z -> A) a (n : nat) :
  imap (fun i v => F (a + Z.of_nat i) v) (G <$> seqZ a (Z.of_nat n))
  = (fun z => F z (G z)) <$> seqZ a (Z.of_nat n).
Proof.
  revert a. induction n as [| n IH]; intros a; [reflexivity |].
  rewrite Nat2Z.inj_succ, seqZ_cons by lia. rewrite Z.pred_succ.
  rewrite !fmap_cons, imap_cons. f_equal.
  - rewrite Z.add_0_r. reflexivity.
  - rewrite <- IH. apply imap_ext. intros i v _. cbn [compose].
    f_equal. lia.
Qed.

Lemma imap_fmap_upTo {A B} (F : Z -> A -> B) (G : Z -> A) lo hi :
  imap (fun i v => F (lo + Z.of_nat i) v) (G <$> upTo lo hi)
  = (fun z => F z (G z)) <$> upTo lo hi.
Proof.
  unfold upTo. destruct (Z_le_gt_dec (hi - lo + 1) 0) as [Hle | Hgt].
  - rewrite seqZ_nil by lia. reflexivity.
  - rewrite <- (Z2Nat.id (hi - lo + 1)) by lia. apply imap_fmap_seqZ.
Qed.

Lemma flat_map_concat_fmap {A B} (f : A -> list B) l :
  flat_map f l = concat (f <$> l).
Proof. induction l as [| x l IH]; simpl; [reflexivity | rewrite IH; reflexivity]. Qed.

(** The records of a grid read off a rectangle of cells. *)
Lemma gridChanges_upTo (cellText : Z -> Z -> string) x1 x2 y1 y2 :
  gridChanges x1 y1
    ((fun y => (fun x => cellText x y) <$> upTo x1 x2) <$> upTo y1 y2)
  = flat_map (fun y => (fun x => mkChange x y (VString (cellText x y)))
                         <$> upTo x1 x2) (upTo y1 y2).
Proof.
  unfold gridChanges. rewrite flat_map_concat_fmap. f_equal.
  rewrite (imap_fmap_upTo
             (fun y row => imap (fun j cell =>
                                   mkChange (x1 + Z.of_nat j) y (VString cell))
                             row)
             (fun y => (fun x => cellText x y) <$> upTo x1 x2)).
  apply list_fmap_ext. intros _ y _.
  apply (imap_fmap_upTo (fun x cell => mkChange x y (VString cell))
           (fun x => cellText x y)).
Qed.

Lemma widest_uniform {A} (f : A -> list string) (l : list A) w :
  l <> [] -> 0 <= w -> (forall a, Z.of_nat (length (f a)) = w) ->
  widest (f <$> l) = w.
Proof.
  intros Hne Hw Hlen. unfold widest.
  induction l as [| a l IH]; [congruence |].
  cbn [fmap list_fmap foldr]. rewrite Hlen.
  destruct l as [| a' l]; [simpl; lia |].
  rewrite IH by discriminate. lia.
Qed.

Lemma length_upTo lo hi : lo <= hi -> Z.of_nat (length (upTo lo hi)) = hi - lo + 1.
Proof. intros H. unfold upTo. rewrite length_seqZ. lia. Qed.

(** What [numberToString] gives on numbers whose text is known: whole
    numbers up to [2^53] in full, larger ones with the digits that tell
    them from their neighbours, padded with zeros, and from [10^21] on in
    exponent notation. *)
Lemma numberToString_samples :
  numberToString 12 = "12"
  /\ numberToString (-7) = "-7"
  /\ numberToString (2 ^ 53) = "9007199254740992"
  /\ numberToString (2 ^ 64) = "18446744073709552000"
  /\ numberToString (10 ^ 21) = "1e+21"
  /\ numberToString (2 ^ 70) = "1.1805916207174113e+21".
Proof. vm_compute. repeat split. Qed.

(** Up to [2^53] a whole number is a JavaScript number; one pixel past
    it is not, and the nearest one is [2^53] again. *)
Lemma nearestDouble_exact v : 0 <= v <= maxExact -> nearestDouble v = v.
Proof.
  intros Hv. unfold nearestDouble.
  destruct (Z.ltb_spec v maxExact) as [_ | Hge]; [reflexivity |].
  assert (v = maxExact) as -> by lia. reflexivity.
Qed.

Lemma nearestDouble_stalls : nearestDouble (maxExact + 1) = maxExact.
Proof. reflexivity. Qed.

(** X15. Copying a selection and pasting the copy in place writes the
    selection back: when the texts of the selected cells hold no tab and
    no line break, the text [setCopyPasteText] stores, handed to
    [parsePastedText] with the selection unchanged, gives [onChange] one
    record per selected cell, row by row, each with the text copied from
    that very cell (a number as [join] prints it, [10^21] as [1e+21]),
    and leaves the selection the same rectangle, its corners in order. *)
Theorem copy_then_paste_in_place props s columns rows :
  onChange props = true ->
  r_x1 (selection s) <> -1 -> r_x2 (selection s) <> -1 ->
  r_y1 (selection s) <> -1 -> r_y2 (selection s) <> -1 ->
  (forall x y, covers (selection s) x y ->
     plainCell (copiedText (editData props x y))) ->
  let x1 := Z.min (r_x1 (selection s)) (r_x2 (selection s)) in
  let x2 := Z.max (r_x1 (selection s)) (r_x2 (selection s)) in
  let y1 := Z.min (r_y1 (selection s)) (r_y2 (selection s)) in
  let y2 := Z.max (r_y1 (selection s)) (r_y2 (selection s)) in
  exists text,
    setCopyPasteText props s = Some text
    /\ onChangeCalls (parsePastedText props s columns rows text)
       = [flat_map (fun y =>
                      (fun x => mkChange x y
                                  (VString (copiedText (editData props x y))))
                      <$> upTo x1 x2) (upTo y1 y2)]
    /\ selection (nextState s (parsePastedText props s columns rows text))
       = mkRect x1 y1 x2 y2.
Proof.
  intros Hcb Hx1 Hx2 Hy1 Hy2 Hplain x1 x2 y1 y2.
  set (grid := (fun y => (fun x => copiedText (editData props x y))
                           <$> upTo x1 x2) <$> upTo y1 y2).
  assert (Hxs : upTo x1 x2 <> []).
  { rewrite (upTo_cons x1 x2) by (unfold x1, x2; lia). discriminate. }
  assert (Hys : upTo y1 y2 <> []).
  { rewrite (upTo_cons y1 y2) by (unfold y1, y2; lia). discriminate. }
  assert (Hne : grid <> []).
  { unfold grid. destruct (upTo y1 y2); [congruence | discriminate]. }
  assert (Hgrid : plainGrid grid).
  { unfold plainGrid, grid. apply Forall_fmap, Forall_forall.
    intros y Hy. simpl. split.
    - destruct (upTo x1 x2); [congruence | discriminate].
    - apply Forall_fmap, Forall_forall. intros x Hx. simpl.
      apply Hplain. apply elem_of_upTo in Hx, Hy. unfold covers. lia. }
  assert (Hloc : pasteLoc s = (x1, y1)).
  { unfold pasteLoc. apply Z.eqb_neq in Hx1, Hx2, Hy1, Hy2.
    rewrite Hx1, Hx2, Hy1, Hy2. reflexivity. }
  assert (Hcopy : setCopyPasteText props s = Some (gridText grid)).
  { unfold setCopyPasteText. apply Z.eqb_neq in Hx1, Hx2, Hy1, Hy2.
    rewrite Hx1, Hx2, Hy1, Hy2. simpl. rewrite !ordered_min_max.
    unfold gridText, grid. rewrite <- list_fmap_compose. reflexivity. }
  exists (gridText grid). split; [exact Hcopy |].
  rewrite (parsePastedText_grid _ _ _ _ x1 y1 grid Hloc); try assumption.
  2:{ unfold x1.
      destruct (Z.min_spec (r_x1 (selection s)) (r_x2 (selection s))); lia. }
  2:{ unfold y1.
      destruct (Z.min_spec (r_y1 (selection s)) (r_y2 (selection s))); lia. }
  rewrite Hcb, onChangeCalls_app, nextState_app, changeSelection_no_change,
    changeSelection_selection_after.
  cbn [onChangeCalls omap app]. split.
  - unfold grid. rewrite gridChanges_upTo. reflexivity.
  - f_equal.
    + unfold grid. rewrite (widest_uniform _ _ (x2 - x1 + 1)).
      * lia.
      * exact Hys.
      * unfold x1, x2. lia.
      * intros y. rewrite length_fmap. apply length_upTo.
        unfold x1, x2. lia.
    + unfold grid. rewrite length_fmap, length_upTo by (unfold y1, y2; lia).
      lia.
Qed.

Lemma copy_then_paste_in_place_witness :
  exists text,
    setCopyPasteText ledgerProps (selecting (mkRect 1 1 0 0)) = Some text
    /\ onChangeCalls
         (parsePastedText ledgerProps (selecting (mkRect 1 1 0 0))
            sampleColumns sampleRows text)
       = [[mkChange 0 0 (VString "1e+21"); mkChange 1 0 (VString "a");
           mkChange 0 1 (VString ""); mkChange 1 1 (VString "12")]]
    /\ selection
         (nextState (selecting (mkRect 1 1 0 0))
            (parsePastedText ledgerProps (selecting (mkRect 1 1 0 0))
               sampleColumns sampleRows text))
       = mkRect 0 0 1 1.
Proof.
  apply (copy_then_paste_in_place ledgerProps (selecting (mkRect 1 1 0 0))
           sampleColumns sampleRows);
    try reflexivity; try discriminate.
  intros x y [Hx Hy]. cbn in Hx, Hy.
  assert (Hx' : x = 0 \/ x = 1) by lia.
  assert (Hy' : y = 0 \/ y = 1) by lia.
  destruct Hx' as [-> | ->], Hy' as [-> | ->]; vm_compute; repeat split.
Defined.

(** ** The markup path of the clipboard bridge *)

Lemma pasteCell_cells x y changes cells :
  foldl pasteCell (x, y, changes) (td <$> cells)
  = (x + Z.of_nat (length cells), y,
     changes ++ imap (fun j cell => mkChange (x + Z.of_nat j) y (VString cell))
                  cells).
Proof.
  revert x changes. induction cells as [| cell cells IH]; intros x changes.
  - simpl. rewrite Z.add_0_r, app_nil_r. reflexivity.
  - rewrite fmap_cons. cbn [foldl].
    change (pasteCell (x, y, changes) (td cell))
      with (x + 1, y, changes ++ [mkChange x y (VString cell)]).
    rewrite IH, imap_cons, <- app_assoc. cbn [length app].
    change (Z.of_nat 0) with 0. rewrite Z.add_0_r.
    f_equal; [f_equal; lia |]. do 2 f_equal.
    apply imap_ext. intros j c _. cbn [compose]. f_equal. lia.
Qed.

Lemma pasteTableRow_rows px x0 y changes grid :
  foldl (pasteTableRow px) (x0, y, changes) (tr <$> grid)
  = (match last grid with
     | Some row => px + Z.of_nat (length row)
     | None => x0
     end,
     y + Z.of_nat (length grid),
     changes ++ concat (imap (fun i row =>
                                imap (fun j cell =>
                                        mkChange (px + Z.of_nat j)
                                          (y + Z.of_nat i) (VString cell)) row)
                          grid)).
Proof.
  revert x0 y changes.
  induction grid as [| row grid IH]; intros x0 y changes.
  - simpl. rewrite Z.add_0_r, app_nil_r. reflexivity.
  - rewrite fmap_cons. cbn [foldl].
    change (pasteTableRow px (x0, y, changes) (tr row))
      with (let '(x, y, changes) :=
              foldl pasteCell (px, y, changes) (td <$> row) in
            (x, y + 1, changes)).
    rewrite pasteCell_cells, IH. f_equal; [f_equal |].
    + destruct grid as [| row' grid]; [reflexivity |].
      change (last (row :: row' :: grid)) with (last (row' :: grid)).
      destruct (last (row' :: grid)) eqn:Hlast; [reflexivity |].
      apply last_None in Hlast. discriminate.
    + cbn [length]. lia.
    + rewrite <- app_assoc, imap_cons. cbn [concat].
      change (Z.of_nat 0) with 0. rewrite Z.add_0_r.
      apply (f_equal (app changes)), (f_equal (app _)),
        (f_equal (@concat Change)).
      apply imap_ext. intros i row' _. cbn [compose].
      apply imap_ext. intros j c _. f_equal; lia.
Qed.

(** [parsePastedHtml] on markup whose first table has one body of rows of
    data cells. *)
Lemma parsePastedHtml_table props s columns rows px py div grid :
  pasteLoc s = (px, py) -> px <> -1 -> py <> -1 ->
  findTable div = Some (tableOf grid) ->
  parsePastedHtml props s columns rows div
  = (if onChange props then [CallOnChange (gridChanges px py grid)] else [])
    ++ changeSelection props s columns rows px py
         (px + Z.of_nat (length (default [] (last grid))) - 1)
         (py + Z.of_nat (length grid) - 1) false.
Proof.
  intros Hloc Hpx Hpy Hfind. unfold parsePastedHtml.
  rewrite Hloc, Hfind.
  apply Z.eqb_neq in Hpx, Hpy. rewrite Hpx, Hpy.
  cbn [orb tableOf children foldl].
  unfold pasteTableChild.
  cbn [nodeName children String.eqb Ascii.eqb Bool.eqb].
  rewrite pasteTableRow_rows. cbn [app].
  unfold gridChanges.
  destruct (last grid) as [row |] eqn:Hlast; cbn [default length];
    repeat f_equal; lia.
Qed.

(** X16. Pasting markup whose first table has one body of rows of data
    cells, rows of any lengths: [onChange] receives one batch with one
    record per data cell, the cell [j] of row [i] going to
    [(px + j, py + i)]; the selection ends, on the right, with the last
    row, not the longest one.  A table without rows still hands
    [onChange] an empty batch and leaves the selection
    [(px, py)-(px-1, py-1)]. *)
Theorem paste_table_follows_last_row props s columns rows px py div grid :
  pasteLoc s = (px, py) -> px <> -1 -> py <> -1 ->
  onChange props = true ->
  findTable div = Some (tableOf grid) ->
  let acts := parsePastedHtml props s columns rows div in
  onChangeCalls acts = [gridChanges px py grid]
  /\ selection (nextState s acts)
     = mkRect px py
         (px + Z.of_nat (length (default [] (last grid))) - 1)
         (py + Z.of_nat (length grid) - 1).
Proof.
  intros Hloc Hpx Hpy Hcb Hfind acts. unfold acts.
  rewrite (parsePastedHtml_table _ _ _ _ px py div grid) by assumption.
  rewrite Hcb, onChangeCalls_app, nextState_app, changeSelection_no_change,
    changeSelection_selection_after.
  split; reflexivity.
Qed.

Lemma paste_table_follows_last_row_witness :
  onChangeCalls
    (parsePastedHtml plainProps (selecting (mkRect 2 3 2 3))
       sampleColumns sampleRows
       (mkNode "DIV" "" [mkNode "META" "" [];
                         tableOf [["a"; "b"; "c"]; ["d"]]%string]))
  = [gridChanges 2 3 [["a"; "b"; "c"]; ["d"]]%string]
  /\ selection
       (nextState (selecting (mkRect 2 3 2 3))
          (parsePastedHtml plainProps (selecting (mkRect 2 3 2 3))
             sampleColumns sampleRows
             (mkNode "DIV" "" [mkNode "META" "" [];
                               tableOf [["a"; "b"; "c"]; ["d"]]%string])))
     = mkRect 2 3 (2 + 1 - 1) (3 + 2 - 1).
Proof.
  apply (paste_table_follows_last_row plainProps (selecting (mkRect 2 3 2 3))
           sampleColumns sampleRows 2 3
           (mkNode "DIV" "" [mkNode "META" "" [];
                             tableOf [["a"; "b"; "c"]; ["d"]]%string])
           [["a"; "b"; "c"]; ["d"]]%string);
    reflexivity || discriminate.
Defined.

(** X17. A rectangular grid is pasted the same way from markup and from
    text: with every row of the same length and no separator inside a
    cell, [parsePastedHtml] on markup whose first table holds the grid
    does exactly what [parsePastedText] does on the text of the grid. *)
Theorem paste_markup_agrees_with_text props s columns rows px py div grid w :
  pasteLoc s = (px, py) -> px <> -1 -> py <> -1 ->
  grid <> [] -> plainGrid grid ->
  Forall (fun row => length row = w) grid ->
  findTable div = Some (tableOf grid) ->
  parsePastedHtml props s columns rows div
  = parsePastedText props s columns rows (gridText grid).
Proof.
  intros Hloc Hpx Hpy Hne Hgrid Hrect Hfind.
  rewrite (parsePastedHtml_table _ _ _ _ px py div grid) by assumption.
  rewrite (parsePastedText_grid _ _ _ _ px py grid) by assumption.
  assert (Hlast : Z.of_nat (length (default [] (last grid))) = Z.of_nat w).
  { destruct (last grid) as [row |] eqn:Hl.
    - apply last_Some_elem_of in Hl.
      rewrite Forall_forall in Hrect. simpl. rewrite (Hrect _ Hl).
      reflexivity.
    - apply last_None in Hl. congruence. }
  assert (Hwide : widest grid = Z.of_nat w).
  { clear Hgrid Hfind Hlast. unfold widest.
    induction Hrect as [| row grid Hrow Hrect IH]; [congruence |].
    cbn [fmap list_fmap foldr]. rewrite Hrow.
    destruct grid as [| row' grid]; [simpl; lia |].
    rewrite IH by discriminate. lia. }
  rewrite Hlast, Hwide. reflexivity.
Qed.

Lemma paste_markup_agrees_with_text_witness :
  parsePastedHtml plainProps (selecting (mkRect 2 3 2 3))
    sampleColumns sampleRows
    (mkNode "DIV" "" [tableOf [["a"; "b"]; ["c"; "d"]]%string])
  = parsePastedText plainProps (selecting (mkRect 2 3 2 3))
      sampleColumns sampleRows (gridText [["a"; "b"]; ["c"; "d"]]%string).
Proof.
  apply (paste_markup_agrees_with_text plainProps
           (selecting (mkRect 2 3 2 3)) sampleColumns sampleRows 2 3
           (mkNode "DIV" "" [tableOf [["a"; "b"]; ["c"; "d"]]%string])
           [["a"; "b"]; ["c"; "d"]]%string 2%nat);
    try reflexivity; try discriminate.
  - repeat constructor; discriminate.
  - repeat constructor.
Defined.

(** X18. When the clipboard offers markup, [onPaste] never looks at the
    plain text: if the markup holds no table, a paste into the hidden
    text area only cancels the browser's default and nothing is written
    or selected, whatever plain text the clipboard also holds. *)
Theorem markup_without_table_blocks_text props s columns rows
    types div text :
  "text/html"%string ∈ types ->
  findTable div = None ->
  onPaste props s columns rows true types div text = [PreventDefault].
Proof.
  intros Htype Hfind. unfold onPaste.
  assert (Hhas : existsb (String.eqb "text/html") types = true).
  { apply existsb_exists. exists "text/html"%string.
    split; [apply list_elem_of_In; exact Htype | apply String.eqb_refl]. }
  rewrite Hhas. unfold parsePastedHtml. rewrite Hfind.
  destruct (pasteLoc s) as [px py].
  destruct (_ || _); reflexivity.
Qed.

Lemma markup_without_table_blocks_text_witness :
  onPaste plainProps (selecting (mkRect 2 3 2 3)) sampleColumns sampleRows
    true ["text/html"; "text/plain"]%string
    (mkNode "DIV" "" [mkNode "P" "hello" []]) "hello"
  = [PreventDefault].
Proof.
  apply markup_without_table_blocks_text.
  - left.
  - reflexivity.
Defined.

(** ** More on the fill handle *)

Lemma fillRows_cells props ys xs sy1 sy2 srcY x y :
  (exists v, mkChange x y v ∈ fillRows props ys xs sy1 sy2 srcY)
  <-> x ∈ xs /\ y ∈ ys.
Proof.
  revert srcY. induction ys as [| y' ys IH]; intros srcY; cbn [fillRows].
  - split.
    + intros (v & Hv). apply elem_of_nil in Hv. contradiction.
    + intros [_ Hy]. apply elem_of_nil in Hy. contradiction.
  - split.
    + intros (v & Hv). apply elem_of_app in Hv as [Hv | Hv].
      * apply list_elem_of_fmap in Hv as (x' & Heq & Hx').
        injection Heq as -> -> _. split; [exact Hx' | left].
      * destruct (proj1 (IH _) (ex_intro _ v Hv)) as [Hx Hy].
        split; [exact Hx | right; exact Hy].
    + intros [Hx Hy]. apply elem_of_cons in Hy as [-> | Hy].
      * exists (sourceData props x srcY). apply elem_of_app. left.
        apply list_elem_of_fmap. eauto.
      * destruct (proj2 (IH (if srcY + 1 >? sy2 then sy1 else srcY + 1))
                    (conj Hx Hy)) as (v & Hv).
        exists v. apply elem_of_app. right. exact Hv.
Qed.

Lemma fillColumns_cells props xs ys sx1 sx2 srcX x y :
  (exists v, mkChange x y v ∈ fillColumns props xs ys sx1 sx2 srcX)
  <-> x ∈ xs /\ y ∈ ys.
Proof.
  revert srcX. induction xs as [| x' xs IH]; intros srcX; cbn [fillColumns].
  - split.
    + intros (v & Hv). apply elem_of_nil in Hv. contradiction.
    + intros [Hx _]. apply elem_of_nil in Hx. contradiction.
  - split.
    + intros (v & Hv). apply elem_of_app in Hv as [Hv | Hv].
      * apply list_elem_of_fmap in Hv as (y' & Heq & Hy').
        injection Heq as -> -> _. split; [left | exact Hy'].
      * destruct (proj1 (IH _) (ex_intro _ v Hv)) as [Hx Hy].
        split; [right; exact Hx | exact Hy].
    + intros [Hx Hy]. apply elem_of_cons in Hx as [-> | Hx].
      * exists (sourceData props srcX y). apply elem_of_app. left.
        apply list_elem_of_fmap. eauto.
      * destruct (proj2 (IH (if srcX + 1 >? sx2 then sx1 else srcX + 1))
                    (conj Hx Hy)) as (v & Hv).
        exists v. apply elem_of_app. right. exact Hv.
Qed.

(** The cells a released drag writes, by the corners of the fixed region
    and of the dragged area, both taken in order. *)
Lemma knobChanges_cells props s x y :
  let sx1 := Z.min (r_x1 (selection s)) (r_x2 (selection s)) in
  let sx2 := Z.max (r_x1 (selection s)) (r_x2 (selection s)) in
  let sy1 := Z.min (r_y1 (selection s)) (r_y2 (selection s)) in
  let sy2 := Z.max (r_y1 (selection s)) (r_y2 (selection s)) in
  let kx1 := Z.min (r_x1 (knobArea s)) (r_x2 (knobArea s)) in
  let kx2 := Z.max (r_x1 (knobArea s)) (r_x2 (knobArea s)) in
  let ky1 := Z.min (r_y1 (knobArea s)) (r_y2 (knobArea s)) in
  let ky2 := Z.max (r_y1 (knobArea s)) (r_y2 (knobArea s)) in
  (exists v, mkChange x y v ∈ knobChanges props s)
  <-> (kx2 - kx1 = sx2 - sx1 /\ kx1 <= x <= kx2
       /\ ((ky1 = sy1 /\ sy2 + 1 <= y <= ky2)
           \/ (ky1 <> sy1 /\ ky1 <= y <= sy1 - 1)))
      \/ (kx2 - kx1 <> sx2 - sx1 /\ ky1 <= y <= ky2
          /\ ((kx1 = sx1 /\ sx2 + 1 <= x <= kx2)
              \/ (kx1 <> sx1 /\ kx1 <= x <= sx1 - 1))).
Proof.
  intros sx1 sx2 sy1 sy2 kx1 kx2 ky1 ky2.
  unfold knobChanges. rewrite !ordered_min_max.
  fold sx1 sx2 sy1 sy2 kx1 kx2 ky1 ky2.
  destruct (Z.eqb_spec (kx2 - kx1) (sx2 - sx1)) as [Hw | Hw].
  - destruct (Z.eqb_spec ky1 sy1) as [Hy | Hy];
      rewrite fillRows_cells, !elem_of_upTo; lia.
  - destruct (Z.eqb_spec kx1 sx1) as [Hx | Hx];
      rewrite fillColumns_cells, !elem_of_upTo; lia.
Qed.

(** X19. A released fill-handle drag never writes into the fixed region:
    whatever the selection and the dragged area are, no record of the
    batch addresses a cell of the selection. *)
Theorem fill_never_overwrites_its_source props s c :
  c ∈ knobChanges props s ->
  ~ covers (selection s) (ch_x c) (ch_y c).
Proof.
  intros Hc Hcov.
  assert (Hex : exists v, mkChange (ch_x c) (ch_y c) v ∈ knobChanges props s)
    by (exists (ch_value c); destruct c; exact Hc).
  apply knobChanges_cells in Hex. unfold covers in Hcov. lia.
Qed.

Lemma fill_never_overwrites_its_source_witness :
  ~ covers (selection (dragging (mkRect 0 0 1 1) (mkRect 0 0 1 4))) 0 2.
Proof.
  apply (fill_never_overwrites_its_source fillProps
           (dragging (mkRect 0 0 1 1) (mkRect 0 0 1 4))
           (mkChange 0 2 (VNumber 1))).
  left.
Defined.

(** The horizontal loop cycles through the columns of the fixed region
    as the vertical one does through its rows. *)
Lemma fillColumns_cycle props xs ys sx1 sx2 srcX :
  sx1 <= srcX <= sx2 ->
  fillColumns props xs ys sx1 sx2 srcX
  = concat (imap (fun k x =>
                    (fun y => mkChange x y
                       (sourceData props
                          (sx1 + (srcX - sx1 + Z.of_nat k) `mod` (sx2 - sx1 + 1))
                          y))
                    <$> ys) xs).
Proof.
  revert srcX. induction xs as [| x xs IH]; intros srcX Hsrc; [reflexivity |].
  cbn [fillColumns]. rewrite imap_cons. cbn [concat]. f_equal.
  - rewrite Z.add_0_r, Z.mod_small by lia.
    replace (sx1 + (srcX - sx1)) with srcX by lia. reflexivity.
  - rewrite IH by (destruct (Z.gtb_spec (srcX + 1) sx2); lia).
    f_equal. apply imap_ext. intros k x' _. cbn [compose].
    apply list_fmap_ext. intros _ y _. do 2 f_equal.
    destruct (Z.gtb_spec (srcX + 1) sx2) as [Hwrap | Hnext].
    + replace (srcX - sx1 + Z.of_nat (S k))
        with (sx1 - sx1 + Z.of_nat k + 1 * (sx2 - sx1 + 1)) by lia.
      rewrite Z.mod_add by lia. reflexivity.
    + do 2 f_equal. lia.
Qed.

(** X20. A drag that keeps the rows of the fixed region and changes its
    width fills columns: those right of the region when the dragged area
    starts with it, those from the left edge of the dragged area up to the
    region otherwise.  Either way the destination columns, left to right,
    take the columns of the fixed region in order from its leftmost one,
    starting over after its rightmost one, whichever corners of the
    region and of the dragged area are stored first. *)
Theorem fill_handle_cycles_columns props s sx1 sy1 sx2 sy2 kx1 kx2 :
  normalized (selection s) = mkRect sx1 sy1 sx2 sy2 ->
  normalized (knobArea s) = mkRect kx1 sy1 kx2 sy2 ->
  kx2 - kx1 <> sx2 - sx1 ->
  knobChanges props s
  = concat (imap (fun k x =>
                    (fun y => mkChange x y
                       (sourceData props
                          (sx1 + Z.of_nat k `mod` (sx2 - sx1 + 1)) y))
                    <$> upTo sy1 sy2)
              (if kx1 =? sx1 then upTo (sx2 + 1) kx2
               else upTo kx1 (sx1 - 1))).
Proof.
  intros Hsel Hknob Hw.
  destruct (knobChanges_corners props s _ _ _ _ _ _ _ _ Hsel Hknob)
    as [(Hx & Hy & _ & _) ->].
  apply Z.eqb_neq in Hw. rewrite Hw.
  destruct (kx1 =? sx1); rewrite fillColumns_cycle by lia;
    f_equal; apply imap_ext; intros k x _; apply list_fmap_ext;
    intros _ y _; do 4 f_equal; lia.
Qed.

Lemma fill_handle_cycles_columns_witness :
  knobChanges fillProps (dragging (mkRect 1 1 0 0) (mkRect 0 0 4 1))
  = concat (imap (fun k x =>
                    (fun y => mkChange x y
                       (sourceData fillProps
                          (0 + Z.of_nat k `mod` (1 - 0 + 1)) y))
                    <$> upTo 0 1)
              (if 0 =? 0 then upTo (1 + 1) 4 else upTo 0 (0 - 1))).
Proof.
  apply (fill_handle_cycles_columns fillProps
           (dragging (mkRect 1 1 0 0) (mkRect 0 0 4 1)) 0 0 1 1 0 4);
    reflexivity || discriminate.
Defined.

(** X21. A drag upwards fills the rows above the fixed region from the
    top of the dragged area down, taking the rows of the fixed region in
    order from its top row: the source rows are counted from the topmost
    destination row, not mirrored from the region's edge.  The region and
    the dragged area are read through their corners in order, whichever
    are stored first. *)
Theorem fill_handle_upwards props s sx1 sy1 sx2 sy2 ky1 :
  normalized (selection s) = mkRect sx1 sy1 sx2 sy2 ->
  normalized (knobArea s) = mkRect sx1 ky1 sx2 sy2 ->
  ky1 < sy1 ->
  knobChanges props s
  = concat (imap (fun k y =>
                    (fun x => mkChange x y
                       (sourceData props x
                          (sy1 + Z.of_nat k `mod` (sy2 - sy1 + 1))))
                    <$> upTo sx1 sx2) (upTo ky1 (sy1 - 1))).
Proof.
  intros Hsel Hknob Hk.
  destruct (knobChanges_corners props s _ _ _ _ _ _ _ _ Hsel Hknob)
    as [(Hx & Hy & _ & _) ->].
  rewrite Z.eqb_refl.
  destruct (Z.eqb_spec ky1 sy1) as [Heq | _]; [lia |].
  rewrite fillRows_cycle by lia.
  f_equal. apply imap_ext. intros k y _. apply list_fmap_ext. intros _ x _.
  do 4 f_equal. lia.
Qed.

Lemma fill_handle_upwards_witness :
  knobChanges fillProps (dragging (mkRect 1 4 0 3) (mkRect 0 0 1 4))
  = concat (imap (fun k y =>
                    (fun x => mkChange x y
                       (sourceData fillProps x
                          (3 + Z.of_nat k `mod` (4 - 3 + 1))))
                    <$> upTo 0 1) (upTo 0 (3 - 1))).
Proof.
  apply (fill_handle_upwards fillProps
           (dragging (mkRect 1 4 0 3) (mkRect 0 0 1 4)) 0 3 1 4 0);
    reflexivity || discriminate.
Defined.

Lemma actionsOf_app a b : actionsOf (a ++ b) = actionsOf a ++ actionsOf b.
Proof. apply omap_app. Qed.

Lemma actionsOf_Do acts : actionsOf (Do <$> acts) = acts.
Proof.
  unfold actionsOf. induction acts as [| a acts IH]; [reflexivity |].
  rewrite fmap_cons. cbn [omap]. simpl. f_equal. exact IH.
Qed.

Lemma actionsOf_cons_Do a effects :
  actionsOf (Do a :: effects) = a :: actionsOf effects.
Proof. reflexivity. Qed.

Lemma actionsOf_cursors {A} (l : list A) c :
  actionsOf ((fun _ => SetCursor c) <$> l) = [].
Proof. induction l as [| a l IH]; [reflexivity | exact IH]. Qed.

Lemma cursors_no_action effects :
  Forall (fun e => exists c, e = SetCursor c) effects ->
  actionsOf effects = [].
Proof.
  induction 1 as [| e effects [c ->] _ IH]; [reflexivity | exact IH].
Qed.

(** [onMouseMove] begins with cursor feedback, which changes no state. *)
Lemma onMouseMove_feedback props host s columns rows hitMap x y :
  exists feedback,
    Forall (fun e => exists c, e = SetCursor c) feedback
    /\ onMouseMove props host s columns rows hitMap x y
       = feedback
         ++ match columnResize s with
            | Some resize =>
                if onCellWidthChange host then
                  [CallOnCellWidthChange (rs_idx resize)
                     (Z.max (rs_oldSize resize + x - rs_start resize)
                        minimumColumnWidth)]
                else []
            | None =>
                match rowResize s with
                | Some resize =>
                    if onCellHeightChange host then
                      [CallOnCellHeightChange (rs_idx resize)
                         (Z.max (rs_oldSize resize + y - rs_start resize)
                            minimumRowHeight)]
                    else []
                | None =>
                    (if selectionInProgress s then
                       let sel := selection s in
                       let sel2 := absCoordianteToCell columns rows x y in
                       Do <$>
                         (if rowSelectionInProgress s then
                            changeSelection props s columns rows
                              (r_x1 sel) (r_y1 sel) (r_x2 sel) (c_y sel2) false
                          else if columnSelectionInProgress s then
                            changeSelection props s columns rows
                              (r_x1 sel) (r_y1 sel) (c_x sel2) (r_y2 sel) false
                          else
                            changeSelection props s columns rows
                              (r_x1 sel) (r_y1 sel) (c_x sel2) (c_y sel2) true)
                     else [])
                    ++ (if knobDragInProgress s then
                          [SetCursor "crosshair";
                           Do (SetKnobArea
                                 (draggedKnobArea s
                                    (absCoordianteToCell columns rows x y)))]
                        else [])
                end
            end.
Proof.
  unfold onMouseMove.
  match goal with
  | |- exists f, _ /\ ?a ++ ?b ++ ?c ++ ?d ++ ?e ++ ?rest = _ =>
      exists (a ++ b ++ c ++ d ++ e)
  end.
  split.
  - repeat apply Forall_app_2.
    + repeat constructor. eauto.
    + apply Forall_fmap, Forall_true. intros t. simpl. eauto.
    + destruct (onCellWidthChange host && _);
        [destruct (findBoundary (cellWidth props) _ _ _) |];
        repeat constructor; eauto.
    + destruct (onCellHeightChange host && _);
        [destruct (findBoundary (cellHeight props) _ _ _) |];
        repeat constructor; eauto.
    + destruct (nearKnob _ _ _ _ _ _); repeat constructor; eauto.
  - rewrite <- !app_assoc. reflexivity.
Qed.

(** X22. A move of a fill-handle drag followed by its release writes
    exactly the cells the drag added: with the drag in progress and no
    other interaction, [onMouseMove] replaces the dragged area and keeps
    the selection, and the records [onMouseUp] then hands [onChange]
    address the cells of the dragged area outside the fixed region, all
    of them and no other; none when the pointer is inside the region. *)
Theorem drag_then_release_writes_added_cells props host s columns rows
    hitMap px py x y :
  knobDragInProgress s = true ->
  columnResize s = None -> rowResize s = None ->
  selectionInProgress s = false ->
  let moved :=
    nextState s
      (actionsOf (onMouseMove props host s columns rows hitMap px py)) in
  selection moved = selection s
  /\ knobArea moved
     = draggedKnobArea s (absCoordianteToCell columns rows px py)
  /\ ((exists v, mkChange x y v ∈ knobChanges props moved)
      <-> covers (knobArea moved) x y /\ ~ covers (selection s) x y).
Proof.
  intros Hdrag Hcol Hrow Hsel moved.
  destruct (onMouseMove_feedback props host s columns rows hitMap px py)
    as (feedback & Hfeedback & Hmove).
  assert (Hmoved : moved
                   = applyAction s
                       (SetKnobArea
                          (draggedKnobArea s
                             (absCoordianteToCell columns rows px py)))).
  { unfold moved. rewrite Hmove, Hcol, Hrow, Hsel, Hdrag.
    rewrite actionsOf_app, (cursors_no_action _ Hfeedback). reflexivity. }
  assert (Hsame : selection moved = selection s)
    by (rewrite Hmoved; destruct s; reflexivity).
  assert (Harea : knobArea moved
                  = draggedKnobArea s (absCoordianteToCell columns rows px py))
    by (rewrite Hmoved; destruct s; reflexivity).
  split; [exact Hsame |]. split; [exact Harea |].
  rewrite knobChanges_cells, Hsame. unfold covers. rewrite Harea.
  unfold draggedKnobArea. rewrite !ordered_min_max.
  set (cell := absCoordianteToCell columns rows px py).
  destruct (Z.abs _ <? Z.abs _);
    [destruct (Z.ltb_spec (c_y cell)
                 (Z.min (r_y1 (selection s)) (r_y2 (selection s))))
    |destruct (Z.ltb_spec (c_x cell)
                 (Z.min (r_x1 (selection s)) (r_x2 (selection s))))];
    cbn [r_x1 r_x2 r_y1 r_y2]; lia.
Qed.

Lemma drag_then_release_writes_added_cells_witness :
  (exists v,
     mkChange 0 2 v
     ∈ knobChanges fillProps
         (nextState (dragging (mkRect 0 0 1 1) (mkRect 0 0 1 1))
            (actionsOf
               (onMouseMove fillProps (mkHostProps true true true)
                  (dragging (mkRect 0 0 1 1) (mkRect 0 0 1 1))
                  sampleColumns sampleRows ∅ 60 80))))
  <-> covers
        (knobArea
           (nextState (dragging (mkRect 0 0 1 1) (mkRect 0 0 1 1))
              (actionsOf
                 (onMouseMove fillProps (mkHostProps true true true)
                    (dragging (mkRect 0 0 1 1) (mkRect 0 0 1 1))
                    sampleColumns sampleRows ∅ 60 80)))) 0 2
      /\ ~ covers (selection (dragging (mkRect 0 0 1 1) (mkRect 0 0 1 1))) 0 2.
Proof.
  apply (drag_then_release_writes_added_cells fillProps
           (mkHostProps true true true)
           (dragging (mkRect 0 0 1 1) (mkRect 0 0 1 1))
           sampleColumns sampleRows ∅ 60 80 0 2);
    reflexivity.
Defined.

(** X23. While a column or a row is being resized, [onMouseMove] changes
    no state, whatever else is in progress; and no size it ever hands
    [onCellWidthChange] is under 50 pixels, none it hands
    [onCellHeightChange] under 22, however far the pointer has moved
    back. *)
Theorem resize_keeps_minimum_and_state props host s columns rows hitMap x y :
  Forall (fun e => match e with
                   | CallOnCellWidthChange _ w => minimumColumnWidth <= w
                   | CallOnCellHeightChange _ h => minimumRowHeight <= h
                   | _ => True
                   end)
    (onMouseMove props host s columns rows hitMap x y)
  /\ (columnResize s <> None \/ rowResize s <> None ->
      actionsOf (onMouseMove props host s columns rows hitMap x y) = []).
Proof.
  destruct (onMouseMove_feedback props host s columns rows hitMap x y)
    as (feedback & Hfeedback & ->).
  split.
  - apply Forall_app_2.
    + eapply Forall_impl; [exact Hfeedback |]. intros e [c ->]. exact I.
    + destruct (columnResize s) as [resize |];
        [| destruct (rowResize s) as [resize |]].
      * destruct (onCellWidthChange host); repeat constructor. lia.
      * destruct (onCellHeightChange host); repeat constructor. lia.
      * apply Forall_app_2.
        -- destruct (selectionInProgress s); [| constructor].
           apply Forall_fmap, Forall_true. intros a. exact I.
        -- destruct (knobDragInProgress s); repeat constructor.
  - intros Hresize. rewrite actionsOf_app, (cursors_no_action _ Hfeedback).
    destruct (columnResize s) as [resize |].
    + destruct (onCellWidthChange host); reflexivity.
    + destruct (rowResize s) as [resize |]; [| destruct Hresize; congruence].
      destruct (onCellHeightChange host); reflexivity.
Qed.

(** ** The hit-test index *)

Lemma binAt_addToBin t xbin ykey ky :
  binAt (addToBin t xbin ykey) ky
  = binAt xbin ky ++ (if decide (ykey = ky) then [t] else []).
Proof.
  unfold binAt, addToBin. rewrite lookup_insert.
  destruct (decide (ykey = ky)) as [-> | Hne]; simpl.
  - reflexivity.
  - rewrite app_nil_r. reflexivity.
Qed.

Lemma binAt_fold t ys xbin ky :
  NoDup ys ->
  binAt (foldl (addToBin t) xbin ys) ky
  = binAt xbin ky ++ (if decide (ky ∈ ys) then [t] else []).
Proof.
  intros Hnd. revert xbin.
  induction Hnd as [| y ys Hy Hnd IH]; intros xbin.
  - simpl. destruct (decide (ky ∈ [])) as [Hin | _];
      [apply elem_of_nil in Hin; contradiction |].
    rewrite app_nil_r. reflexivity.
  - cbn [foldl]. rewrite IH, binAt_addToBin.
    destruct (decide (y = ky)) as [-> | Hne].
    + destruct (decide (ky ∈ ys)); [contradiction |].
      destruct (decide (ky ∈ ky :: ys)) as [_ | Hout];
        [rewrite app_nil_r; reflexivity |].
      exfalso. apply Hout. left.
    + rewrite app_nil_r.
      destruct (decide (ky ∈ ys)) as [Hin | Hout];
        destruct (decide (ky ∈ y :: ys)) as [Hin' | Hout'];
        try reflexivity.
      * exfalso. apply Hout'. right. exact Hin.
      * exfalso. apply elem_of_cons in Hin' as [-> | Hin']; contradiction.
Qed.

Lemma cellAt_addToColumn t y1key y2key hitM xkey kx ky :
  cellAt (addToColumn t y1key y2key hitM xkey) kx ky
  = cellAt hitM kx ky
    ++ (if decide (xkey = kx /\ y1key <= ky <= y2key) then [t] else []).
Proof.
  unfold cellAt, addToColumn. rewrite lookup_insert.
  destruct (decide (xkey = kx)) as [-> | Hne]; simpl.
  - fold (binAt (foldl (addToBin t) (default ∅ (hitM !! kx))
                   (upTo y1key y2key)) ky).
    rewrite binAt_fold by apply NoDup_upTo.
    assert (Hsame : binAt (default ∅ (hitM !! kx)) ky
                    = default [] (hitM !! kx ≫= (fun xbin => xbin !! ky))).
    { unfold binAt. destruct (hitM !! kx); simpl; [reflexivity |].
      rewrite lookup_empty. reflexivity. }
    rewrite Hsame. f_equal.
    destruct (decide (ky ∈ upTo y1key y2key)) as [Hin | Hout];
      destruct (decide (kx = kx /\ y1key <= ky <= y2key)) as [Hin' | Hout'];
      try reflexivity.
    + exfalso. apply Hout'. apply elem_of_upTo in Hin. auto.
    + exfalso. apply Hout. apply elem_of_upTo. tauto.
  - destruct (decide (xkey = kx /\ y1key <= ky <= y2key)) as [[? _] | _];
      [contradiction |].
    rewrite app_nil_r. reflexivity.
Qed.

Lemma cellAt_columns t y1key y2key xs hitM kx ky :
  NoDup xs ->
  cellAt (foldl (addToColumn t y1key y2key) hitM xs) kx ky
  = cellAt hitM kx ky
    ++ (if decide (kx ∈ xs /\ y1key <= ky <= y2key) then [t] else []).
Proof.
  intros Hnd. revert hitM.
  induction Hnd as [| x xs Hx Hnd IH]; intros hitM.
  - simpl.
    destruct (decide (kx ∈ [] /\ y1key <= ky <= y2key)) as [[Hin _] | _];
      [apply elem_of_nil in Hin; contradiction |].
    rewrite app_nil_r. reflexivity.
  - cbn [foldl]. rewrite IH, cellAt_addToColumn, <- app_assoc. f_equal.
    destruct (decide (x = kx /\ y1key <= ky <= y2key)) as [[-> Hy] | Hne].
    + destruct (decide (kx ∈ xs /\ y1key <= ky <= y2key)) as [[Hin _] | _];
        [contradiction |].
      destruct (decide (kx ∈ kx :: xs /\ y1key <= ky <= y2key))
        as [_ | Hout]; [reflexivity |].
      exfalso. apply Hout. split; [left | exact Hy].
    + destruct (decide (kx ∈ xs /\ y1key <= ky <= y2key)) as [[Hin Hy] | Hout];
        destruct (decide (kx ∈ x :: xs /\ y1key <= ky <= y2key))
          as [[Hin' Hy'] | Hout']; try reflexivity.
      * exfalso. apply Hout'. split; [right; exact Hin | exact Hy].
      * exfalso. apply elem_of_cons in Hin' as [-> | Hin'].
        -- apply Hne. auto.
        -- apply Hout. auto.
Qed.

(** Adding a target appends it to the bins its rectangle reaches and
    leaves every other bin as it was. *)
Lemma cellAt_addHitTarget hitM t kx ky :
  cellAt (addHitTarget hitM t) kx ky
  = cellAt hitM kx ky ++ (if inBins t kx ky then [t] else []).
Proof.
  unfold addHitTarget. rewrite cellAt_columns by apply NoDup_upTo.
  f_equal. unfold inBins.
  destruct (decide _) as [[Hx Hy] | Hout].
  - apply elem_of_upTo in Hx.
    rewrite !(proj2 (Z.leb_le _ _)) by lia. reflexivity.
  - destruct (Z.leb_spec (ht_x t / xBinSize) kx),
             (Z.leb_spec kx ((ht_x t + ht_w t) / xBinSize)),
             (Z.leb_spec (ht_y t / yBinSize) ky),
             (Z.leb_spec ky ((ht_y t + ht_h t) / yBinSize));
      try reflexivity.
    exfalso. apply Hout. rewrite elem_of_upTo. lia.
Qed.

Lemma cellAt_targets targets hitM kx ky :
  cellAt (foldl addHitTarget hitM targets) kx ky
  = cellAt hitM kx ky ++ List.filter (fun t => inBins t kx ky) targets.
Proof.
  revert hitM. induction targets as [| t targets IH]; intros hitM.
  - simpl. rewrite app_nil_r. reflexivity.
  - cbn [foldl List.filter]. rewrite IH, cellAt_addHitTarget, <- app_assoc.
    destruct (inBins t kx ky); reflexivity.
Qed.

(** A target that contains a pixel reaches the bin of that pixel. *)
Lemma contains_inBins t x y :
  contains t x y = true -> inBins t (x / xBinSize) (y / yBinSize) = true.
Proof.
  unfold contains, inBins. intros H.
  repeat (apply andb_prop in H as [H ?]).
  repeat match goal with
         | H : (_ <=? _) = true |- _ => apply Z.leb_le in H
         end.
  repeat (apply andb_true_intro; split); apply Z.leb_le;
    apply Z.div_le_mono; unfold xBinSize, yBinSize; lia.
Qed.

Lemma find_filter {A} (p q : A -> bool) l :
  (forall a, p a = true -> q a = true) ->
  List.find p (List.filter q l) = List.find p l.
Proof.
  intros Hpq. induction l as [| a l IH]; [reflexivity |].
  cbn [List.filter List.find].
  destruct (p a) eqn:Hp.
  - rewrite (Hpq a Hp). cbn [List.find]. rewrite Hp. reflexivity.
  - destruct (q a); [cbn [List.find]; rewrite Hp |]; exact IH.
Qed.

(** X24. The hit test through the bins finds what a search through all
    the targets would: for the index built from any list of targets,
    whatever bins their rectangles span, [hitTest] returns the first
    target of the list, in the order they were added, that contains the
    pixel, and nothing when none does. *)
Theorem hit_test_finds_first_target targets x y :
  hitTest (hitMapOf targets) x y
  = List.find (fun t => contains t x y) targets.
Proof.
  unfold hitTest, hitMapOf.
  change (bucket (foldl addHitTarget ∅ targets) x y)
    with (cellAt (foldl addHitTarget ∅ targets)
            (x / xBinSize) (y / yBinSize)).
  rewrite cellAt_targets.
  assert (Hempty : cellAt ∅ (x / xBinSize) (y / yBinSize) = []).
  { unfold cellAt. rewrite lookup_empty. reflexivity. }
  rewrite Hempty. cbn [app].
  apply find_filter. intros t. apply contains_inBins.
Qed.

(** X25. A click is a press and a release on the same target.  A press
    with the main button on a pixel the hit test resolves arms that
    target and touches nothing else, the selection least of all; the
    release that follows calls its [onClick] once when the release pixel
    lies in the target's rectangle and not at all otherwise, writes no
    cell, and disarms the target either way. *)
Theorem click_is_press_and_release props s columns rows hitMap
    canvasWidth canvasHeight x y x' y' t :
  hitTest hitMap x y = Some t ->
  x <= canvasWidth -> y <= canvasHeight -> x <> -1 -> y <> -1 ->
  knobDragInProgress s = false ->
  let pressed :=
    nextState s
      (actionsOf (onMouseDown props s columns rows hitMap
                    canvasWidth canvasHeight 0 x y)) in
  let acts := onMouseUp props pressed columns rows x' y' in
  selection pressed = selection s
  /\ onClickCalls acts = (if contains t x' y' then [t] else [])
  /\ onChangeCalls acts = []
  /\ bc_hitTarget (buttonClickMouseDownCoordinates (nextState pressed acts))
     = None.
Proof.
  intros Hhit Hx Hy Hx1 Hy1 Hdrag pressed acts.
  assert (Hpressed : pressed
                     = applyAction s
                         (SetButtonClickMouseDownCoordinates
                            (mkButtonClick x y (Some t)))).
  { unfold pressed, onMouseDown. rewrite Hhit.
    destruct (Z.gtb_spec x canvasWidth); [lia |].
    destruct (Z.gtb_spec y canvasHeight); [lia |]. reflexivity. }
  assert (Hbc : buttonClickMouseDownCoordinates pressed
                = mkButtonClick x y (Some t))
    by (rewrite Hpressed; destruct s; reflexivity).
  assert (Hkd : knobDragInProgress pressed = false)
    by (rewrite Hpressed; destruct s; exact Hdrag).
  split; [rewrite Hpressed; destruct s; reflexivity |].
  unfold acts, onMouseUp. rewrite Hkd, Hbc. cbn [bc_hitTarget bc_x bc_y].
  apply Z.eqb_neq in Hx1, Hy1. rewrite Hx1, Hy1. cbn [negb andb app].
  fold (contains t x' y').
  destruct (contains t x' y'); destruct pressed; repeat split.
Qed.

Lemma click_is_press_and_release_witness :
  onClickCalls
    (onMouseUp plainProps
       (nextState initialState
          (actionsOf
             (onMouseDown plainProps initialState sampleColumns sampleRows
                (hitMapOf [mkHitTarget 0 0 55 30 25 8 1]) 300 70 0 72 33)))
       sampleColumns sampleRows 60 35)
  = (if contains (mkHitTarget 0 0 55 30 25 8 1) 60 35
     then [mkHitTarget 0 0 55 30 25 8 1] else []).
Proof.
  apply (click_is_press_and_release plainProps initialState
           sampleColumns sampleRows
           (hitMapOf [mkHitTarget 0 0 55 30 25 8 1]) 300 70 72 33 60 35
           (mkHitTarget 0 0 55 30 25 8 1));
    try reflexivity; try discriminate.
Defined.

(** ** Scrolling *)

(** The offset [onScroll] leaves, whether it sets it or finds it set. *)
Lemma onScroll_offset s maxScroll absX absY :
  dataOffset (nextState s (actionsOf (onScroll s maxScroll absX absY)))
  = mkCell (absX / scrollSpeed) (absY / scrollSpeed).
Proof.
  unfold onScroll. rewrite actionsOf_app, nextState_app.
  destruct s as [[ox oy] sel k ec ev akc sh kd sp cr rr rsp csp bc].
  cbn [dataOffset c_x c_y].
  assert (Hsame : forall s0 b mx my,
            dataOffset (nextState s0
                          (actionsOf (if b : bool then [SetMaxScroll mx my]
                                      else [])))
            = dataOffset s0) by (intros s0 []; reflexivity).
  rewrite Hsame.
  destruct (Z.eqb_spec (absX / scrollSpeed) ox) as [Hx | Hx];
    destruct (Z.eqb_spec (absY / scrollSpeed) oy) as [Hy | Hy];
    cbn -[Z.div scrollSpeed]; congruence.
Qed.

(** X26. After a scroll event the scroll offset is the scroll position in
    whole steps of [scrollSpeed] pixels, rounded down, on both axes; and
    the event changes the offset only when the position has left the
    step the offset stands for. *)
Theorem scroll_sets_whole_step_offset s maxScroll absX absY :
  dataOffset (nextState s (actionsOf (onScroll s maxScroll absX absY)))
  = mkCell (absX / scrollSpeed) (absY / scrollSpeed)
  /\ (dataOffset s = mkCell (absX / scrollSpeed) (absY / scrollSpeed) ->
      forall a, a ∈ actionsOf (onScroll s maxScroll absX absY) ->
                forall c, a <> SetDataOffset c).
Proof.
  split; [apply onScroll_offset |].
  intros Heq a Ha c ->. unfold onScroll in Ha. rewrite actionsOf_app in Ha.
  rewrite Heq in Ha. cbn [c_x c_y] in Ha. rewrite !Z.eqb_refl in Ha.
  cbn [negb orb actionsOf omap app] in Ha.
  destruct (_ || _); cbn in Ha;
    apply elem_of_nil in Ha; contradiction.
Qed.

(** X27. The scroll position [changeSelection] asks the host for on an
    axis stands for the very offset it stores: when the scroll event of
    that position reaches [onScroll] in the next render, the offset of
    the axis stays what [changeSelection] made it. *)
Theorem requested_scroll_keeps_offset props s columns rows
    x1 y1 x2 y2 scrollToP2 maxScroll axis position other :
  let acts := changeSelection props s columns rows x1 y1 x2 y2 scrollToP2 in
  let s' := nextState s acts in
  position ∈ axisScrollRequests axis acts ->
  axisOf axis
    (dataOffset
       (nextState s'
          (actionsOf
             (match axis with
              | AxisX => onScroll s' maxScroll position other
              | AxisY => onScroll s' maxScroll other position
              end))))
  = axisOf axis (dataOffset s').
Proof.
  intros acts s' Hreq.
  assert (Hpos : position / scrollSpeed = axisOf axis (dataOffset s')).
  { unfold s', acts in *. unfold changeSelection in *.
    destruct s as [[ox oy] sel k ec ev akc sh kd sp cr rr rsp csp bc].
    cbn [dataOffset c_x c_y] in *.
    destruct scrollToP2.
    2:{ destruct axis, (onSelectionChanged props); simpl in Hreq;
        apply elem_of_nil in Hreq; contradiction. }
    pose proof scroll_position_not_sentinel as Hsent.
    destruct (scrolledOffset (visible columns) ox (freezeColumns props) x2)
      as [nx |];
      destruct (scrolledOffset (visible rows) oy (freezeRows props) y2)
        as [ny |];
      cbn [default fmap option_fmap option_map c_x c_y] in *;
      destruct (negb _ || negb _);
      destruct (onSelectionChanged props), axis;
      cbn [app axisScrollRequests scrollLeftRequests scrollTopRequests omap
           nextState foldl applyAction dataOffset axisOf c_x c_y] in *;
      cbn in Hreq; rewrite ?Hsent in Hreq; cbn in Hreq;
      try (apply elem_of_nil in Hreq; contradiction);
      apply list_elem_of_singleton in Hreq; subst position;
      apply Z.div_mul; unfold scrollSpeed; lia. }
  destruct axis; cbn [axisOf] in *.
  - rewrite onScroll_offset. exact Hpos.
  - rewrite onScroll_offset. exact Hpos.
Qed.

Lemma requested_scroll_keeps_offset_witness :
  120 ∈ axisScrollRequests AxisX
          (changeSelection frozenProps initialState frozenColumns sampleRows
             4 0 4 0 true)
  /\ c_x (dataOffset
            (nextState
               (nextState initialState
                  (changeSelection frozenProps initialState frozenColumns
                     sampleRows 4 0 4 0 true))
               (actionsOf
                  (onScroll
                     (nextState initialState
                        (changeSelection frozenProps initialState
                           frozenColumns sampleRows 4 0 4 0 true))
                     (5000%Q, 5000%Q) 120 7))))
     = c_x (dataOffset
              (nextState initialState
                 (changeSelection frozenProps initialState frozenColumns
                    sampleRows 4 0 4 0 true))).
Proof.
  assert (Hreq : 120 ∈ axisScrollRequests AxisX
                   (changeSelection frozenProps initialState frozenColumns
                      sampleRows 4 0 4 0 true)) by left.
  split; [exact Hreq |].
  exact (requested_scroll_keeps_offset frozenProps initialState frozenColumns
           sampleRows 4 0 4 0 true (5000%Q, 5000%Q) AxisX 120 7 Hreq).
Defined.

(** ** The first draft *)

Lemma Draft_whileLoop_agrees fuel value visibleArea idx prev w :
  Draft.whileLoop fuel (Draft.getSize value) visibleArea idx prev w
  = whileLoop fuel (fun _ => value) visibleArea idx prev w.
Proof.
  revert idx prev w. induction fuel as [| fuel IH]; intros idx prev w;
    [reflexivity |].
  cbn [Draft.whileLoop whileLoop]. unfold Draft.getSize at 1 2 3.
  destruct (_ >=? _); [reflexivity | apply IH].
Qed.

(** X28. The first draft of the sheet computes its windows as the engine
    does for a sheet without frozen cells whose cells all have one size:
    its [calculateRowsOrColsSizes], which takes the index before the
    header size, returns what the engine's returns with a frozen count
    of 0. *)
Theorem draft_window_agrees fuel value startingIndex startingSize visibleArea :
  Draft.calculateRowsOrColsSizes fuel (Draft.getSize value)
    startingIndex startingSize visibleArea
  = calculateRowsOrColsSizes fuel 0 (fun _ => value)
      startingSize startingIndex visibleArea.
Proof.
  unfold Draft.calculateRowsOrColsSizes, calculateRowsOrColsSizes.
  cbn [Z.ltb Z.compare]. apply Draft_whileLoop_agrees.
Qed.

(** ** Selecting a row *)

Lemma outside_point_maps_to_index_zero_general columns rows absX absY :
  (outsideSpans columns absX ->
   c_x (absCoordianteToCell columns rows absX absY) = 0)
  /\ (outsideSpans rows absY ->
      c_y (absCoordianteToCell columns rows absX absY) = 0).
Proof.
  unfold absCoordianteToCell; simpl.
  split; intros Hout; apply scanSpans_none; exact Hout.
Qed.

Lemma left_of_window_is_outside size p (w : Window) q abs :
  Tiled size p (visible w) (start w) (end_ w) q ->
  (forall c, 0 <= size c) -> abs < p -> outsideSpans w abs.
Proof.
  intros Ht Hsize Hlt i. unfold inSpan.
  destruct (start w !! i) as [st |] eqn:Hst; [| reflexivity].
  destruct (end_ w !! i) as [en |]; [| reflexivity].
  pose proof (Tiled_start_ge size Hsize _ _ _ _ _ _ _ Ht Hst).
  rewrite Z.geb_leb. rewrite (proj2 (Z.leb_gt st abs)) by lia. reflexivity.
Qed.

(** X29. A press on the row header, away from the row boundaries, from
    the targets and from the fill handle, selects a row as the cells of
    columns 0 to 100 of the row under the pointer: with Shift up and no
    edit open, the selection of the next render runs from column 0 to
    the fixed column 100, the row selection is in progress, and the
    scroll offset is not touched, whatever the window shows. *)
Theorem header_press_selects_hundred_columns fuel props s columns rows
    hitMap canvasWidth canvasHeight x y :
  renderWindows fuel props s canvasWidth canvasHeight = Some (columns, rows) ->
  (forall c, 0 <= cellWidth props c) ->
  x <= canvasWidth -> y <= canvasHeight ->
  x < rowHeaderWidth -> columnHeaderHeight <= y ->
  hitTest hitMap x y = None ->
  findBoundary (cellHeight props) (visible rows) columnHeaderHeight y = None ->
  nearKnob props s columns rows x y = false ->
  shiftKeyDown s = false -> editMode s = false ->
  let row := c_y (absCoordianteToCell columns rows x y) in
  let pressed :=
    nextState s
      (actionsOf (onMouseDown props s columns rows hitMap
                    canvasWidth canvasHeight 0 x y)) in
  selection pressed = mkRect 0 row 100 row
  /\ rowSelectionInProgress pressed = true
  /\ selectionInProgress pressed = true
  /\ dataOffset pressed = dataOffset s.
Proof.
  intros Hrender Hsize Hx Hy Hhead Hbody Hhit Hbound Hknob Hshift Hedit
    row pressed.
  assert (Hcol : c_x (absCoordianteToCell columns rows x y) = 0).
  { unfold renderWindows in Hrender.
    destruct (calculateRowsOrColsSizes fuel (freezeColumns props) _ _ _ _)
      as [columns' |] eqn:Hcols; [| discriminate].
    destruct (calculateRowsOrColsSizes fuel (freezeRows props) _ _ _ _)
      as [rows' |]; [| discriminate].
    simpl in Hrender. injection Hrender as -> ->.
    apply calculateRowsOrColsSizes_spec in Hcols as (q & Ht & _).
    apply (proj1 (outside_point_maps_to_index_zero_general columns rows x y)).
    eapply left_of_window_is_outside; eauto. }
  assert (Hacts :
    actionsOf (onMouseDown props s columns rows hitMap
                 canvasWidth canvasHeight 0 x y)
    = [SetRowSelectionInProgress true; SetColumnSelectionInProgress false;
       SetSelectionInProgress true]
      ++ changeSelection props s columns rows 0 row 100 row false
      ++ [SetEditCell (mkCell (-1) (-1))]).
  { unfold onMouseDown. rewrite Hhit, Hbound, Hknob, Hshift, Hedit.
    destruct (Z.gtb_spec x canvasWidth); [lia |].
    destruct (Z.gtb_spec y canvasHeight); [lia |].
    destruct (Z.ltb_spec y columnHeaderHeight); [lia |].
    destruct (Z.ltb_spec x rowHeaderWidth); [| lia].
    cbn [negb orb andb Z.eqb fmap list_fmap app].
    rewrite !actionsOf_cons_Do, actionsOf_app, actionsOf_Do, Hcol.
    reflexivity. }
  unfold pressed. rewrite Hacts.
  unfold changeSelection.
  destruct s as [o sel k ec ev akc sh kd sp cr rr rsp csp bc].
  destruct (onSelectionChanged props); repeat split.
Qed.

Lemma header_press_selects_hundred_columns_witness :
  selection
    (nextState initialState
       (actionsOf
          (onMouseDown plainProps initialState sampleColumns sampleRows ∅
             300 70 0 20 50)))
  = mkRect 0 (c_y (absCoordianteToCell sampleColumns sampleRows 20 50))
      100 (c_y (absCoordianteToCell sampleColumns sampleRows 20 50)).
Proof.
  apply (header_press_selects_hundred_columns 5 plainProps initialState
           sampleColumns sampleRows ∅ 300 70 20 50);
    try reflexivity; try discriminate.
Defined.
